(** * AI-Desktop-Assistant: hotkey dispatcher, LLM client and operation pipelines

    A shallow embedding of the coordination code of [AI-Desktop-Assistant.py]:
    the global hotkey loop ([HotkeyManager]), the two LLM invocation routines
    ([call_llm], [call_llm_streaming]), the clipboard triggers and the seven
    worker pipelines, together with the properties the specification states
    about them.

    Python values are modelled by the inductive type [pyval]; exceptions by an
    error monad; the side effects of a run (network calls, reads of the
    cancellation flag, tasks posted with [GLib.idle_add]) by a history of
    events threaded through a state-and-error monad. A Python [str] is a
    [string], one character per code point (the model covers the code points
    below 256); a [dict] with string keys is a [gmap string].

    The transport ([requests]), the X server and the clipboard are the
    surroundings of the program: what they answer is given by an
    [environment], a list of X events and a [clipboard] record. The user's
    Cancel is one instant of the run, [cancel_at]: the flag reads [True] from
    that instant on. The instants of a run are counted in its events; the
    first event of a run is the creation of its progress window, which owns
    the flag, so that a Cancel falls at instant 1 or later. *)

From stdpp Require Import base gmap strings list.
From Stdlib Require Import ZArith Floats Ascii DecimalString Sorted.

Set Warnings "-register-all".
Local Open Scope string_scope.
Local Open Scope list_scope.
Local Open Scope stdpp_scope.

(** ** Python values *)

(** The values that [json.loads] and [response.json()] can produce, which are
    also the values the invocation routines return. A JSON object is a [dict]
    with string keys. *)
Inductive pyval :=
| PNone
| PBool (b : bool)
| PInt (z : Z)
| PFloat (f : float)
| PStr (s : string)
| PList (l : list pyval)
| PDict (d : gmap string pyval).

(** Exceptions, by class. The transport's exceptions carry a description; the
    interpreter's carry the operation and the offending operand. *)
Inductive exn :=
| Timeout (info : string)            (* requests.exceptions.Timeout *)
| ConnectionError (info : string)    (* any other failure of the transport *)
| HTTPError (info : string)          (* raised by raise_for_status() *)
| JSONDecodeError                    (* json.loads / response.json() *)
| RecursionError                     (* json.loads, on a value nested too deep *)
| UnicodeDecodeError                 (* bytes.decode('utf-8') *)
| UnicodeEncodeError                 (* print, on a character stdout cannot encode *)
| KeyError (key : pyval)
| IndexError
| TypeError (op : string) (operand : pyval)
| AttributeError (attr : string) (operand : pyval)
| ValueError (op : string).

(** Outcome of an expression that may raise. *)
Inductive exc (A : Type) :=
| Ok (a : A)
| Raise (e : exn).
Arguments Ok {A} a.
Arguments Raise {A} e.

(** What the model takes from the Python runtime and its libraries without
    looking inside: the JSON parser, the text of an exception ([str(e)]) and
    the text a value takes inside an f-string. [json.loads] returns a value or
    raises: [JSONDecodeError] on a text that is not JSON, and also
    [ValueError] (an integer of too many digits) or [RecursionError]. *)
Class Runtime := {
  json_loads : string -> exc pyval;
  str_exn : exn -> string;
  format_value : pyval -> string;
  format_str : forall s, format_value (PStr s) = s
}.

(** [bool(v)] *)
Definition truthy (v : pyval) : bool :=
  match v with
  | PNone => false
  | PBool b => b
  | PInt z => negb (z =? 0)%Z
  | PFloat f => negb (PrimFloat.eqb f 0%float)
  | PStr s => negb (String.eqb s "")
  | PList l => match l with [] => false | _ => true end
  | PDict d => negb (bool_decide (d = ∅))
  end.

(** [key in v], for a string [key] *)
Definition py_in (key : string) (v : pyval) : exc bool :=
  match v with
  | PDict d => Ok (bool_decide (is_Some (d !! key)))
  | PList l =>
      Ok (existsb (fun x => match x with PStr s => String.eqb s key | _ => false end) l)
  | PStr s => Ok (match String.index 0 key s with Some _ => true | None => false end)
  | _ => Raise (TypeError "in" v)
  end.

(** [len(v)] *)
Definition py_len (v : pyval) : exc nat :=
  match v with
  | PStr s => Ok (String.length s)
  | PList l => Ok (length l)
  | PDict d => Ok (size d)
  | _ => Raise (TypeError "len" v)
  end.

(** [v[key]], for a string [key] *)
Definition getitem (v : pyval) (key : string) : exc pyval :=
  match v with
  | PDict d => match d !! key with Some x => Ok x | None => Raise (KeyError (PStr key)) end
  | _ => Raise (TypeError "getitem" v)
  end.

(** [v[0]]; the keys of a JSON object are strings, so [0] is never one *)
Definition getitem0 (v : pyval) : exc pyval :=
  match v with
  | PList (x :: _) => Ok x
  | PList [] => Raise IndexError
  | PStr (String c _) => Ok (PStr (String c ""))
  | PStr "" => Raise IndexError
  | PDict _ => Raise (KeyError (PInt 0))
  | _ => Raise (TypeError "getitem" v)
  end.

(** [v.get(key, default)] *)
Definition py_get (v : pyval) (key : string) (dflt : pyval) : exc pyval :=
  match v with
  | PDict d => Ok (default dflt (d !! key))
  | _ => Raise (AttributeError "get" v)
  end.

(** [text += v], for a string [text] *)
Definition py_iadd (text : string) (v : pyval) : exc string :=
  match v with
  | PStr s => Ok (text +:+ s)
  | _ => Raise (TypeError "+=" v)
  end.

(** Sequencing of expressions that may raise. *)
Definition exc_bind {A B} (x : exc A) (f : A -> exc B) : exc B :=
  match x with Ok a => f a | Raise e => Raise e end.

(** *** Strings *)

Definition NL : string := String "010"%char "".

(** [str.isspace] on the code points below 256. *)
Definition isspace (c : ascii) : bool :=
  let n := nat_of_ascii c in
  (Nat.leb 9 n && Nat.leb n 13) || (Nat.leb 28 n && Nat.leb n 32)
  || Nat.eqb n 133 || Nat.eqb n 160.

Fixpoint lstrip (s : string) : string :=
  match s with
  | String c s' => if isspace c then lstrip s' else s
  | "" => ""
  end.

Fixpoint rstrip (s : string) : string :=
  match s with
  | String c s' =>
      match rstrip s' with
      | "" => if isspace c then "" else String c ""
      | r => String c r
      end
  | "" => ""
  end.

(** [s.strip()] *)
Definition strip (s : string) : string := rstrip (lstrip s).

(** [s.startswith(p)] *)
Definition startswith (s p : string) : bool := String.prefix p s.

(** [s[n:]] *)
Fixpoint drop_chars (n : nat) (s : string) : string :=
  match n, s with
  | S n', String _ s' => drop_chars n' s'
  | _, _ => s
  end.

Global Arguments strip : simpl never.
Global Arguments startswith : simpl never.
Global Arguments drop_chars : simpl never.

(** [str(n)] for a length *)
Definition str_of_nat (n : nat) : string := NilEmpty.string_of_uint (Nat.to_uint n).

(** ** Configuration, requests and responses *)

(** The fields of [Config] the core reads. *)
Record config := {
  api_url : string;
  api_key : string;
  default_language : string;
  text_model : string;
  premium_text_model : string;
  vision_model : string;
  ocr_model : string;
  use_premium : bool
}.

(** The [content] of a message: a text, or the two parts (text and image
    URL) that [call_llm] builds when an image is attached. *)
Inductive msg_content :=
| CText (text : string)
| CParts (text : msg_content) (image_url : string).

Record message := { role : string; content : msg_content }.

(** One [requests.post]: URL, [Authorization] header, JSON body and timeout. *)
Record request := {
  req_url : string;
  req_authorization : string;
  req_model : string;
  req_messages : list message;
  req_stream : bool;
  req_timeout : nat
}.

(** A line yielded by [response.iter_lines()], given by its UTF-8 decoding;
    [Undecodable] stands for bytes that are not valid UTF-8. *)
Inductive wire_line :=
| Undecodable
| Line (text : string).

(** What the program can observe of a response. *)
Record response := {
  status_code : nat;              (* the HTTP status *)
  http_error_msg : string;        (* the message raise_for_status() builds for it *)
  json_result : option pyval;     (* json(); None: the body is not JSON *)
  body_lines : list wire_line;    (* iter_lines() *)
  lines_error : option exn        (* raised by iter_lines() after the last line *)
}.

(** [raise_for_status()] raises [HTTPError] on the client and server error
    statuses, 400 to 599, and on no other status. [Some m]: it raises
    [HTTPError m]. *)
Definition status_error (resp : response) : option string :=
  if Nat.leb 400 (status_code resp) && Nat.ltb (status_code resp) 600
  then Some (http_error_msg resp)
  else None.

Inductive post_outcome :=
| PostRaises (e : exn)
| PostReturns (r : response).

(** ** Events of a run *)

(** Callables posted to the presentation thread with [GLib.idle_add]. *)
Inductive task :=
| Destroy                                  (* progress_dialog.destroy *)
| UpdateStatus (status : string)           (* progress_dialog.update_status *)
| ShowResult (title : string) (text : pyval)   (* self.show_result *)
| Callback (name : string).                (* a hotkey's bound method *)

(** Windows opened by the presentation thread. *)
Inductive window :=
| ProcessingDialog (title : string)
| ClipboardConfirmDialog (clipboard_text operation_name : string)
| TextQueryDialog (clipboard_text : string).

Inductive event :=
| EvRead (b : bool)          (* progress_dialog.cancelled was read and was b *)
| EvPost (r : request)       (* requests.post was called *)
| EvReturned (v : pyval)     (* an invocation routine returned v *)
| EvIdle (t : task)          (* GLib.idle_add *)
| EvNotify (text : string)   (* show_notification *)
| EvWindow (w : window).     (* a window was created *)

(** The surroundings of one run: when the user presses Cancel (counted in
    events of the run; [None] is never) and what the network answers to the
    [n]-th request. *)
Record environment := {
  cancel_at : option nat;
  network : nat -> request -> post_outcome
}.

(** The value of [progress_dialog.cancelled] after [t] events: the flag is
    set once by [ProcessingDialog.on_cancel] and never reset. *)
Definition cancelled (env : environment) (t : nat) : bool :=
  match cancel_at env with
  | Some c => Nat.leb c t
  | None => false
  end.

(** Requests issued so far, oldest first. *)
Definition posts (h : list event) : list request :=
  omap (fun e => match e with EvPost r => Some r | _ => None end) h.

(** Tasks posted to the presentation thread so far, oldest first. *)
Definition ui_queue (h : list event) : list task :=
  omap (fun e => match e with EvIdle t => Some t | _ => None end) h.

(** ** The monad of a run: a history of events, and exceptions *)

Definition M (A : Type) : Type := list event -> exc A * list event.

Definition ret {A} (a : A) : M A := fun h => (Ok a, h).

Definition bind {A B} (m : M A) (f : A -> M B) : M B :=
  fun h => match m h with
           | (Ok a, h') => f a h'
           | (Raise e, h') => (Raise e, h')
           end.

Definition raise {A} (e : exn) : M A := fun h => (Raise e, h).

Definition lift {A} (x : exc A) : M A := fun h => (x, h).

(** [try: m  except Exception as e: handler e] *)
Definition try_except {A} (m : M A) (handler : exn -> M A) : M A :=
  fun h => match m h with
           | (Ok a, h') => (Ok a, h')
           | (Raise e, h') => handler e h'
           end.

Definition emit (e : event) : M unit := fun h => (Ok tt, h ++ [e]).

Notation "x <- m ;; k" := (bind m (fun x => k))
  (at level 100, m at next level, right associativity).
Notation "m ;;; k" := (bind m (fun _ => k))
  (at level 100, right associativity).

(** [GLib.idle_add(t)] *)
Definition idle_add (t : task) : M unit := emit (EvIdle t).

Section Client.
Context {rt : Runtime} (cfg : config) (env : environment).

(** Reading [progress_dialog.cancelled]. *)
Definition read_cancelled : M bool :=
  fun h => let b := cancelled env (length h) in (Ok b, h ++ [EvRead b]).

(** [requests.post(...)]: the answer is the network's to this request. *)
Definition requests_post (r : request) : M response :=
  fun h => (match network env (length (posts h)) r with
            | PostRaises e => Raise e
            | PostReturns resp => Ok resp
            end, h ++ [EvPost r]).

(** [response.raise_for_status()] *)
Definition raise_for_status (resp : response) : M unit :=
  match status_error resp with
  | Some m => raise (HTTPError m)
  | None => ret tt
  end.

(** [response.json()] *)
Definition response_json (resp : response) : M pyval :=
  match json_result resp with
  | Some v => ret v
  | None => raise JSONDecodeError
  end.

(** [self.get_active_text_model()] *)
Definition get_active_text_model : string :=
  if use_premium cfg then premium_text_model cfg else text_model cfg.

(** *** [call_llm_streaming] *)

(** The body of the inner [try] (lines 1031-1038): parse one frame and
    append its delta to [result_text]. *)
Definition stream_chunk (result_text line : string) : M string :=
  chunk <- lift (json_loads line) ;;
  has <- lift (py_in "choices" chunk) ;;
  nonempty <- (if has : bool
               then n <- lift (exc_bind (getitem chunk "choices") py_len) ;;
                    ret (Nat.ltb 0 n)
               else ret false) ;;
  if nonempty : bool then
    delta <- lift (exc_bind (exc_bind (getitem chunk "choices") getitem0)
                            (fun c => py_get c "delta" (PDict ∅))) ;;
    content <- lift (py_get delta "content" (PStr "")) ;;
    if truthy content then
      result_text' <- lift (py_iadd result_text content) ;;
      idle_add (UpdateStatus ("Receiving response... ("
                              +:+ str_of_nat (String.length result_text')
                              +:+ " chars)")) ;;;
      ret result_text'
    else ret result_text
  else ret result_text.

(** [return result_text if result_text else "No response received"] *)
Definition stream_result (result_text : string) : pyval :=
  PStr (if String.eqb result_text "" then "No response received" else result_text).

(** The [for line in response.iter_lines()] loop and the [return] after
    it (lines 1020-1042). *)
Fixpoint stream_loop (lines : list wire_line) (err : option exn)
         (result_text : string) : M pyval :=
  match lines with
  | [] => match err with
          | Some e => raise e
          | None => ret (stream_result result_text)
          end
  | line :: rest =>
      c <- read_cancelled ;;
      if c : bool then ret PNone
      else match line with
           | Line "" => stream_loop rest err result_text
           | Undecodable => raise UnicodeDecodeError
           | Line line =>
               if startswith line "data: " then
                 let line := drop_chars 6 line in
                 if String.eqb (strip line) "[DONE]" then ret (stream_result result_text)
                 else
                   result_text' <- try_except (stream_chunk result_text line)
                                     (fun e => match e with
                                               | JSONDecodeError => ret result_text
                                               | _ => raise e
                                               end) ;;
                   stream_loop rest err result_text'
               else stream_loop rest err result_text
           end
  end.

(** The headers, body and timeout of the streaming request (lines 998-1016). *)
Definition streaming_request (model : string) (messages : list message) : request :=
  {| req_url := api_url cfg;
     req_authorization := "Bearer " +:+ api_key cfg;
     req_model := model;
     req_messages := messages;
     req_stream := true;
     req_timeout := 10 |}.

Definition call_llm_streaming (model : string) (messages : list message)
           (image_base64 : option string) : M pyval :=
  v <- try_except
         (response <- requests_post (streaming_request model messages) ;;
          raise_for_status response ;;;
          stream_loop (body_lines response) (lines_error response) "")
         (fun e => match e with
                   | Timeout _ => ret (PStr "Error: Connection timeout")
                   | _ => ret (PStr ("Error: " +:+ str_exn e))
                   end) ;;
  emit (EvReturned v) ;;;
  ret v.

(** *** [call_llm] *)

(** [messages[0]["content"] = [text part, image part]] (lines 1057-1061) *)
Definition attach_image (messages : list message) (image_base64 : option string)
  : M (list message) :=
  match image_base64 with
  | Some (String _ _ as b64) =>
      match messages with
      | m :: rest =>
          ret ({| role := role m;
                  content := CParts (content m) ("data:image/png;base64," +:+ b64) |}
               :: rest)
      | [] => raise IndexError
      end
  | _ => ret messages
  end.

(** The headers, body and timeout of the buffered request (lines 1051-1075). *)
Definition buffered_request (model : string) (messages : list message) : request :=
  {| req_url := api_url cfg;
     req_authorization := "Bearer " +:+ api_key cfg;
     req_model := model;
     req_messages := messages;
     req_stream := false;
     req_timeout := 120 |}.

Definition call_llm (model : string) (messages : list message)
           (image_base64 : option string) : M pyval :=
  messages <- attach_image messages image_base64 ;;
  v <- try_except
         (response <- requests_post (buffered_request model messages) ;;
          raise_for_status response ;;;
          result <- response_json response ;;
          lift (exc_bind (exc_bind (exc_bind (getitem result "choices") getitem0)
                                   (fun c => getitem c "message"))
                         (fun m => getitem m "content")))
         (fun e => ret (PStr ("Error: " +:+ str_exn e))) ;;
  emit (EvReturned v) ;;;
  ret v.

End Client.

(** ** The seven operations of [LLMAssistant] *)

Definition user_message (text : string) : message :=
  {| role := "user"; content := CText text |}.

(** The state of the clipboard as [Gtk.Clipboard] reports it. *)
Record clipboard := {
  wait_for_text : option string;
  wait_is_image_available : bool;
  wait_is_uris_available : bool
}.

(** What the user does with a confirmation or query window. *)
Inductive user_choice :=
| Dismiss                      (* Cancel button *)
| Submit (text : string).      (* the text or query in the window on Submit *)

Section Pipelines.
Context {rt : Runtime} (cfg : config) (env : environment).

Abbreviation read_cancelled := (read_cancelled env).
Abbreviation call_llm := (call_llm cfg env).
Abbreviation call_llm_streaming := (call_llm_streaming cfg env).
Abbreviation get_active_text_model := (get_active_text_model cfg).

(** The block that closes every worker (for instance lines 1109-1113):
    [if not cancelled and result: destroy, show_result
     elif cancelled: destroy]. *)
Definition deliver (title : string) (result : pyval) : M unit :=
  c <- read_cancelled ;;
  if negb c && truthy result then
    idle_add Destroy ;;;
    idle_add (ShowResult title result)
  else
    c' <- read_cancelled ;;
    if c' : bool then idle_add Destroy else ret tt.

(** [_process_translate] *)
Definition _process_translate (text : string) : M unit :=
  emit (EvWindow (ProcessingDialog "Translating")) ;;;
  let process :=
    let messages := [user_message
      ("Translate the following text to " +:+ default_language cfg
       +:+ ". Respond in Markdown format. Only provide the translation, no explanations:"
       +:+ NL +:+ NL +:+ text)] in
    result <- call_llm_streaming get_active_text_model messages None ;;
    deliver "Translation" result in
  process.

(** [_process_explain] *)
Definition _process_explain (text : string) : M unit :=
  emit (EvWindow (ProcessingDialog "Getting Explanation")) ;;;
  let process :=
    let messages := [user_message
      ("Provide more information and context about the following text. Respond in "
       +:+ default_language cfg +:+ " using Markdown format:" +:+ NL +:+ NL +:+ text)] in
    result <- call_llm_streaming get_active_text_model messages None ;;
    deliver "Explanation" result in
  process.

(** The prompts of [_ocr_translate_callback]. *)
Definition ocr_translate_ocr_prompt : string :=
  "Extract all text from this image. Only provide the extracted text, no explanations.".

Definition ocr_translate_prompt (ocr_result : pyval) : string :=
  "Translate the following text to " +:+ default_language cfg
  +:+ ". Respond in Markdown format. Only provide the translation:"
  +:+ NL +:+ NL +:+ format_value ocr_result.

(** [_ocr_translate_callback]; [img_base64] is the PNG of the screenshot. *)
Definition _ocr_translate_callback (img_base64 : string) : M unit :=
  emit (EvWindow (ProcessingDialog "OCR + Translation")) ;;;
  let process :=
    idle_add (UpdateStatus "Extracting text from image...") ;;;
    c <- read_cancelled ;;
    if c : bool then idle_add Destroy else
    let ocr_messages := [user_message ocr_translate_ocr_prompt] in
    ocr_result <- call_llm (ocr_model cfg) ocr_messages (Some img_base64) ;;
    c <- read_cancelled ;;
    if c : bool then idle_add Destroy else
    idle_add (UpdateStatus "Translating text...") ;;;
    let translate_messages := [user_message (ocr_translate_prompt ocr_result)] in
    final_result <- call_llm_streaming get_active_text_model translate_messages None ;;
    deliver "OCR + Translation" final_result in
  process.

(** [_explain_image_callback] *)
Definition _explain_image_callback (img_base64 : string) : M unit :=
  emit (EvWindow (ProcessingDialog "Analyzing Image")) ;;;
  let process :=
    idle_add (UpdateStatus "Analyzing image...") ;;;
    c <- read_cancelled ;;
    if c : bool then idle_add Destroy else
    let messages := [user_message
      ("Describe and explain what you see in this image. Provide detailed information. Respond in "
       +:+ default_language cfg +:+ " using Markdown format.")] in
    result <- call_llm (vision_model cfg) messages (Some img_base64) ;;
    deliver "Image Analysis" result in
  process.

(** The prompts of [_ocr_explain_callback]. *)
Definition ocr_explain_ocr_prompt : string :=
  "Extract all text from this image. Only provide the extracted text.".

Definition ocr_explain_prompt (ocr_result : pyval) : string :=
  "Provide more information and context about the following text. Respond in "
  +:+ default_language cfg +:+ " using Markdown format:"
  +:+ NL +:+ NL +:+ format_value ocr_result.

(** [_ocr_explain_callback] *)
Definition _ocr_explain_callback (img_base64 : string) : M unit :=
  emit (EvWindow (ProcessingDialog "OCR + Explanation")) ;;;
  let process :=
    idle_add (UpdateStatus "Extracting text from image...") ;;;
    c <- read_cancelled ;;
    if c : bool then idle_add Destroy else
    let ocr_messages := [user_message ocr_explain_ocr_prompt] in
    ocr_result <- call_llm (ocr_model cfg) ocr_messages (Some img_base64) ;;
    c <- read_cancelled ;;
    if c : bool then idle_add Destroy else
    idle_add (UpdateStatus "Generating explanation...") ;;;
    let explain_messages := [user_message (ocr_explain_prompt ocr_result)] in
    final_result <- call_llm_streaming get_active_text_model explain_messages None ;;
    deliver "OCR + Explanation" final_result in
  process.

(** The prompts of [_process_query_image]. *)
Definition query_image_ocr_prompt : string :=
  "Extract all text from this image. Only provide the extracted text, no explanations. If there is no text, respond with 'No text found'.".

Definition query_image_vision_prompt : string :=
  "Describe what you see in this image in detail. Focus on the main elements, layout, and visual characteristics.".

Definition combined_image_prompt (ocr_result vision_result : pyval)
           (user_query : string) : string :=
  "You are analyzing an image for a user. Here is the information extracted from the image:"
  +:+ NL +:+ NL +:+ "TEXT EXTRACTED FROM IMAGE:" +:+ NL +:+ format_value ocr_result
  +:+ NL +:+ NL +:+ "VISUAL DESCRIPTION OF IMAGE:" +:+ NL +:+ format_value vision_result
  +:+ NL +:+ NL +:+ "USER'S QUESTION:" +:+ NL +:+ user_query
  +:+ NL +:+ NL
  +:+ "Please answer the user's question based on both the extracted text and visual description of the image. Respond in "
  +:+ default_language cfg +:+ " using Markdown format.".

(** [_process_query_image] *)
Definition _process_query_image (img_base64 user_query : string) : M unit :=
  emit (EvWindow (ProcessingDialog "Processing Query")) ;;;
  let process :=
    idle_add (UpdateStatus "Extracting text from image...") ;;;
    c <- read_cancelled ;;
    if c : bool then idle_add Destroy else
    let ocr_messages := [user_message query_image_ocr_prompt] in
    ocr_result <- call_llm (ocr_model cfg) ocr_messages (Some img_base64) ;;
    c <- read_cancelled ;;
    if c : bool then idle_add Destroy else
    idle_add (UpdateStatus "Analyzing image visually...") ;;;
    let vision_messages := [user_message query_image_vision_prompt] in
    vision_result <- call_llm (vision_model cfg) vision_messages (Some img_base64) ;;
    c <- read_cancelled ;;
    if c : bool then idle_add Destroy else
    idle_add (UpdateStatus "Generating answer...") ;;;
    let query_messages :=
      [user_message (combined_image_prompt ocr_result vision_result user_query)] in
    final_result <- call_llm_streaming get_active_text_model query_messages None ;;
    deliver "Query Result" final_result in
  process.

(** The prompt of [_process_query_text]. *)
Definition combined_text_prompt (clipboard_text user_query : string) : string :=
  "Here is some text that the user has provided:"
  +:+ NL +:+ NL +:+ "TEXT:" +:+ NL +:+ clipboard_text
  +:+ NL +:+ NL +:+ "USER'S QUESTION:" +:+ NL +:+ user_query
  +:+ NL +:+ NL
  +:+ "Please answer the user's question based on the provided text. Respond in "
  +:+ default_language cfg +:+ " using Markdown format.".

(** [_process_query_text] *)
Definition _process_query_text (clipboard_text user_query : string) : M unit :=
  emit (EvWindow (ProcessingDialog "Processing Query")) ;;;
  let process :=
    let messages := [user_message (combined_text_prompt clipboard_text user_query)] in
    result <- call_llm_streaming get_active_text_model messages None ;;
    deliver "Query Result" result in
  process.

(** A pipeline run: one of the seven operations with its captured input. *)
Inductive operation :=
| TranslateText (text : string)
| ExplainText (text : string)
| OcrTranslate (img_base64 : string)
| ExplainImage (img_base64 : string)
| OcrExplain (img_base64 : string)
| QueryImage (img_base64 user_query : string)
| QueryText (clipboard_text user_query : string).

Definition run (op : operation) : M unit :=
  match op with
  | TranslateText text => _process_translate text
  | ExplainText text => _process_explain text
  | OcrTranslate img => _ocr_translate_callback img
  | ExplainImage img => _explain_image_callback img
  | OcrExplain img => _ocr_explain_callback img
  | QueryImage img q => _process_query_image img q
  | QueryText text q => _process_query_text text q
  end.

(** *** Clipboard triggers *)

(** [show_notification] *)
Definition show_notification (text : string) : M unit := emit (EvNotify text).

(** [get_clipboard_text] *)
Definition get_clipboard_text (cb : clipboard) : option string * string :=
  match wait_for_text cb with
  | None =>
      if wait_is_image_available cb then (None, "image")
      else if wait_is_uris_available cb then (None, "file")
      else (None, "empty")
  | Some text => (Some text, "text")
  end.

(** The guard of the three clipboard triggers (for instance lines
    1086-1093); [open] is what the trigger does with the text. *)
Definition clipboard_trigger (cb : clipboard) (open : string -> M unit) : M unit :=
  let '(text, content_type) := get_clipboard_text cb in
  if negb (String.eqb content_type "text") then
    if String.eqb content_type "image" then
      show_notification "Clipboard contains an image, not text"
    else if String.eqb content_type "file" then
      show_notification "Clipboard contains a file, not text"
    else
      show_notification "Clipboard does not contain text"
  else
    match text with
    | Some text => open text
    | None => raise (TypeError "set_text" PNone)
    end.

(** [translate_text], followed by the user's answer to the confirmation
    window; [ClipboardConfirmDialog.on_submit] calls the callback with the
    (possibly edited) text. *)
Definition translate_text (cb : clipboard) (user : user_choice) : M unit :=
  clipboard_trigger cb (fun text =>
    emit (EvWindow (ClipboardConfirmDialog text "Translation")) ;;;
    match user with
    | Submit text' => _process_translate text'
    | Dismiss => ret tt
    end).

(** [explain_text] *)
Definition explain_text (cb : clipboard) (user : user_choice) : M unit :=
  clipboard_trigger cb (fun text =>
    emit (EvWindow (ClipboardConfirmDialog text "Explanation")) ;;;
    match user with
    | Submit text' => _process_explain text'
    | Dismiss => ret tt
    end).

(** [query_text]; [TextQueryDialog.on_submit] calls the callback with the
    clipboard text and the chosen query. *)
Definition query_text (cb : clipboard) (user : user_choice) : M unit :=
  clipboard_trigger cb (fun text =>
    emit (EvWindow (TextQueryDialog text)) ;;;
    match user with
    | Submit query => _process_query_text text query
    | Dismiss => ret tt
    end).

End Pipelines.

(** ** Global hotkeys: [HotkeyManager] *)

(** Constants of the X protocol, as python-xlib's [X] and [XK] give them. *)
Module X.
Definition ShiftMask : Z := 1.
Definition ControlMask : Z := 4.
Definition Mod1Mask : Z := 8.
Definition Mod4Mask : Z := 64.
Definition KeyPress : Z := 2.
Definition KeyRelease : Z := 3.
End X.

Module XK.
Definition XK_1 : Z := 49.
Definition XK_2 : Z := 50.
Definition XK_3 : Z := 51.
Definition XK_4 : Z := 52.
Definition XK_5 : Z := 53.
Definition XK_6 : Z := 54.
Definition XK_7 : Z := 55.
End XK.

(** A binding: [(modifiers, keysym, callback_name)]. *)
Definition binding : Type := Z * Z * string.

(** [HotkeyManager.HOTKEYS] *)
Definition HOTKEYS : list binding :=
  [ (Z.lor X.ControlMask X.ShiftMask, XK.XK_1, "translate_text");
    (Z.lor X.ControlMask X.ShiftMask, XK.XK_2, "explain_text");
    (Z.lor X.ControlMask X.ShiftMask, XK.XK_3, "ocr_translate");
    (Z.lor X.ControlMask X.ShiftMask, XK.XK_4, "explain_image");
    (Z.lor X.ControlMask X.ShiftMask, XK.XK_5, "ocr_explain");
    (Z.lor X.ControlMask X.ShiftMask, XK.XK_6, "query_image");
    (Z.lor X.ControlMask X.ShiftMask, XK.XK_7, "query_text") ].

(** The part of a [HotkeyManager] that registration changes: the key grabs
    requested from the X server, oldest first, and [self.hotkey_map]. *)
Record manager := {
  grabs : list (Z * Z);
  hotkey_map : gmap (Z * Z) string
}.

Definition new_manager : manager := {| grabs := []; hotkey_map := ∅ |}.

(** An X event, by the fields the loop reads. *)
Record xevent := { type : Z; detail : Z; state : Z }.

(** [X.ControlMask | X.ShiftMask | X.Mod1Mask | X.Mod4Mask] *)
Definition modifier_mask : Z :=
  Z.lor (Z.lor (Z.lor X.ControlMask X.ShiftMask) X.Mod1Mask) X.Mod4Mask.

(** The code points of a text. *)
Fixpoint code_points (s : string) : list Z :=
  match s with
  | String c s' => Z.of_nat (nat_of_ascii c) :: code_points s'
  | "" => []
  end.

Section Hotkeys.
(** [display.keysym_to_keycode], fixed by the keyboard mapping. *)
Variable keysym_to_keycode : Z -> Z.

(** Whether the encoding of [sys.stdout] has a code point: UTF-8 has all
    but the surrogates, ASCII the first 128. *)
Variable stdout_encodes : Z -> bool.

(** [chr(i)] is defined on the code points only. *)
Definition chr_defined (i : Z) : bool := (0 <=? i)%Z && (i <=? 1114111)%Z.

(** The code points of the line that [print] writes for
    [f"Registered: Ctrl+Shift+{chr(i)} -> {callback_name}"]. *)
Definition registration_message (i : Z) (callback_name : string) : list Z :=
  code_points "Registered: Ctrl+Shift+" ++ [i] ++ code_points " -> "
  ++ code_points callback_name ++ code_points NL.

(** The [print] of line 339: [chr] raises outside the code points, and
    writing the line raises on a character that [sys.stdout] cannot encode. *)
Definition print_registered (keysym : Z) (callback_name : string) : exc unit :=
  let i := (XK.XK_1 + (keysym - XK.XK_1))%Z in
  if chr_defined i then
    if forallb stdout_encodes (registration_message i callback_name) then Ok tt
    else Raise UnicodeEncodeError
  else Raise (ValueError "chr").

(** One turn of the loop of [setup_hotkeys] (lines 325-339): grab the key,
    store the mapping, print the registration. *)
Definition register_binding (b : binding) (hm : manager) : exc unit * manager :=
  let '(modifiers, keysym, callback_name) := b in
  let keycode := keysym_to_keycode keysym in
  let hm' := {| grabs := grabs hm ++ [(keycode, modifiers)];
                hotkey_map := <[(keycode, modifiers) := callback_name]> (hotkey_map hm) |} in
  match print_registered keysym callback_name with
  | Ok _ => (Ok tt, hm')
  | Raise e => (Raise e, hm')
  end.

(** [setup_hotkeys], over a table of bindings. *)
Fixpoint setup_hotkeys (bindings : list binding) (hm : manager) : exc unit * manager :=
  match bindings with
  | [] => (Ok tt, hm)
  | b :: rest =>
      match register_binding b hm with
      | (Ok _, hm') => setup_hotkeys rest hm'
      | (Raise e, hm') => (Raise e, hm')
      end
  end.

(** [callback_object] tells which names [getattr] resolves to a method. *)
Variable callback_object : string -> bool.

(** The body of the inner [while] of [_event_loop] (lines 359-371). *)
Definition dispatch (hm : manager) (event : xevent) : M unit :=
  if (type event =? X.KeyPress)%Z then
    let keycode := detail event in
    let modifiers := Z.land (state event) modifier_mask in
    match hotkey_map hm !! (keycode, modifiers) with
    | Some callback_name =>
        if negb (String.eqb callback_name "") && callback_object callback_name
        then idle_add (Callback callback_name)
        else ret tt
    | None => ret tt
    end
  else ret tt.

(** [_event_loop], over the events the display delivers while the manager
    is running. *)
Fixpoint _event_loop (hm : manager) (events : list xevent) : M unit :=
  match events with
  | [] => ret tt
  | event :: rest => dispatch hm event ;;; _event_loop hm rest
  end.

End Hotkeys.

(** The methods of [LLMAssistant] that the hotkey table names. *)
Definition LLMAssistant (name : string) : bool :=
  bool_decide (name ∈ ["translate_text"; "explain_text"; "ocr_translate"; "explain_image";
                        "ocr_explain"; "query_image"; "query_text"]).

(** The events the X server delivers for one physical press and release of
    a grabbed key: the press, one release-press pair for each auto-repeat
    while the key is held, and the release. *)
Definition key_stroke (keycode state : Z) (repeats : nat) : list xevent :=
  {| type := X.KeyPress; detail := keycode; state := state |}
  :: concat (replicate repeats
       [ {| type := X.KeyRelease; detail := keycode; state := state |};
         {| type := X.KeyPress; detail := keycode; state := state |} ])
  ++ [ {| type := X.KeyRelease; detail := keycode; state := state |} ].

(** ** The streaming contract in the specification's words *)

Section StreamSpec.
Context {rt : Runtime}.

(** A line is a frame when it starts with [data: ]; its payload follows. *)
Definition frame_payload (l : wire_line) : option string :=
  match l with
  | Line text => if startswith text "data: " then Some (drop_chars 6 text) else None
  | Undecodable => None
  end.

(** The frame that ends the stream: its payload is the token [[DONE]]. *)
Definition is_done (l : wire_line) : bool :=
  match frame_payload l with
  | Some p => String.eqb (strip p) "[DONE]"
  | None => false
  end.

(** The [choices[0].delta.content] field of a well-formed chunk. *)
Definition delta_content (chunk : pyval) : option string :=
  match chunk with
  | PDict d =>
      match d !! "choices" with
      | Some (PList (PDict c :: _)) =>
          match c !! "delta" with
          | Some (PDict dl) =>
              match dl !! "content" with
              | Some (PStr s) => Some s
              | _ => None
              end
          | _ => None
          end
      | _ => None
      end
  | _ => None
  end.

(** The JSON values that the loop reads without an exception, by their
    shape. A content is read when it is a text or falsy ([null], [false],
    zero, an empty list or object: the loop adds nothing); *)
Definition readable_content (content : pyval) : bool :=
  match content with
  | PStr _ => true
  | _ => negb (truthy content)
  end.

(** a delta when it is an object with no content or a content that is
    read ([null] is no delta: [None.get] raises); *)
Definition readable_delta (delta : pyval) : bool :=
  match delta with
  | PDict dl => match dl !! "content" with
                | Some content => readable_content content
                | None => true
                end
  | _ => false
  end.

(** a choice when it is an object with no delta or a delta that is read; *)
Definition readable_choice (choice : pyval) : bool :=
  match choice with
  | PDict c => match c !! "delta" with
               | Some delta => readable_delta delta
               | None => true
               end
  | _ => false
  end.

(** the value under [choices] when it is empty (a list, a text or an
    object of length 0) or a list whose first element is a choice that is
    read; *)
Definition readable_choices (choices : pyval) : bool :=
  match choices with
  | PList [] => true
  | PList (choice :: _) => readable_choice choice
  | PStr s => String.eqb s ""
  | PDict d => Nat.eqb (size d) 0
  | _ => false
  end.

(** and a chunk when it is an object with no [choices] or with choices
    that are read, or a list or a text in which [choices] does not occur
    (the membership test is false there, and raises on a number, a boolean
    and [null]). *)
Definition readable (chunk : pyval) : bool :=
  match chunk with
  | PDict d => match d !! "choices" with
               | Some choices => readable_choices choices
               | None => true
               end
  | PList l =>
      negb (existsb (fun x => match x with PStr s => String.eqb s "choices" | _ => false end) l)
  | PStr s => match String.index 0 "choices" s with Some _ => false | None => true end
  | _ => false
  end.

(** The text a line contributes: the content of a well-formed frame, and
    nothing for any other line. *)
Definition frame_text (l : wire_line) : string :=
  match frame_payload l with
  | Some p => match json_loads p with
              | Ok chunk => default "" (delta_content chunk)
              | Raise _ => ""
              end
  | None => ""
  end.

(** The lines before the first [[DONE]] frame. *)
Fixpoint before_done (lines : list wire_line) : list wire_line :=
  match lines with
  | [] => []
  | l :: rest => if is_done l then [] else l :: before_done rest
  end.

(** The concatenation, in arrival order, of the contents of the frames
    before [[DONE]]. *)
Definition accumulated (lines : list wire_line) : string :=
  foldr String.append "" (frame_text <$> before_done lines).

(** A line the loop goes past without an exception: a blank line, a line
    that is not a frame, a frame that is not valid JSON (the parser raises
    [JSONDecodeError], which the loop catches), and a frame whose JSON value
    is read. A line of bytes that are not UTF-8, a frame on which the parser
    raises anything else, and a frame whose value is not read make the loop
    raise. *)
Definition accepted (l : wire_line) : bool :=
  match l with
  | Undecodable => false
  | Line text =>
      match frame_payload l with
      | Some p => match json_loads p with
                  | Ok chunk => readable chunk
                  | Raise JSONDecodeError => true
                  | Raise _ => false
                  end
      | None => true
      end
  end.

(** The stream is read to its end: every line before [[DONE]] is accepted,
    and the transport does not fail before [[DONE]] arrives. *)
Definition completes (lines : list wire_line) (err : option exn) : Prop :=
  Forall (fun l => accepted l = true) (before_done lines)
  /\ (err = None \/ Exists (fun l => is_done l = true) lines).

End StreamSpec.

(** ** A runtime for the examples *)

Definition dquote : string := String "034"%char "".

(** The text of a chunk carrying [s]: an object with the one path
    [choices[0].delta.content]. *)
Definition chunk_text (s : string) : string :=
  "{" +:+ dquote +:+ "choices" +:+ dquote +:+ ":[{" +:+ dquote +:+ "delta" +:+ dquote
  +:+ ":{" +:+ dquote +:+ "content" +:+ dquote +:+ ":" +:+ dquote +:+ s +:+ dquote +:+ "}}]}".

(** The value [json.loads] gives for it. *)
Definition chunk_value (s : string) : pyval :=
  PDict {[ "choices" := PList [PDict {[ "delta" := PDict {[ "content" := PStr s ]} ]}] ]}.

(** The text and the value of the chunk that ends an answer: a choice
    with an empty delta. *)
Definition finish_text : string :=
  "{" +:+ dquote +:+ "choices" +:+ dquote +:+ ":[{" +:+ dquote +:+ "delta" +:+ dquote
  +:+ ":{}," +:+ dquote +:+ "finish_reason" +:+ dquote +:+ ":" +:+ dquote +:+ "stop"
  +:+ dquote +:+ "}]}".

Definition finish_value : pyval :=
  PDict {[ "choices" := PList [PDict {[ "delta" := PDict ∅;
                                        "finish_reason" := PStr "stop" ]}] ]}.

(** A parser that knows the chunks of the examples and the number 5. *)
Definition example_loads (p : string) : exc pyval :=
  if String.eqb p (chunk_text "ab") then Ok (chunk_value "ab")
  else if String.eqb p (chunk_text "cd") then Ok (chunk_value "cd")
  else if String.eqb p finish_text then Ok finish_value
  else if String.eqb p "5" then Ok (PInt 5)
  else Raise JSONDecodeError.

Definition example_str_exn (e : exn) : string :=
  match e with
  | Timeout info | ConnectionError info | HTTPError info => info
  | JSONDecodeError => "Expecting value"
  | RecursionError => "maximum recursion depth exceeded"
  | UnicodeDecodeError => "invalid start byte"
  | UnicodeEncodeError => "surrogates not allowed"
  | KeyError _ => "key"
  | IndexError => "list index out of range"
  | TypeError op _ => op
  | AttributeError attr _ => attr
  | ValueError op => op
  end.

Definition example_format (v : pyval) : string :=
  match v with
  | PStr s => s
  | PNone => "None"
  | PBool true => "True"
  | PBool false => "False"
  | _ => "?"
  end.

Definition example_runtime : Runtime :=
  {| json_loads := example_loads;
     str_exn := example_str_exn;
     format_value := example_format;
     format_str := fun s => eq_refl |}.

Definition example_config : config :=
  {| api_url := "https://nano-gpt.com/api/v1/chat/completions";
     api_key := "Enter Key";
     default_language := "English";
     text_model := "deepseek-ai/deepseek-v3.2-exp";
     premium_text_model := "gpt-5-chat-latest";
     vision_model := "zai-org/GLM-4.5V-FP8";
     ocr_model := "zai-org/GLM-4.5V-FP8";
     use_premium := false |}.

(** A response with a success status and the given body. *)
Definition ok_lines (lines : list wire_line) : response :=
  {| status_code := 200; http_error_msg := ""; json_result := None;
     body_lines := lines; lines_error := None |}.

Definition ok_json (body : pyval) : response :=
  {| status_code := 200; http_error_msg := ""; json_result := Some body;
     body_lines := []; lines_error := None |}.

(** The body of a buffered answer carrying [s]. *)
Definition answer (s : pyval) : pyval :=
  PDict {[ "choices" := PList [PDict {[ "message" := PDict {[ "content" := s ]} ]}] ]}.

(** ** Notions used in the statements *)

(** The events of the loop: reads of the flag and progress updates. *)
Definition loop_event (env : environment) (e : event) : Prop :=
  match e with
  | EvRead b => exists t, cancelled env t = b
  | EvIdle (UpdateStatus _) => True
  | _ => False
  end.

(** What the loop may return: [None] after a read that saw the flag set, or
    a non-empty text with no such read. *)
Definition loop_value (v : pyval) (evs : list event) : Prop :=
  (v = PNone /\ In (EvRead true) evs) \/
  (exists s, v = PStr s /\ s ≠ "" /\ ~ In (EvRead true) evs).

(** The messages as sent, with the image attached to the first one. *)
Definition with_image (messages : list message) (image_base64 : option string)
  : list message :=
  match image_base64, messages with
  | Some (String _ _ as b64), m :: rest =>
      {| role := role m;
         content := CParts (content m) ("data:image/png;base64," +:+ b64) |} :: rest
  | _, _ => messages
  end.

(** The result text of a buffered response body: the value at
    [choices[0].message.content]. *)
Definition message_content (body : pyval) : option pyval :=
  match body with
  | PDict d =>
      match d !! "choices" with
      | Some (PList (PDict c :: _)) =>
          match c !! "message" with
          | Some (PDict m) => m !! "content"
          | _ => None
          end
      | _ => None
      end
  | _ => None
  end.

(** The failures of a buffered invocation: the transport raises (a timeout
    among others), the status is a client or server error (400 to 599), or
    the body is malformed (not JSON, or without a result text). *)
Definition buffered_failure (o : post_outcome) : Prop :=
  match o with
  | PostRaises _ => True
  | PostReturns r =>
      400 <= status_code r < 600 \/
      match json_result r with
      | None => True
      | Some body => message_content body = None
      end
  end.

(** The value that stands for a failure: the text [Error: ] followed by the
    description of the exception. *)
Definition failure_value `{rt : Runtime} (v : pyval) : Prop :=
  exists e, v = PStr ("Error: " +:+ str_exn e).

(** A computation that returns normally from every history satisfying [P],
    in a history satisfying [Q]. *)
Definition triple {A} (P : list event -> Prop) (m : M A) (Q : A -> list event -> Prop) : Prop :=
  forall h, P h -> exists a h', m h = (Ok a, h') /\ Q a h'.

(** No result has been handed to the presentation thread. *)
Definition no_result (h : list event) : Prop :=
  forall title text, ~ In (EvIdle (ShowResult title text)) h.

(** The history ends with the delivery of a result, decided by a read of
    the flag that saw it unset. *)
Definition delivered (env : environment) (h : list event) : Prop :=
  exists h0 title text,
    h = h0 ++ [EvRead false; EvIdle Destroy; EvIdle (ShowResult title text)]
    /\ cancelled env (length h0) = false /\ no_result h0.

Definition is_result (e : event) : Prop :=
  match e with EvIdle (ShowResult _ _) => True | _ => False end.

(** The values the invocations of a run returned, oldest first. *)
Definition returned (h : list event) : list pyval :=
  omap (fun e => match e with EvReturned v => Some v | _ => None end) h.

(** The operations made of more than one stage. *)
Definition multi_stage (op : operation) : bool :=
  match op with
  | OcrTranslate _ | OcrExplain _ | QueryImage _ _ => true
  | _ => false
  end.

(** The title under which an operation shows its result. *)
Definition result_title (op : operation) : string :=
  match op with
  | TranslateText _ => "Translation"
  | ExplainText _ => "Explanation"
  | OcrTranslate _ => "OCR + Translation"
  | ExplainImage _ => "Image Analysis"
  | OcrExplain _ => "OCR + Explanation"
  | QueryImage _ _ => "Query Result"
  | QueryText _ _ => "Query Result"
  end.

(** The requests of the stages of a multi-stage operation, in order, given
    the outputs of all its stages but the last: each stage after the first
    carries the earlier outputs in its prompt. *)
Definition stage_requests `{rt : Runtime} (cfg : config) (op : operation)
           (outputs : list pyval) : list request :=
  match op, outputs with
  | OcrTranslate img, [ocr_result] =>
      [ buffered_request cfg (ocr_model cfg)
          (with_image [user_message ocr_translate_ocr_prompt] (Some img));
        streaming_request cfg (get_active_text_model cfg)
          [user_message (ocr_translate_prompt cfg ocr_result)] ]
  | OcrExplain img, [ocr_result] =>
      [ buffered_request cfg (ocr_model cfg)
          (with_image [user_message ocr_explain_ocr_prompt] (Some img));
        streaming_request cfg (get_active_text_model cfg)
          [user_message (ocr_explain_prompt cfg ocr_result)] ]
  | QueryImage img user_query, [ocr_result; vision_result] =>
      [ buffered_request cfg (ocr_model cfg)
          (with_image [user_message query_image_ocr_prompt] (Some img));
        buffered_request cfg (vision_model cfg)
          (with_image [user_message query_image_vision_prompt] (Some img));
        streaming_request cfg (get_active_text_model cfg)
          [user_message (combined_image_prompt cfg ocr_result vision_result user_query)] ]
  | _, _ => []
  end.

(** The text the streaming routine returns for an exception. *)
Definition streaming_failure_text `{rt : Runtime} (e : exn) : string :=
  match e with
  | Timeout _ => "Error: Connection timeout"
  | _ => "Error: " +:+ str_exn e
  end.

(** What a streaming invocation that is not cancelled returns, by the
    answer of the network to its request: the text of the failure when the
    transport raises, when the status is a client or server error, and when
    the stream is not read to its end (what was accumulated is dropped); the
    accumulated text, or the sentinel, otherwise. *)
Definition streaming_outcome `{rt : Runtime} (o : post_outcome) (v : pyval) : Prop :=
  match o with
  | PostRaises e => v = PStr (streaming_failure_text e)
  | PostReturns resp =>
      match status_error resp with
      | Some m => v = PStr (streaming_failure_text (HTTPError m))
      | None =>
          (completes (body_lines resp) (lines_error resp) ->
           v = stream_result (accumulated (body_lines resp)))
          /\ (~ completes (body_lines resp) (lines_error resp) ->
              exists e, v = PStr (streaming_failure_text e))
      end
  end.

(** An OCR request that times out, followed by a translation that answers
    [ab]. *)
Definition ocr_times_out : environment :=
  {| cancel_at := None;
     network := fun n _ =>
       match n with
       | 0 => PostRaises (Timeout "Read timed out.")
       | _ => PostReturns (ok_lines [Line ("data: " +:+ chunk_text "ab"); Line "data: [DONE]"])
       end |}.

(** An OCR request that answers [hello], followed by a translation request
    that times out. *)
Definition translation_times_out : environment :=
  {| cancel_at := None;
     network := fun n _ =>
       match n with
       | 0 => PostReturns (ok_json (answer (PStr "hello")))
       | _ => PostRaises (Timeout "Read timed out.")
       end |}.

(** The action a detected event stands for: the method bound to the chord
    of a key press, if the chord is registered. Releases and unregistered
    chords stand for none. *)
Definition bound_action (callback_object : string -> bool) (hm : manager) (e : xevent)
  : option string :=
  if (type e =? X.KeyPress)%Z then
    match hotkey_map hm !! (detail e, Z.land (state e) modifier_mask) with
    | Some name => if negb (String.eqb name "") && callback_object name then Some name else None
    | None => None
    end
  else None.

(** A keyboard mapping for the examples: the digit keys have the keycodes
    10, 11, ... *)
Definition example_keycode (keysym : Z) : Z := (keysym - 39)%Z.

(** The code points UTF-8 encodes: all but the surrogates. *)
Definition utf8_encodes (i : Z) : bool := negb ((55296 <=? i)%Z && (i <=? 57343)%Z).

(** The manager after the registration of the built-in table. *)
Definition registered : manager :=
  snd (setup_hotkeys example_keycode utf8_encodes HOTKEYS new_manager).

(** The pair a binding is registered under. *)
Definition binding_pair (keysym_to_keycode : Z -> Z) (b : binding) : Z * Z :=
  let '(modifiers, keysym, _) := b in (keysym_to_keycode keysym, modifiers).

(** The action bound to a pair by a table: that of the last binding of the
    pair. *)
Fixpoint bound_to (keysym_to_keycode : Z -> Z) (bindings : list binding) (p : Z * Z)
  : option string :=
  match bindings with
  | [] => None
  | b :: rest =>
      match bound_to keysym_to_keycode rest p with
      | Some name => Some name
      | None => if decide (binding_pair keysym_to_keycode b = p) then Some b.2 else None
      end
  end.

(** The registration message of the binding can be printed: the keysym is
    a code point, and [sys.stdout] can encode every character of the line. *)
Definition printable (stdout_encodes : Z -> bool) (b : binding) : Prop :=
  (0 <= b.1.2 <= 1114111)%Z
  /\ Forall (fun i => stdout_encodes i = true) (registration_message b.1.2 b.2).

(** A table with two bindings of Ctrl+Shift+1. *)
Definition duplicate_bindings : list binding :=
  [ (Z.lor X.ControlMask X.ShiftMask, XK.XK_1, "translate_text");
    (Z.lor X.ControlMask X.ShiftMask, XK.XK_1, "explain_text") ].

(** What the user is told about a clipboard that does not hold text. *)
Definition wrong_content_notification (content_type : string) : string :=
  if String.eqb content_type "image" then "Clipboard contains an image, not text"
  else if String.eqb content_type "file" then "Clipboard contains a file, not text"
  else "Clipboard does not contain text".

(** A clipboard holding an image. *)
Definition image_clipboard : clipboard :=
  {| wait_for_text := None; wait_is_image_available := true; wait_is_uris_available := false |}.

(** ** Screen selection: [ScreenSelector] *)

Module ScreenSelector.

(** [float('inf')], an integer, and [float('-inf')]: the values the bounds
    of [_calculate_total_geometry] take. *)
Inductive bound :=
| NegInf
| Fin (z : Z)
| PosInf.

(** [a < b] *)
Definition bound_lt (a b : bound) : bool :=
  match a, b with
  | NegInf, NegInf => false
  | NegInf, _ => true
  | Fin x, Fin y => (x <? y)%Z
  | Fin _, PosInf => true
  | _, _ => false
  end.

(** [min(a, b)] and [max(a, b)]: the first of the two on a tie. *)
Definition py_min (a b : bound) : bound := if bound_lt b a then b else a.
Definition py_max (a b : bound) : bound := if bound_lt a b then b else a.

(** [monitor.get_geometry()] *)
Record geometry := { geo_x : Z; geo_y : Z; geo_width : Z; geo_height : Z }.

(** One turn of the loop over the monitors (lines 770-777). *)
Definition extend (acc : bound * bound * bound * bound) (g : geometry)
  : bound * bound * bound * bound :=
  let '(min_x, min_y, max_x, max_y) := acc in
  (py_min min_x (Fin (geo_x g)),
   py_min min_y (Fin (geo_y g)),
   py_max max_x (Fin (geo_x g + geo_width g)),
   py_max max_y (Fin (geo_y g + geo_height g))).

(** [_calculate_total_geometry], over the geometries of the monitors; the
    result is [(x, y, width, height)], and [None] stands for the
    [OverflowError] that [int] raises on an infinity. *)
Definition _calculate_total_geometry (monitors : list geometry) : option (Z * Z * Z * Z) :=
  let '(min_x, min_y, max_x, max_y) := fold_left extend monitors (PosInf, PosInf, NegInf, NegInf) in
  match min_x, min_y, max_x, max_y with
  | Fin x0, Fin y0, Fin x1, Fin y1 => Some (x0, y0, x1 - x0, y1 - y0)%Z
  | _, _, _, _ => None
  end.

Section Selection.
(** The coordinates of a pointer event are floats; [int] truncates them. *)
Variable coordinate : Type.
Variable int : coordinate -> Z.

(** The corners of the selection kept by the window; [None] before the
    first button press. *)
Record selection := {
  start_x : option coordinate;
  start_y : option coordinate;
  end_x : option coordinate;
  end_y : option coordinate
}.

(** The fields as [__init__] sets them. *)
Definition initial : selection :=
  {| start_x := None; start_y := None; end_x := None; end_y := None |}.

(** [on_button_press] *)
Definition on_button_press (x y : coordinate) (s : selection) : selection :=
  {| start_x := Some x; start_y := Some y; end_x := Some x; end_y := Some y |}.

(** [on_motion] *)
Definition on_motion (x y : coordinate) (s : selection) : selection :=
  match start_x s with
  | Some _ => {| start_x := start_x s; start_y := start_y s; end_x := Some x; end_y := Some y |}
  | None => s
  end.

(** [on_button_release], in a window whose origin is [(window_x, window_y)]:
    the window is destroyed, and the callback is called with
    [Some (x, y, w, h)] when the selection is large enough. *)
Definition on_button_release (window_x window_y : Z) (x y : coordinate) (s : selection)
  : exc (option (Z * Z * Z * Z)) :=
  match start_x s, start_y s with
  | Some sx, Some sy =>
      let abs_start_x := (window_x + int sx)%Z in
      let abs_start_y := (window_y + int sy)%Z in
      let abs_end_x := (window_x + int x)%Z in
      let abs_end_y := (window_y + int y)%Z in
      let x := Z.min abs_start_x abs_end_x in
      let y := Z.min abs_start_y abs_end_y in
      let w := Z.abs (abs_end_x - abs_start_x) in
      let h := Z.abs (abs_end_y - abs_start_y) in
      Ok (if (10 <? w)%Z && (10 <? h)%Z then Some (x, y, w, h) else None)
  | _, _ => Raise (TypeError "int" PNone)
  end.

End Selection.

(** The box that the screenshot callbacks hand to [ImageGrab.grab]
    (for instance line 1159): [(x, y, x+w, y+h)]. *)
Definition bbox (r : Z * Z * Z * Z) : Z * Z * Z * Z :=
  let '(x, y, w, h) := r in (x, y, x + w, y + h)%Z.

End ScreenSelector.

(** ** Query windows *)

Module TextQueryDialog.

(** The radio button that is active. *)
Inductive radio :=
| radio_summarize
| radio_explain
| radio_accuracy
| radio_custom.

(** [on_submit]: [Some query] when the window closes and calls back with
    the query, [None] when it warns and stays open. *)
Definition on_submit (active : radio) (custom_text : string) : option string :=
  match active with
  | radio_summarize => Some "Summarize the provided text."
  | radio_explain => Some "Explain the text concisely and simply."
  | radio_accuracy => Some "Tell me if this information is accurate and why or why not?"
  | radio_custom =>
      let query := strip custom_text in
      if String.eqb query "" then None else Some query
  end.

(** The user's attempts on the window, one [(active, custom_text)] per
    click on Submit, ended by Cancel: the first attempt that is not refused
    submits. *)
Fixpoint session (attempts : list (radio * string)) : user_choice :=
  match attempts with
  | [] => Dismiss
  | (active, custom_text) :: later =>
      match on_submit active custom_text with
      | Some query => Submit query
      | None => session later
      end
  end.

End TextQueryDialog.

Module ImageQueryDialog.

(** [on_submit] *)
Definition on_submit (text : string) : option string :=
  let user_query := strip text in
  if String.eqb user_query "" then None else Some user_query.

Fixpoint session (attempts : list string) : user_choice :=
  match attempts with
  | [] => Dismiss
  | text :: later =>
      match on_submit text with
      | Some query => Submit query
      | None => session later
      end
  end.

End ImageQueryDialog.

(** ** Stored configuration: [Config] *)

Module Config.

(** The configuration file as [load] meets it: absent; rejected, when
    opening or parsing it raises, or its JSON value is one that [dict.update]
    refuses at once (a number, [null], a non-empty string); or a JSON object.
    A JSON array is outside this model. *)
Inductive file :=
| Absent
| Rejected
| Object (d : gmap string pyval).

(** [load] sets every key of the object as an attribute of the
    configuration. A key that names something the object already has -- its
    fields [config_dir] and [config_file], its methods [load] and [save], or
    a special attribute such as [__class__] or [__dict__] -- would change
    where or whether the configuration is saved, or make [setattr] raise. A
    plain file has no such key; the attributes below are those of a plain
    file. *)
Definition plain_key (k : string) : bool :=
  negb (startswith k "__")
  && negb (bool_decide (k ∈ ["config_dir"; "config_file"; "load"; "save"])).

Definition plain (f : file) : Prop :=
  match f with
  | Object d => map_Forall (fun k _ => plain_key k = true) d
  | _ => True
  end.

(** The dictionary [defaults] of [load]. *)
Definition defaults : gmap string pyval :=
  list_to_map
    [ ("api_url", PStr "https://nano-gpt.com/api/v1/chat/completions");
      ("api_key", PStr "Enter Key");
      ("default_language", PStr "English");
      ("text_model", PStr "deepseek-ai/deepseek-v3.2-exp");
      ("premium_text_model", PStr "gpt-5-chat-latest");
      ("vision_model", PStr "zai-org/GLM-4.5V-FP8");
      ("ocr_model", PStr "zai-org/GLM-4.5V-FP8");
      ("use_premium", PBool false) ].

(** [load]: the attributes it sets on the object. *)
Definition load (f : file) : gmap string pyval :=
  match f with
  | Absent => defaults
  | Rejected => defaults
  | Object loaded => loaded ∪ defaults
  end.

(** [self.<name>] *)
Definition getattr (attrs : gmap string pyval) (name : string) : exc pyval :=
  match attrs !! name with
  | Some v => Ok v
  | None => Raise (AttributeError name PNone)
  end.

(** [save]: the object it writes to the file. *)
Definition save (attrs : gmap string pyval) : exc (gmap string pyval) :=
  exc_bind (getattr attrs "api_url") (fun api_url =>
  exc_bind (getattr attrs "api_key") (fun api_key =>
  exc_bind (getattr attrs "default_language") (fun default_language =>
  exc_bind (getattr attrs "text_model") (fun text_model =>
  exc_bind (getattr attrs "premium_text_model") (fun premium_text_model =>
  exc_bind (getattr attrs "vision_model") (fun vision_model =>
  exc_bind (getattr attrs "ocr_model") (fun ocr_model =>
  exc_bind (getattr attrs "use_premium") (fun use_premium =>
  Ok (list_to_map
        [ ("api_url", api_url);
          ("api_key", api_key);
          ("default_language", default_language);
          ("text_model", text_model);
          ("premium_text_model", premium_text_model);
          ("vision_model", vision_model);
          ("ocr_model", ocr_model);
          ("use_premium", use_premium) ]))))))))).

(** [SettingsDialog.get_values], from the texts of the seven entries. *)
Definition get_values (entry : string -> string) : gmap string pyval :=
  list_to_map
    [ ("api_url", PStr (entry "api_url"));
      ("api_key", PStr (entry "api_key"));
      ("default_language", PStr (entry "default_language"));
      ("text_model", PStr (entry "text_model"));
      ("premium_text_model", PStr (entry "premium_text_model"));
      ("vision_model", PStr (entry "vision_model"));
      ("ocr_model", PStr (entry "ocr_model")) ].

(** [show_settings] answered with OK: every value is set on the
    configuration, which is then saved. The result is the new attributes and
    the object written. *)
Definition show_settings (entry : string -> string) (attrs : gmap string pyval)
  : exc (gmap string pyval * gmap string pyval) :=
  let attrs' := get_values entry ∪ attrs in
  exc_bind (save attrs') (fun written => Ok (attrs', written)).

(** [toggle_premium_model], up to the save: the menu item's state becomes
    [use_premium]. *)
Definition toggle_premium_model (active : bool) (attrs : gmap string pyval)
  : exc (gmap string pyval * gmap string pyval) :=
  let attrs' := <["use_premium" := PBool active]> attrs in
  exc_bind (save attrs') (fun written => Ok (attrs', written)).

(** The names of the eight settings. *)
Definition settings : list string :=
  [ "api_url"; "api_key"; "default_language"; "text_model"; "premium_text_model";
    "vision_model"; "ocr_model"; "use_premium" ].

End Config.

(** ** Notions used in the further statements *)

(** A progress update. *)
Definition is_update (t : task) : Prop :=
  match t with UpdateStatus _ => True | _ => False end.

(** The ways the queue of a run ends: nothing, the destruction of the
    progress window, or that followed by the result. *)
Definition closing (title : string) (q : list task) : Prop :=
  q = [] \/ q = [Destroy] \/ exists v, q = [Destroy; ShowResult title v].

(** The run has not seen the flag set. *)
Definition alive (h : list event) : Prop := ~ In (EvRead true) h.

(** The run saw the flag set at the end of [h1], and has since posted
    nothing to the network and the tasks [q] to the presentation thread. *)
Definition cancelled_since (h : list event) (q : list task) : Prop :=
  exists h1 h2, h = h1 ++ EvRead true :: h2 /\ alive h1 /\ posts h2 = [] /\ ui_queue h2 = q.

(** The status text of the streaming loop for [n] characters. *)
Definition progress_text (n : nat) : string :=
  "Receiving response... (" +:+ str_of_nat n +:+ " chars)".

(** The operation does not end with a streaming stage. *)
Definition ends_buffered (op : operation) : bool :=
  match op with ExplainImage _ => true | _ => false end.

(** The selection after a press at [(px, py)] followed by pointer
    motions. *)
Definition dragged {coordinate : Type} (px py : coordinate)
           (motions : list (coordinate * coordinate)) : ScreenSelector.selection coordinate :=
  fold_left (fun s m => ScreenSelector.on_motion coordinate m.1 m.2 s) motions
            (ScreenSelector.on_button_press coordinate px py (ScreenSelector.initial coordinate)).

(** The tasks posted so far are progress updates only. *)
Definition only_updates (h : list event) : Prop := Forall is_update (ui_queue h).

(** The tasks posted are progress updates followed by a closing. *)
Definition updates_then_closing (title : string) (h : list event) : Prop :=
  exists updates q, ui_queue h = updates ++ q /\ Forall is_update updates /\ closing title q.

(** An event that is not a task, or is a progress update. *)
Definition update_event (e : event) : Prop :=
  match e with EvIdle t => is_update t | _ => True end.

(** The run has seen the flag set and has posted nothing since; the flag,
    being one-way, is still set. *)
Definition stopping (env : environment) (h : list event) : Prop :=
  cancelled_since h [] /\ cancelled env (length h) = true.

(** The tasks of a finished run that was not cancelled: progress updates,
    then the destruction of the progress window and the display of what the
    last invocation returned, when that is truthy. [text] tells that the
    value is a non-empty text. *)
Definition displayed (title : string) (text : bool) (h : list event) : Prop :=
  exists updates final,
    last (returned h) = Some final
    /\ ui_queue h
       = updates ++ (if truthy final then [Destroy; ShowResult title final] else [])
    /\ Forall is_update updates
    /\ (text = true -> exists s, final = PStr s /\ s ≠ "").

(** The request of [_explain_image_callback]. *)
Definition explain_image_request `{rt : Runtime} (cfg : config) (img_base64 : string)
  : request :=
  buffered_request cfg (vision_model cfg)
    (with_image
       [user_message
          ("Describe and explain what you see in this image. Provide detailed information. Respond in "
           +:+ default_language cfg +:+ " using Markdown format.")]
       (Some img_base64)).

(** A service that answers every request with the status 300 (Multiple
    Choices) and a well-formed body. *)
Definition multiple_choices_response : response :=
  {| status_code := 300; http_error_msg := "";
     json_result := Some (answer (PStr "bonjour"));
     body_lines := []; lines_error := None |}.

Definition multiple_choices : environment :=
  {| cancel_at := None; network := fun _ _ => PostReturns multiple_choices_response |}.

(** A service that answers every request with an empty result text. *)
Definition answers_nothing : environment :=
  {| cancel_at := None; network := fun _ _ => PostReturns (ok_json (answer (PStr ""))) |}.

(** The state of a key event has Shift (bit 0) and Control (bit 2) set and
    neither Alt (Mod1, bit 3) nor Super (Mod4, bit 6): the four bits the loop
    looks at. *)
Definition chord_held (state : Z) : bool :=
  Z.testbit state 0 && Z.testbit state 2
  && negb (Z.testbit state 3) && negb (Z.testbit state 6).

(** A key press matches a passive grab when its key is the grab's and, of
    the eight modifier bits of its state (Shift, Lock, Control, Mod1 to
    Mod5), exactly the grab's are set; the bits above them are the pointer
    buttons. The X server delivers the press of a grabbed key to the program
    on this condition: with another modifier down (Caps Lock or Num Lock
    included) the press does not reach the loop. *)
Definition matches_grab (e : xevent) (g : Z * Z) : Prop :=
  detail e = g.1 /\ Z.land (state e) 255 = g.2.

(** The keysyms of the built-in table. *)
Definition hotkey_keysyms : list Z := (fun b : binding => b.1.2) <$> HOTKEYS.

(** A configuration file that sets two of the settings and a key that is
    no setting. *)
Definition example_file : Config.file :=
  Config.Object (list_to_map [ ("api_key", PStr "sk-123");
                               ("theme", PStr "dark");
                               ("use_premium", PBool true) ]).






(** * Properties *)

(** ** Strings and the cancellation flag *)

Lemma append_cons (c : ascii) (s t : string) : String c s +:+ t = String c (s +:+ t).
Proof. reflexivity. Qed.

Lemma append_nil_r (s : string) : s +:+ "" = s.
Proof. induction s as [|c s IH]; [reflexivity | by rewrite append_cons, IH]. Qed.

Lemma append_assoc (s1 s2 s3 : string) : (s1 +:+ s2) +:+ s3 = s1 +:+ (s2 +:+ s3).
Proof. induction s1 as [|c s1 IH]; [reflexivity | by rewrite !append_cons, IH]. Qed.

Lemma eqb_empty_false (s : string) : s ≠ "" -> String.eqb s "" = false.
Proof. intros Hs. by apply String.eqb_neq. Qed.

(** The flag is one-way: once set it stays set. *)
Lemma cancelled_mono (env : environment) (t t' : nat) :
  t <= t' -> cancelled env t = true -> cancelled env t' = true.
Proof.
  unfold cancelled. destruct (cancel_at env) as [c|]; [|done].
  intros Hle Hc. apply Nat.leb_le in Hc. apply Nat.leb_le. lia.
Qed.

Lemma never_cancelled (env : environment) (t : nat) :
  cancel_at env = None -> cancelled env t = false.
Proof. unfold cancelled. by intros ->. Qed.

(** ** Events of the streaming loop *)

Ltac run_monad :=
  unfold bind, ret, raise, lift, try_except, emit, idle_add, read_cancelled,
    requests_post, raise_for_status, response_json in *; simpl in *.

Section StreamingFacts.
Context {rt : Runtime} (env : environment).

Lemma stream_result_nonempty (acc : string) :
  exists s, stream_result acc = PStr s /\ s ≠ "".
Proof.
  unfold stream_result. destruct (String.eqb acc "") eqn:E.
  - by eexists.
  - apply String.eqb_neq in E. by eexists.
Qed.

(** A frame adds at most one progress update to the history. *)
Lemma stream_chunk_events (acc p : string) (h : list event) :
  exists evs, snd (stream_chunk acc p h) = h ++ evs /\ Forall (loop_event env) evs
              /\ ~ In (EvRead true) evs.
Proof.
  assert (Hnil : exists evs : list event, h = h ++ evs /\ Forall (loop_event env) evs
                                          /\ ~ In (EvRead true) evs).
  { exists []. rewrite app_nil_r. repeat split; [constructor | intros []]. }
  unfold stream_chunk. run_monad.
  destruct (json_loads p) as [chunk|]; [|exact Hnil].
  destruct (py_in "choices" chunk) as [[]|]; simpl; try exact Hnil.
  - destruct (exc_bind (getitem chunk "choices") py_len) as [n|]; simpl; [|exact Hnil].
    destruct (Nat.ltb 0 n); simpl; [|exact Hnil].
    destruct (exc_bind (exc_bind (getitem chunk "choices") getitem0) _) as [delta|];
      simpl; [|exact Hnil].
    destruct (py_get delta "content" (PStr "")) as [content|]; simpl; [|exact Hnil].
    destruct (truthy content); simpl; [|exact Hnil].
    destruct (py_iadd acc content) as [acc'|]; simpl; [|exact Hnil].
    eexists [_]. split; [reflexivity|]. split.
    + by repeat constructor.
    + intros [H|[]]. discriminate H.
Qed.

(** *** One turn of the loop, case by case *)

Lemma stream_loop_nil (err : option exn) (acc : string) (h : list event) :
  stream_loop env [] err acc h =
  match err with
  | Some e => (Raise e, h)
  | None => (Ok (stream_result acc), h)
  end.
Proof. by destruct err. Qed.

Lemma stream_loop_cancelled line rest err acc h :
  cancelled env (length h) = true ->
  stream_loop env (line :: rest) err acc h = (Ok PNone, h ++ [EvRead true]).
Proof. intros Hc. cbn [stream_loop]. unfold bind, read_cancelled. by rewrite Hc. Qed.

Lemma stream_loop_undecodable rest err acc h :
  cancelled env (length h) = false ->
  stream_loop env (Undecodable :: rest) err acc h
  = (Raise UnicodeDecodeError, h ++ [EvRead false]).
Proof. intros Hc. cbn [stream_loop]. unfold bind, read_cancelled. by rewrite Hc. Qed.

Lemma stream_loop_skip text rest err acc h :
  cancelled env (length h) = false ->
  frame_payload (Line text) = None ->
  stream_loop env (Line text :: rest) err acc h
  = stream_loop env rest err acc (h ++ [EvRead false]).
Proof.
  intros Hc Hp. cbn [stream_loop]. unfold bind, read_cancelled. rewrite Hc.
  destruct text as [|c text]; [done|].
  unfold frame_payload in Hp. by destruct (startswith (String c text) "data: ").
Qed.

Lemma stream_loop_done text rest err acc h :
  cancelled env (length h) = false ->
  is_done (Line text) = true ->
  stream_loop env (Line text :: rest) err acc h
  = (Ok (stream_result acc), h ++ [EvRead false]).
Proof.
  intros Hc Hd. cbn [stream_loop]. unfold bind, read_cancelled. rewrite Hc.
  unfold is_done, frame_payload in Hd.
  destruct text as [|c text]; [done|].
  destruct (startswith (String c text) "data: "); [|done].
  by rewrite Hd.
Qed.

Lemma stream_loop_frame text p rest err acc h :
  cancelled env (length h) = false ->
  frame_payload (Line text) = Some p ->
  is_done (Line text) = false ->
  stream_loop env (Line text :: rest) err acc h
  = (result_text' <- try_except (stream_chunk acc p)
                       (fun e => match e with
                                 | JSONDecodeError => ret acc
                                 | _ => raise e
                                 end) ;;
     stream_loop env rest err result_text') (h ++ [EvRead false]).
Proof.
  intros Hc Hp Hd. cbn [stream_loop]. unfold bind at 1. unfold read_cancelled. rewrite Hc.
  unfold is_done in Hd. rewrite Hp in Hd. unfold frame_payload in Hp.
  destruct text as [|c text]; [done|].
  destruct (startswith (String c text) "data: "); [|done].
  injection Hp as <-. by rewrite Hd.
Qed.

(** The loop extends the history by its own events, and returns [None]
    exactly when one of its reads saw the flag set. *)
Lemma stream_loop_events (lines : list wire_line) (err : option exn) :
  forall (acc : string) (h : list event),
  exists evs, snd (stream_loop env lines err acc h) = h ++ evs
              /\ Forall (loop_event env) evs
              /\ match fst (stream_loop env lines err acc h) with
                 | Ok v => loop_value v evs
                 | Raise _ => ~ In (EvRead true) evs
                 end.
Proof.
  induction lines as [|line rest IH]; intros acc h.
  - exists []. rewrite app_nil_r, stream_loop_nil. destruct err as [e|]; simpl.
    + split; [done|]. split; [constructor | intros []].
    + split; [done|]. split; [constructor|].
      right. destruct (stream_result_nonempty acc) as (s & -> & Hs).
      exists s. repeat split; [done | intros []].
  - destruct (cancelled env (length h)) eqn:Hc.
    { rewrite stream_loop_cancelled by done. exists [EvRead true]. simpl.
      split; [done|]. split; [repeat constructor; by exists (length h)|].
      left. split; [done | by left]. }
    assert (Hlater : forall acc' cevs, Forall (loop_event env) cevs -> ~ In (EvRead true) cevs ->
              exists evs : list event,
                 snd (stream_loop env rest err acc' ((h ++ [EvRead false]) ++ cevs)) = h ++ evs
                 /\ Forall (loop_event env) evs
                 /\ match fst (stream_loop env rest err acc' ((h ++ [EvRead false]) ++ cevs)) with
                    | Ok v => loop_value v evs
                    | Raise _ => ~ In (EvRead true) evs
                    end).
    { intros acc' cevs Hcev Hcin.
      destruct (IH acc' ((h ++ [EvRead false]) ++ cevs)) as (evs & Hh & Hev & Hv).
      exists (EvRead false :: cevs ++ evs). rewrite Hh. split; [by rewrite <- !app_assoc|].
      split; [constructor; [by exists (length h) | by apply Forall_app]|].
      destruct (fst (stream_loop env rest err acc' _)) as [v|e].
      - destruct Hv as [[-> Hin]|(s & -> & Hs & Hin)].
        + left. split; [done|]. right. apply in_or_app. by right.
        + right. exists s. repeat split; [done|].
          intros [H|H]; [discriminate|]. apply in_app_or in H. tauto.
      - intros [H|H]; [discriminate|]. apply in_app_or in H. tauto. }
    assert (Hstop : forall cevs, Forall (loop_event env) cevs -> ~ In (EvRead true) cevs ->
              exists evs : list event,
                (h ++ [EvRead false]) ++ cevs = h ++ evs /\ Forall (loop_event env) evs
                /\ ~ In (EvRead true) evs).
    { intros cevs Hcev Hcin. exists (EvRead false :: cevs). rewrite <- app_assoc.
      split; [done|]. split; [constructor; [by exists (length h) | done]|].
      intros [H|H]; [discriminate | done]. }
    destruct line as [|text].
    { rewrite stream_loop_undecodable by done. simpl.
      specialize (Hstop [] ltac:(constructor) ltac:(intros [])). by rewrite app_nil_r in Hstop. }
    destruct (frame_payload (Line text)) as [p|] eqn:Hp.
    2:{ rewrite stream_loop_skip by done.
        specialize (Hlater acc [] ltac:(constructor) ltac:(intros [])). by rewrite app_nil_r in Hlater. }
    destruct (is_done (Line text)) eqn:Hd.
    { rewrite stream_loop_done by done. simpl.
      destruct (Hstop [] ltac:(constructor) ltac:(intros [])) as (evs & Hh & Hev & Hin).
      rewrite app_nil_r in Hh. exists evs. split; [done|]. split; [done|].
      right. destruct (stream_result_nonempty acc) as (s & -> & Hs). by exists s. }
    rewrite (stream_loop_frame text p) by done.
    unfold bind, try_except.
    destruct (stream_chunk_events acc p (h ++ [EvRead false])) as (cevs & Hch & Hcev & Hcin).
    destruct (stream_chunk acc p (h ++ [EvRead false])) as [[acc'|e] h1] eqn:Hsc;
      simpl in Hch; subst h1.
    + by apply Hlater.
    + destruct e; try (simpl; by apply Hstop).
      unfold ret. by apply Hlater.
Qed.

(** *** What the loop accumulates *)

Lemma stream_chunk_raises (acc p : string) (e : exn) (h : list event) :
  json_loads p = Raise e -> stream_chunk acc p h = (Raise e, h).
Proof. intros Hp. unfold stream_chunk. run_monad. by rewrite Hp. Qed.

(** A chunk that is read adds its content, if it has one. *)
Lemma stream_chunk_readable (acc p : string) (chunk : pyval) (h : list event) :
  json_loads p = Ok chunk -> readable chunk = true ->
  exists evs,
    stream_chunk acc p h = (Ok (acc +:+ default "" (delta_content chunk)), h ++ evs).
Proof.
  intros Hp Hr.
  assert (Hskip : exists evs : list event, (Ok acc, h) = (Ok (acc +:+ ""), h ++ evs)).
  { exists []. by rewrite append_nil_r, app_nil_r. }
  unfold stream_chunk. run_monad. rewrite Hp. simpl.
  destruct chunk as [| | | |s|l|d]; try discriminate Hr; simpl in Hr |- *.
  - destruct (String.index 0 "choices" s); [discriminate Hr | exact Hskip].
  - destruct (existsb _ l); [discriminate Hr | exact Hskip].
  - destruct (d !! "choices") as [choices|] eqn:Hch; simpl; [|exact Hskip].
    destruct choices as [| | | |s|[|choice l]|d']; try discriminate Hr; simpl in Hr |- *.
    + apply String.eqb_eq in Hr as ->. exact Hskip.
    + exact Hskip.
    + destruct choice as [| | | | | |c]; try discriminate Hr; simpl in Hr |- *.
      destruct (c !! "delta") as [delta|] eqn:Hdl; simpl; [|exact Hskip].
      destruct delta as [| | | | | |dl]; try discriminate Hr; simpl in Hr |- *.
      destruct (dl !! "content") as [content|] eqn:Hco; simpl; [|exact Hskip].
      destruct content as [|b|z|f|s|l'|d'']; simpl in Hr |- *;
        try (apply negb_true_iff in Hr; rewrite Hr; exact Hskip).
      * exact Hskip.
      * destruct (String.eqb s "") eqn:E; simpl.
        -- apply String.eqb_eq in E as ->. exact Hskip.
        -- by eexists.
    + apply Nat.eqb_eq in Hr. rewrite Hr. exact Hskip.
Qed.

(** A chunk that is not read makes the loop raise, and not the exception
    the loop catches. *)
Lemma stream_chunk_unreadable (acc p : string) (chunk : pyval) (h : list event) :
  json_loads p = Ok chunk -> readable chunk = false ->
  exists e, stream_chunk acc p h = (Raise e, h) /\ e <> JSONDecodeError.
Proof.
  intros Hp Hr.
  unfold stream_chunk. run_monad. rewrite Hp. simpl.
  destruct chunk as [| | | |s|l|d]; simpl in Hr |- *; try by eexists.
  - destruct (String.index 0 "choices" s); [by eexists | discriminate Hr].
  - destruct (existsb _ l); [by eexists | discriminate Hr].
  - destruct (d !! "choices") as [choices|] eqn:Hch; simpl; [|discriminate Hr].
    destruct choices as [| | | |s|[|choice l]|d']; simpl in Hr |- *;
      try discriminate Hr; try by eexists.
    + destruct s as [|c s]; [discriminate Hr|]. simpl. by eexists.
    + destruct choice as [| | | | | |c]; simpl in Hr |- *; try by eexists.
      destruct (c !! "delta") as [delta|] eqn:Hdl; simpl; [|discriminate Hr].
      destruct delta as [| | | | | |dl]; simpl in Hr |- *; try by eexists.
      destruct (dl !! "content") as [content|] eqn:Hco; simpl; [|discriminate Hr].
      destruct content as [|b|z|f|s|l'|d'']; simpl in Hr |- *; try discriminate Hr;
        apply negb_false_iff in Hr; rewrite Hr; simpl; by eexists.
    + apply Nat.eqb_neq in Hr. destruct (size d') eqn:Hsize; [done|]. simpl. by eexists.
Qed.

Lemma before_done_cons (l : wire_line) (rest : list wire_line) :
  before_done (l :: rest) = if is_done l then [] else l :: before_done rest.
Proof. reflexivity. Qed.

Lemma accumulated_cons (l : wire_line) (rest : list wire_line) :
  accumulated (l :: rest) = if is_done l then "" else frame_text l +:+ accumulated rest.
Proof. unfold accumulated. rewrite before_done_cons. by destruct (is_done l). Qed.

Lemma completes_cons (l : wire_line) (rest : list wire_line) (err : option exn) :
  is_done l = false ->
  completes (l :: rest) err <-> accepted l = true /\ completes rest err.
Proof.
  intros Hd. unfold completes. rewrite before_done_cons, Hd, Forall_cons, Exists_cons.
  split.
  - intros [[Hl Hrest] [He|[Hl'|He]]]; [by auto | congruence | by auto].
  - intros [Hl [Hrest [He|He]]]; auto.
Qed.

Lemma completes_done (l : wire_line) (rest : list wire_line) (err : option exn) :
  is_done l = true -> completes (l :: rest) err.
Proof.
  intros Hd. unfold completes. rewrite before_done_cons, Hd.
  split; [constructor|]. right. by constructor.
Qed.

(** What the handler of the inner [try] does with an exception that is not
    [JSONDecodeError]. *)
Lemma inner_handler_raises (acc : string) (e : exn) :
  e <> JSONDecodeError ->
  match e with
  | JSONDecodeError => ret acc
  | _ => raise e
  end = (raise e : M string).
Proof. by destruct e. Qed.

(** One turn of the loop on a line that is accepted and is not the end. *)
Lemma stream_loop_accepted line rest err acc h :
  cancelled env (length h) = false ->
  is_done line = false -> accepted line = true ->
  exists evs,
    stream_loop env (line :: rest) err acc h
    = stream_loop env rest err (acc +:+ frame_text line) ((h ++ [EvRead false]) ++ evs).
Proof.
  intros Hc Hd Ha. destruct line as [|text]; [discriminate Ha|].
  destruct (frame_payload (Line text)) as [p|] eqn:Hp.
  2:{ rewrite stream_loop_skip by done. exists [].
      unfold frame_text. rewrite Hp. by rewrite append_nil_r, app_nil_r. }
  rewrite (stream_loop_frame text p) by done.
  unfold accepted in Ha. rewrite Hp in Ha. unfold frame_text. rewrite Hp.
  unfold bind, try_except.
  destruct (json_loads p) as [chunk|e] eqn:Hj.
  - destruct (stream_chunk_readable acc p chunk (h ++ [EvRead false]) Hj Ha) as (evs & ->).
    by exists evs.
  - rewrite (stream_chunk_raises acc p e) by done.
    destruct e; try discriminate Ha. exists []. unfold ret.
    by rewrite append_nil_r, app_nil_r.
Qed.

(** One turn of the loop on a line that is not accepted. *)
Lemma stream_loop_rejected line rest err acc h :
  cancelled env (length h) = false ->
  is_done line = false -> accepted line = false ->
  exists e, fst (stream_loop env (line :: rest) err acc h) = Raise e.
Proof.
  intros Hc Hd Ha. destruct line as [|text].
  { rewrite stream_loop_undecodable by done. by eexists. }
  destruct (frame_payload (Line text)) as [p|] eqn:Hp.
  2:{ unfold accepted in Ha. by rewrite Hp in Ha. }
  rewrite (stream_loop_frame text p) by done.
  unfold accepted in Ha. rewrite Hp in Ha.
  unfold bind, try_except.
  destruct (json_loads p) as [chunk|e] eqn:Hj.
  - destruct (stream_chunk_unreadable acc p chunk (h ++ [EvRead false]) Hj Ha)
      as (e & -> & He).
    rewrite inner_handler_raises by done. by exists e.
  - rewrite (stream_chunk_raises acc p e) by done.
    rewrite inner_handler_raises by (by intros ->). by exists e.
Qed.

(** On a stream that is read to its end, the loop returns [None] or the
    accumulated text, the sentinel standing for an empty one. *)
Lemma stream_loop_accumulates (lines : list wire_line) (err : option exn) :
  completes lines err ->
  forall (acc : string) (h : list event),
    fst (stream_loop env lines err acc h) = Ok PNone \/
    fst (stream_loop env lines err acc h) = Ok (stream_result (acc +:+ accumulated lines)).
Proof.
  induction lines as [|line rest IH]; intros Hacc acc h.
  - right. rewrite stream_loop_nil. unfold accumulated. simpl. rewrite append_nil_r.
    destruct Hacc as [_ [->|He]]; [done | by inversion He].
  - destruct (cancelled env (length h)) eqn:Hc.
    { left. by rewrite stream_loop_cancelled. }
    rewrite accumulated_cons.
    destruct (is_done line) eqn:Hd.
    { right. destruct line as [|text]; [done|].
      rewrite stream_loop_done by done. simpl. by rewrite append_nil_r. }
    apply completes_cons in Hacc as [Ha Hrest]; [|done].
    destruct (stream_loop_accepted line rest err acc h Hc Hd Ha) as (evs & ->).
    rewrite <- append_assoc. by apply IH.
Qed.

(** On a stream that is not read to its end and is not cancelled, the loop
    raises. *)
Lemma stream_loop_breaks (lines : list wire_line) (err : option exn) :
  cancel_at env = None ->
  ~ completes lines err ->
  forall (acc : string) (h : list event),
    exists e, fst (stream_loop env lines err acc h) = Raise e.
Proof.
  intros Hnever. induction lines as [|line rest IH]; intros Hbreak acc h.
  - rewrite stream_loop_nil. destruct err as [e|]; [by exists e|].
    destruct Hbreak. split; [constructor | by left].
  - assert (Hc : cancelled env (length h) = false) by by apply never_cancelled.
    destruct (is_done line) eqn:Hd.
    { destruct Hbreak. by apply completes_done. }
    destruct (accepted line) eqn:Ha.
    + destruct (stream_loop_accepted line rest err acc h Hc Hd Ha) as (evs & ->).
      apply IH. intros Hrest. apply Hbreak. by apply completes_cons.
    + by apply stream_loop_rejected.
Qed.

(** The text of a failure is never empty. *)
Lemma error_text_nonempty (s : string) : "Error: " +:+ s ≠ "".
Proof. by rewrite append_cons. Qed.

(** The history of one streaming invocation: the request, the events of
    the loop, and the return. *)
Lemma call_llm_streaming_history cfg model messages image_base64 (h : list event) :
  exists v evs,
    call_llm_streaming cfg env model messages image_base64 h
    = (Ok v, h ++ EvPost (streaming_request cfg model messages) :: evs ++ [EvReturned v])
    /\ Forall (loop_event env) evs /\ loop_value v evs.
Proof.
  assert (Herr : forall s, loop_value (PStr ("Error: " +:+ s)) []).
  { intros s. right. eexists. split; [done|]. split; [apply error_text_nonempty | intros []]. }
  unfold call_llm_streaming. unfold bind at 1. unfold try_except.
  unfold bind at 1. unfold requests_post.
  destruct (network env (length (posts h)) (streaming_request cfg model messages))
    as [e|resp] eqn:Hnet.
  - destruct e; run_monad; eexists _, []; (split; [by rewrite <- !app_assoc|]);
      (split; [constructor|]); apply Herr.
  - unfold bind at 1. unfold raise_for_status.
    destruct (status_error resp) as [m|].
    + run_monad. eexists _, []. split; [by rewrite <- !app_assoc|].
      split; [constructor | apply Herr].
    + unfold ret at 1.
      destruct (stream_loop_events (body_lines resp) (lines_error resp) ""
                  (h ++ [EvPost (streaming_request cfg model messages)]))
        as (evs & Hh & Hev & Hv).
      destruct (stream_loop env (body_lines resp) (lines_error resp) "" _) as [[v|e] h1];
        simpl in Hh, Hv; subst h1.
      * run_monad. exists v, evs. split; [by rewrite <- !app_assoc|]. done.
      * assert (Hs : exists s, match e with
                                 | Timeout _ => ret (PStr "Error: Connection timeout")
                                 | _ => ret (PStr ("Error: " +:+ str_exn e))
                                 end = ret (PStr ("Error: " +:+ s))).
        { destruct e; by eexists. }
        destruct Hs as [s ->]. exists (PStr ("Error: " +:+ s)), evs.
        split; [run_monad; by rewrite <- !app_assoc|]. split; [done|].
        right. eexists. split; [done|]. split; [apply error_text_nonempty | done].
Qed.

(** With a success status and a stream that is read to its end, the
    invocation returns [None] or the accumulated text. *)
Lemma call_llm_streaming_accumulates cfg model messages image_base64 h resp :
  network env (length (posts h)) (streaming_request cfg model messages) = PostReturns resp ->
  status_error resp = None ->
  completes (body_lines resp) (lines_error resp) ->
  fst (call_llm_streaming cfg env model messages image_base64 h) = Ok PNone \/
  fst (call_llm_streaming cfg env model messages image_base64 h)
  = Ok (stream_result (accumulated (body_lines resp))).
Proof.
  intros Hnet Hst Hacc.
  unfold call_llm_streaming, bind, try_except, requests_post, raise_for_status, ret, emit.
  rewrite Hnet, Hst.
  destruct (stream_loop_accumulates (body_lines resp) (lines_error resp) Hacc ""
              (h ++ [EvPost (streaming_request cfg model messages)])) as [H|H];
    destruct (stream_loop env (body_lines resp) (lines_error resp) "" _) as [r h1];
    simpl in H; subst r; [left | right]; done.
Qed.

(** What the handlers of the outer [try] return for an exception. *)
Lemma outer_handler_returns (e : exn) :
  match e with
  | Timeout _ => ret (PStr "Error: Connection timeout")
  | _ => ret (PStr ("Error: " +:+ str_exn e))
  end = (ret (PStr (streaming_failure_text e)) : M pyval).
Proof. by destruct e. Qed.

(** The failures of a streaming invocation: the transport raises, *)
Lemma call_llm_streaming_transport cfg model messages image_base64 h e :
  network env (length (posts h)) (streaming_request cfg model messages) = PostRaises e ->
  fst (call_llm_streaming cfg env model messages image_base64 h)
  = Ok (PStr (streaming_failure_text e)).
Proof.
  intros Hnet. unfold call_llm_streaming. unfold bind at 1. unfold try_except.
  unfold bind at 1. unfold requests_post. rewrite Hnet.
  by rewrite outer_handler_returns.
Qed.

(** the status is a client or server error, *)
Lemma call_llm_streaming_status cfg model messages image_base64 h resp m :
  network env (length (posts h)) (streaming_request cfg model messages) = PostReturns resp ->
  status_error resp = Some m ->
  fst (call_llm_streaming cfg env model messages image_base64 h)
  = Ok (PStr (streaming_failure_text (HTTPError m))).
Proof.
  intros Hnet Hst. unfold call_llm_streaming. unfold bind at 1. unfold try_except.
  unfold bind at 1. unfold requests_post. rewrite Hnet.
  unfold bind at 1. unfold raise_for_status. by rewrite Hst.
Qed.

(** or the stream is not read to its end: what was accumulated is dropped. *)
Lemma call_llm_streaming_breaks cfg model messages image_base64 h resp :
  cancel_at env = None ->
  network env (length (posts h)) (streaming_request cfg model messages) = PostReturns resp ->
  status_error resp = None ->
  ~ completes (body_lines resp) (lines_error resp) ->
  exists e, fst (call_llm_streaming cfg env model messages image_base64 h)
            = Ok (PStr (streaming_failure_text e)).
Proof.
  intros Hnever Hnet Hst Hbreak. unfold call_llm_streaming. unfold bind at 1.
  unfold try_except. unfold bind at 1. unfold requests_post. rewrite Hnet.
  unfold bind at 1. unfold raise_for_status. rewrite Hst. unfold ret at 1.
  destruct (stream_loop_breaks (body_lines resp) (lines_error resp) Hnever Hbreak ""
              (h ++ [EvPost (streaming_request cfg model messages)])) as [e He].
  destruct (stream_loop env (body_lines resp) (lines_error resp) "" _) as [r h1].
  simpl in He. subst r. exists e. by rewrite outer_handler_returns.
Qed.

(** A run that is never cancelled reads the flag unset every time. *)
Lemma loop_events_never_cancelled (evs : list event) :
  cancel_at env = None -> Forall (loop_event env) evs -> ~ In (EvRead true) evs.
Proof.
  intros Hnever Hev Hin. rewrite Forall_forall in Hev.
  apply list_elem_of_In in Hin. destruct (Hev _ Hin) as [t Ht].
  by rewrite never_cancelled in Ht.
Qed.

End StreamingFacts.


(** ** The streaming invocation *)

(** C4 (as amended). For every finite sequence of streaming response
    lines, a streaming invocation that gets a success status and is not
    cancelled returns the concatenation, in arrival order, of the
    [choices[0].delta.content] fields of the well-formed frames that precede
    the first frame whose payload, surrounding whitespace apart, is the token
    [[DONE]] -- when that concatenation is non-empty; when it is empty the
    invocation returns the text [No response received]. Frames after
    [[DONE]] contribute nothing; blank lines, lines that are not frames,
    frames that are not valid JSON and frames whose JSON value has no text at
    [choices[0].delta.content] (no choices, an empty list of choices, no
    delta, no content, a [null] or empty content) are skipped. Only a line
    before [[DONE]] on which the loop raises -- bytes that are not UTF-8, a
    parser failure other than a syntax error, a JSON value of another shape
    -- or a transport that fails before [[DONE]] ends the invocation
    otherwise: it then returns the text [Error: ...] of that failure. *)
Theorem streaming_returns_accumulated_text `{rt : Runtime}
    (cfg : config) (env : environment) (model : string) (messages : list message)
    (image_base64 : option string) (h : list event) (resp : response) :
  cancel_at env = None ->
  network env (length (posts h)) (streaming_request cfg model messages) = PostReturns resp ->
  status_error resp = None ->
  (completes (body_lines resp) (lines_error resp) ->
   fst (call_llm_streaming cfg env model messages image_base64 h)
   = Ok (PStr (if String.eqb (accumulated (body_lines resp)) ""
               then "No response received"
               else accumulated (body_lines resp))))
  /\ (~ completes (body_lines resp) (lines_error resp) ->
      exists e, fst (call_llm_streaming cfg env model messages image_base64 h)
                = Ok (PStr (streaming_failure_text e))).
Proof.
  intros Hnever Hnet Hst. split.
  - intros Hacc.
    destruct (call_llm_streaming_accumulates env cfg model messages image_base64 h resp
                Hnet Hst Hacc) as [Hnone|Hres]; [|exact Hres].
    destruct (call_llm_streaming_history env cfg model messages image_base64 h)
      as (v & evs & Hrun & Hev & Hv).
    rewrite Hrun in Hnone. simpl in Hnone. injection Hnone as ->.
    destruct Hv as [[_ Hin]|(s & Hs & _)]; [|discriminate Hs].
    by destruct (loop_events_never_cancelled env evs Hnever Hev).
  - intros Hbreak.
    by apply (call_llm_streaming_breaks env cfg model messages image_base64 h resp).
Qed.

(** The example of the specification: frames carrying [ab] and [cd], then
    [[DONE]], yield [abcd]. *)
Lemma streaming_abcd :
  fst (@call_llm_streaming example_runtime example_config
         {| cancel_at := None;
            network := fun _ _ => PostReturns (ok_lines
              [ Line ("data: " +:+ chunk_text "ab");
                Line ("data: " +:+ chunk_text "cd");
                Line "data: [DONE]" ]) |}
         "deepseek-ai/deepseek-v3.2-exp" [user_message "hello"] None [])
  = Ok (PStr "abcd").
Proof.
  apply (proj1 (@streaming_returns_accumulated_text example_runtime example_config
           {| cancel_at := None;
              network := fun _ _ => PostReturns (ok_lines
                [ Line ("data: " +:+ chunk_text "ab");
                  Line ("data: " +:+ chunk_text "cd");
                  Line "data: [DONE]" ]) |}
           "deepseek-ai/deepseek-v3.2-exp" [user_message "hello"] None [] _
           eq_refl eq_refl eq_refl)).
  split; [|by left]. vm_compute. repeat constructor.
Defined.

(** The same answer as a service sends it, with a closing chunk whose delta
    is empty and a line that is no frame: the closing chunk adds nothing. *)
Lemma streaming_abcd_with_closing_chunk :
  fst (@call_llm_streaming example_runtime example_config
         {| cancel_at := None;
            network := fun _ _ => PostReturns (ok_lines
              [ Line ("data: " +:+ chunk_text "ab");
                Line ": keep-alive";
                Line ("data: " +:+ chunk_text "cd");
                Line ("data: " +:+ finish_text);
                Line "data: [DONE]" ]) |}
         "deepseek-ai/deepseek-v3.2-exp" [user_message "hello"] None [])
  = Ok (PStr "abcd").
Proof. vm_compute. reflexivity. Qed.

(** C4, as stated, fails: when nothing precedes [[DONE]] the concatenation
    is empty, and the invocation returns [No response received] instead. *)
Lemma streaming_done_only_returns_sentinel :
  let env := {| cancel_at := None;
                network := fun _ _ => PostReturns (ok_lines [Line "data: [DONE]"]) |} in
  let result := fst (@call_llm_streaming example_runtime example_config env
                       "deepseek-ai/deepseek-v3.2-exp" [user_message "hello"] None []) in
  result = Ok (PStr "No response received")
  /\ @accumulated example_runtime [Line "data: [DONE]"] = ""
  /\ result <> Ok (PStr (@accumulated example_runtime [Line "data: [DONE]"])).
Proof. vm_compute. repeat split. discriminate. Qed.

(** A frame that is valid JSON but not an object is not skipped: the
    membership test on it raises, and the invocation ends with the text of
    that failure, whatever was accumulated before. *)
Lemma streaming_non_object_frame_aborts `{rt : Runtime}
    (cfg : config) (net : nat -> request -> post_outcome) (model : string)
    (messages : list message) (rest : list wire_line) :
  json_loads "5" = Ok (PInt 5) ->
  net 0 (streaming_request cfg model messages)
  = PostReturns (ok_lines (Line "data: 5" :: rest)) ->
  fst (call_llm_streaming cfg {| cancel_at := None; network := net |} model messages None [])
  = Ok (PStr ("Error: " +:+ str_exn (TypeError "in" (PInt 5)))).
Proof.
  intros Hloads Hnet.
  unfold call_llm_streaming, bind, try_except, requests_post, raise_for_status, ret, emit.
  change (length (posts [])) with 0. cbn [network]. rewrite Hnet.
  change (status_error (ok_lines (Line "data: 5" :: rest))) with (@None string).
  cbn [ok_lines body_lines lines_error].
  rewrite (stream_loop_frame _ "data: 5" "5") by done.
  unfold bind, try_except, stream_chunk, bind, lift. by rewrite Hloads.
Qed.

(** C10. A streaming invocation always returns, and never the empty string:
    it returns [None] exactly when one of the reads of the cancellation flag
    between deltas saw it set; otherwise it returns a non-empty text, which is
    the sentinel [No response received] when the stream was read to its end
    -- whatever frames without content it carried -- without any delta
    content accumulated. *)
Theorem streaming_return_value `{rt : Runtime}
    (cfg : config) (env : environment) (model : string) (messages : list message)
    (image_base64 : option string) (h : list event) :
  exists v evs,
    call_llm_streaming cfg env model messages image_base64 h = (Ok v, h ++ evs)
    /\ (v = PNone <-> In (EvRead true) evs)
    /\ v <> PStr ""
    /\ (forall resp,
          network env (length (posts h)) (streaming_request cfg model messages)
          = PostReturns resp ->
          status_error resp = None ->
          completes (body_lines resp) (lines_error resp) ->
          accumulated (body_lines resp) = "" ->
          v <> PNone ->
          v = PStr "No response received").
Proof.
  destruct (call_llm_streaming_history env cfg model messages image_base64 h)
    as (v & evs & Hrun & Hev & Hv).
  exists v, (EvPost (streaming_request cfg model messages) :: evs ++ [EvReturned v]).
  split; [exact Hrun|].
  assert (Hin : In (EvRead true)
                  (EvPost (streaming_request cfg model messages) :: evs ++ [EvReturned v])
                <-> In (EvRead true) evs).
  { split.
    - intros [H|H]; [discriminate|]. apply in_app_or in H as [H|[H|[]]]; [done | discriminate].
    - intros H. right. apply in_or_app. by left. }
  split; [|split].
  - rewrite Hin. destruct Hv as [[-> Hr]|(s & -> & Hs & Hr)]; split; try done.
  - destruct Hv as [[-> _]|(s & -> & Hs & _)]; [done|]. intros [= ->]. done.
  - intros resp Hnet Hst Hacc Hempty Hsome.
    destruct (call_llm_streaming_accumulates env cfg model messages image_base64 h resp
                Hnet Hst Hacc) as [H|H];
      rewrite Hrun in H; simpl in H; injection H as ->; [done|].
    by rewrite Hempty.
Qed.

(** ** The buffered invocation *)

(** [raise_for_status] raises exactly on the statuses 400 to 599. *)
Lemma status_error_range (resp : response) :
  is_Some (status_error resp) <-> 400 <= status_code resp < 600.
Proof.
  unfold status_error.
  destruct (Nat.leb_spec 400 (status_code resp)), (Nat.ltb_spec (status_code resp) 600);
    simpl; split; try lia; try (by intros [? [=]]); by eexists.
Qed.

Section BufferedFacts.
Context {rt : Runtime} (cfg : config) (env : environment).

Lemma attach_image_cons (m : message) (rest : list message) (image_base64 : option string) :
  attach_image (m :: rest) image_base64 = ret (with_image (m :: rest) image_base64).
Proof. by destruct image_base64 as [[|c b]|]. Qed.

(** Reading [result['choices'][0]['message']['content']] succeeds exactly
    when the body has a result text. *)
Lemma read_message_content (body : pyval) :
  exc_bind (exc_bind (exc_bind (getitem body "choices") getitem0)
                     (fun c => getitem c "message"))
           (fun m => getitem m "content")
  = match message_content body with
    | Some v => Ok v
    | None => exc_bind (exc_bind (exc_bind (getitem body "choices") getitem0)
                                 (fun c => getitem c "message"))
                       (fun m => getitem m "content")
    end
  /\ (message_content body = None ->
      exists e, exc_bind (exc_bind (exc_bind (getitem body "choices") getitem0)
                                   (fun c => getitem c "message"))
                         (fun m => getitem m "content") = Raise e).
Proof.
  unfold message_content.
  destruct body as [| | | | |?|d]; simpl; try (split; [done | by eexists]).
  destruct (d !! "choices") as [choices|]; simpl; [|split; [done | by eexists]].
  destruct choices as [| | | |[|? ?]|[|first ?]|?]; simpl; try (split; [done | by eexists]).
  destruct first as [| | | | |?|c]; simpl; try (split; [done | by eexists]).
  destruct (c !! "message") as [msg|]; simpl; [|split; [done | by eexists]].
  destruct msg as [| | | | |?|m]; simpl; try (split; [done | by eexists]).
  destruct (m !! "content") as [v|]; simpl; split; try done. by eexists.
Qed.

(** The history of one buffered invocation: the request and the return. *)
Lemma call_llm_history model (m : message) (rest : list message) image_base64 (h : list event) :
  exists v,
    call_llm cfg env model (m :: rest) image_base64 h
    = (Ok v, h ++ [EvPost (buffered_request cfg model (with_image (m :: rest) image_base64));
                   EvReturned v])
    /\ (buffered_failure (network env (length (posts h))
                            (buffered_request cfg model (with_image (m :: rest) image_base64)))
        -> failure_value v)
    /\ (forall resp body c,
          network env (length (posts h))
            (buffered_request cfg model (with_image (m :: rest) image_base64))
          = PostReturns resp ->
          status_error resp = None -> json_result resp = Some body ->
          message_content body = Some c -> v = c).
Proof.
  unfold call_llm. rewrite attach_image_cons.
  unfold bind, try_except, requests_post, raise_for_status, response_json, emit, lift,
    raise, ret.
  set (req := buffered_request cfg model (with_image (m :: rest) image_base64)).
  destruct (network env (length (posts h)) req) as [e|resp].
  { eexists. split; [by rewrite <- app_assoc|]. split; [intros _; by eexists | done]. }
  destruct (status_error resp) as [msg|] eqn:Hst.
  { eexists. split; [by rewrite <- app_assoc|]. split; [intros _; by eexists|].
    intros ? ? ? [= <-]. congruence. }
  destruct (json_result resp) as [body|] eqn:Hj.
  2:{ eexists. split; [by rewrite <- app_assoc|]. split; [intros _; by eexists|].
      intros ? ? ? [= <-]. congruence. }
  destruct (read_message_content body) as [Hsome Hnone].
  destruct (message_content body) as [c|] eqn:Hc.
  - rewrite Hsome. exists c. split; [by rewrite <- app_assoc|]. split.
    + simpl. rewrite Hj, Hc. intros [Hrange|[=]].
      apply status_error_range in Hrange. rewrite Hst in Hrange. by destruct Hrange.
    + intros ? ? ? [= <-] _ Hj' Hc'. congruence.
  - destruct (Hnone eq_refl) as [e ->].
    eexists. split; [by rewrite <- app_assoc|]. split; [intros _; by eexists|].
    intros ? ? ? [= <-] _ Hj' Hc'. congruence.
Qed.

End BufferedFacts.

(** C6 (as amended). Every buffered invocation with at least one message
    (each invocation of the program passes one) returns a value to its
    caller: whatever the transport does, no exception leaves [call_llm]. When
    the transport times out or fails, the response has a client or server
    error status (400 to 599), or the body is malformed, the value returned
    is the failure text [Error: ...]. Any other status is taken for a
    success, also outside 200 to 299: the result text of a well-formed body
    is returned as it is. *)
Theorem buffered_failure_is_returned `{rt : Runtime}
    (cfg : config) (env : environment) (model : string)
    (m : message) (rest : list message) (image_base64 : option string) (h : list event) :
  exists v h',
    call_llm cfg env model (m :: rest) image_base64 h = (Ok v, h')
    /\ (buffered_failure
          (network env (length (posts h))
             (buffered_request cfg model (with_image (m :: rest) image_base64)))
        -> failure_value v)
    /\ (forall resp body c,
          network env (length (posts h))
            (buffered_request cfg model (with_image (m :: rest) image_base64))
          = PostReturns resp ->
          ~ 400 <= status_code resp < 600 ->
          json_result resp = Some body ->
          message_content body = Some c ->
          v = c).
Proof.
  destruct (call_llm_history cfg env model m rest image_base64 h)
    as (v & Hrun & Hfail & Hok).
  exists v. eexists. split; [exact Hrun|]. split; [exact Hfail|].
  intros resp body c Hnet Hstatus. apply Hok; [done|].
  destruct (status_error resp) as [msg|] eqn:Hst; [|done].
  destruct Hstatus. apply status_error_range. rewrite Hst. by eexists.
Qed.

(** C6, as stated, fails: a status that is neither a success nor an error
    -- 300, with the choices in a well-formed body -- is not a 2xx status, yet
    the invocation returns the result text of the body, not a failure. *)
Lemma redirect_status_is_returned_as_success :
  network multiple_choices 0
    (buffered_request example_config "zai-org/GLM-4.5V-FP8" [user_message "hello"])
  = PostReturns multiple_choices_response
  /\ status_code multiple_choices_response = 300
  /\ fst (@call_llm example_runtime example_config multiple_choices
            "zai-org/GLM-4.5V-FP8" [user_message "hello"] None [])
     = Ok (PStr "bonjour")
  /\ ~ @failure_value example_runtime (PStr "bonjour").
Proof.
  split; [reflexivity|]. split; [reflexivity|]. split; [vm_compute; reflexivity|].
  intros [e He]. discriminate He.
Qed.

(** The image is attached to the first message before the [try]: with an
    image and no message at all, the [IndexError] leaves the routine. *)
Lemma call_llm_without_message_raises `{rt : Runtime}
    (cfg : config) (env : environment) (model : string)
    (c : ascii) (b64 : string) (h : list event) :
  call_llm cfg env model [] (Some (String c b64)) h = (Raise IndexError, h).
Proof. reflexivity. Qed.

(** A body with a result text is not a failure: the text is returned as it
    is, also when it is not a string ([null] comes back as [None]). *)
Lemma buffered_content_is_returned `{rt : Runtime}
    (cfg : config) (env : environment) (model : string)
    (m : message) (image_base64 : option string) (h : list event) (c : pyval) :
  network env (length (posts h)) (buffered_request cfg model (with_image [m] image_base64))
  = PostReturns (ok_json (answer c)) ->
  fst (call_llm cfg env model [m] image_base64 h) = Ok c.
Proof.
  intros Hnet.
  destruct (call_llm_history cfg env model m [] image_base64 h) as (v & Hrun & _ & Hok).
  rewrite Hrun. simpl. f_equal. by apply (Hok (ok_json (answer c)) (answer c) c).
Qed.

(** ** Runs of the pipelines *)

Lemma triple_bind {A B} P (m : M A) (f : A -> M B) R Q :
  triple P m R -> (forall a, triple (R a) (f a) Q) -> triple P (bind m f) Q.
Proof.
  intros Hm Hf h HP. destruct (Hm h HP) as (a & h' & Hrun & HR).
  unfold bind. rewrite Hrun. by apply Hf.
Qed.

Lemma triple_weaken {A} P (m : M A) (Q Q' : A -> list event -> Prop) :
  triple P m Q -> (forall a h, Q a h -> Q' a h) -> triple P m Q'.
Proof.
  intros Hm HQ h HP. destruct (Hm h HP) as (a & h' & Hrun & Hq).
  exists a, h'. split; [done | by apply HQ].
Qed.

Lemma no_result_app (h evs : list event) :
  no_result h -> Forall (fun e => ~ is_result e) evs -> no_result (h ++ evs).
Proof.
  intros Hh Hevs title text Hin. apply in_app_or in Hin as [Hin|Hin].
  - by apply (Hh title text).
  - rewrite Forall_forall in Hevs. apply list_elem_of_In in Hin.
    by apply (Hevs _ Hin).
Qed.

Lemma loop_event_not_result env (evs : list event) :
  Forall (loop_event env) evs -> Forall (fun e => ~ is_result e) evs.
Proof.
  intros H. eapply Forall_impl; [exact H|]. intros [| | |[]| |]; simpl; tauto.
Qed.

Ltac not_results :=
  repeat (apply List.Forall_cons; [simpl; tauto|]); apply List.Forall_nil.

Section PipelineFacts.
Context {rt : Runtime} (cfg : config) (env : environment).

Lemma emit_quiet (e : event) :
  ~ is_result e -> triple no_result (emit e) (fun _ => no_result).
Proof.
  intros He h Hh. exists tt, (h ++ [e]). split; [done|].
  apply no_result_app; [done | not_results].
Qed.

Lemma idle_add_quiet (t : task) :
  ~ is_result (EvIdle t) -> triple no_result (idle_add t) (fun _ => no_result).
Proof. apply emit_quiet. Qed.

Lemma read_cancelled_quiet :
  triple no_result (read_cancelled env) (fun _ => no_result).
Proof.
  intros h Hh. eexists _, _. split; [reflexivity|].
  apply no_result_app; [done | not_results].
Qed.

Lemma call_llm_quiet model (m : message) (rest : list message) image_base64 :
  triple no_result (call_llm cfg env model (m :: rest) image_base64) (fun _ => no_result).
Proof.
  intros h Hh. destruct (call_llm_history cfg env model m rest image_base64 h) as (v & Hrun & _).
  eexists _, _. split; [exact Hrun|].
  apply no_result_app; [done | not_results].
Qed.

Lemma call_llm_streaming_quiet model messages image_base64 :
  triple no_result (call_llm_streaming cfg env model messages image_base64)
         (fun _ => no_result).
Proof.
  intros h Hh.
  destruct (call_llm_streaming_history env cfg model messages image_base64 h)
    as (v & evs & Hrun & Hev & _).
  eexists _, _. split; [exact Hrun|].
  apply no_result_app; [done|]. constructor; [simpl; tauto|].
  apply Forall_app. split; [by eapply loop_event_not_result | not_results].
Qed.

(** The closing block hands over a result only after reading the flag
    unset. *)
Lemma deliver_checked (title : string) (result : pyval) :
  triple no_result (deliver env title result)
         (fun _ h => no_result h \/ delivered env h).
Proof.
  intros h Hh. unfold deliver, bind, read_cancelled, idle_add, emit, ret.
  destruct (cancelled env (length h)) eqn:Hc; simpl.
  - destruct (cancelled env (length (h ++ [EvRead true]))); eexists _, _;
      (split; [reflexivity|]); left;
      repeat (apply no_result_app; [|not_results]); done.
  - destruct (truthy result); simpl.
    + eexists _, _. split; [reflexivity|]. right.
      exists h, title, result. by rewrite <- !app_assoc.
    + destruct (cancelled env (length (h ++ [EvRead false]))); eexists _, _;
        (split; [reflexivity|]); left;
        repeat (apply no_result_app; [|not_results]); done.
Qed.

Lemma destroy_checked :
  triple no_result (idle_add Destroy) (fun _ h => no_result h \/ delivered env h).
Proof.
  eapply triple_weaken; [apply idle_add_quiet; simpl; tauto | intros; by left].
Qed.

Ltac pipeline :=
  repeat first
    [ apply deliver_checked
    | apply destroy_checked
    | eapply triple_bind;
      [ first [ apply emit_quiet; simpl; tauto
              | apply idle_add_quiet; simpl; tauto
              | apply read_cancelled_quiet
              | apply call_llm_quiet
              | apply call_llm_streaming_quiet ]
      | intros ? ]
    | match goal with |- triple _ (if ?c then _ else _) _ => destruct c end ].

(** Every run returns normally, and hands over a result only at its very
    end, after reading the flag unset. *)
Lemma run_checked (op : operation) :
  triple no_result (run cfg env op) (fun _ h => no_result h \/ delivered env h).
Proof.
  destruct op; simpl;
    unfold _process_translate, _process_explain, _ocr_translate_callback,
      _explain_image_callback, _ocr_explain_callback, _process_query_image,
      _process_query_text;
    pipeline.
Qed.

End PipelineFacts.

(** C2. In every run of every operation, if the cancellation flag is set at
    the moment the result of a stage's invocation becomes available -- which
    includes a result that arrives after Cancel was pressed during the call --
    then no result is ever handed to the presentation thread for display. *)
Theorem cancelled_result_is_discarded `{rt : Runtime}
    (cfg : config) (env : environment) (op : operation) (t : nat) (v : pyval) :
  snd (run cfg env op []) !! t = Some (EvReturned v) ->
  cancelled env t = true ->
  forall title text, ~ In (EvIdle (ShowResult title text)) (snd (run cfg env op [])).
Proof.
  intros Hret Hset.
  destruct (run_checked cfg env op [] ltac:(by intros ? ? [])) as (a & h & Hrun & Hh).
  rewrite Hrun in *. simpl in *.
  destruct Hh as [Hno|(h0 & title & text & -> & Hunset & _)]; [exact Hno|].
  exfalso. destruct (decide (t < length h0)) as [Hlt|Hge].
  - rewrite (cancelled_mono env t (length h0)) in Hunset; [done | lia | done].
  - rewrite lookup_app_r in Hret by lia.
    destruct (t - length h0) as [|[|[|n]]]; simpl in Hret; discriminate.
Qed.

(** Cancel pressed while the vision request is in flight: the answer that
    arrives afterwards is not shown. *)
Lemma late_answer_is_not_shown :
  ~ In (EvIdle (ShowResult "Image Analysis" (PStr "a cat")))
      (snd (@run example_runtime example_config
              {| cancel_at := Some 4;
                 network := fun _ _ => PostReturns (ok_json (answer (PStr "a cat"))) |}
              (ExplainImage "iVBORw0KGgo=") [])).
Proof.
  apply (@cancelled_result_is_discarded example_runtime example_config
           {| cancel_at := Some 4;
              network := fun _ _ => PostReturns (ok_json (answer (PStr "a cat"))) |}
           (ExplainImage "iVBORw0KGgo=") 4 (PStr "a cat")).
  - vm_compute. reflexivity.
  - vm_compute. reflexivity.
Defined.

(** ** The requests and the tasks of a history *)

Lemma posts_app (h1 h2 : list event) : posts (h1 ++ h2) = posts h1 ++ posts h2.
Proof. apply omap_app. Qed.

Lemma ui_queue_app (h1 h2 : list event) : ui_queue (h1 ++ h2) = ui_queue h1 ++ ui_queue h2.
Proof. apply omap_app. Qed.

(** ** Failures inside a multi-stage run *)

Lemma returned_app (h1 h2 : list event) : returned (h1 ++ h2) = returned h1 ++ returned h2.
Proof. apply omap_app. Qed.

Lemma loop_events_silent env (evs : list event) :
  Forall (loop_event env) evs -> posts evs = [] /\ returned evs = [].
Proof.
  induction 1 as [|e evs He _ [IHp IHr]]; [done|].
  destruct e as [| | |[]| |]; simpl in He; try done; simpl; by rewrite ?IHp, ?IHr.
Qed.

Section UncancelledFacts.
Context {rt : Runtime} (cfg : config) (env : environment).
Hypothesis Hnever : cancel_at env = None.

Lemma read_cancelled_never (h : list event) :
  read_cancelled env h = (Ok false, h ++ [EvRead false]).
Proof. unfold read_cancelled. by rewrite never_cancelled. Qed.

(** The last stage of an uncancelled run: the request goes out, and what
    the invocation returns -- the text of its failure included -- is shown. *)
Lemma final_stage_shown (title model : string) (messages : list message) (h : list event) :
  exists final evs,
    (final_result <- call_llm_streaming cfg env model messages None ;;
     deliver env title final_result) h
    = (Ok tt, h ++ EvPost (streaming_request cfg model messages) :: evs
                ++ [EvReturned final; EvRead false; EvIdle Destroy;
                    EvIdle (ShowResult title final)])
    /\ Forall (loop_event env) evs
    /\ streaming_outcome
         (network env (length (posts h)) (streaming_request cfg model messages)) final.
Proof.
  destruct (call_llm_streaming_history env cfg model messages None h)
    as (v & evs & Hrun & Hev & Hv).
  exists v, evs. unfold bind. rewrite Hrun.
  assert (Hvalue : fst (call_llm_streaming cfg env model messages None h) = Ok v)
    by by rewrite Hrun.
  destruct Hv as [[_ Hin]|(s & -> & Hs & _)];
    [by destruct (loop_events_never_cancelled env evs Hnever Hev)|].
  split; [|split; [done|]].
  - unfold deliver, bind. rewrite read_cancelled_never. simpl.
    rewrite eqb_empty_false by done. simpl.
    unfold idle_add, emit. f_equal. rewrite <- !app_assoc. simpl.
    by rewrite <- !app_assoc.
  - unfold streaming_outcome.
    destruct (network env (length (posts h)) (streaming_request cfg model messages))
      as [e|resp] eqn:Hnet.
    { rewrite (call_llm_streaming_transport env cfg model messages None h e Hnet) in Hvalue.
      by injection Hvalue as <-. }
    destruct (status_error resp) as [m|] eqn:Hst.
    { rewrite (call_llm_streaming_status env cfg model messages None h resp m Hnet Hst)
        in Hvalue.
      by injection Hvalue as <-. }
    split.
    + intros Hc.
      destruct (call_llm_streaming_accumulates env cfg model messages None h resp
                  Hnet Hst Hc) as [H|H];
        rewrite Hvalue in H; [discriminate H | congruence].
    + intros Hb.
      destruct (call_llm_streaming_breaks env cfg model messages None h resp
                  Hnever Hnet Hst Hb) as [e He].
      rewrite Hvalue in He. exists e. congruence.
Qed.

End UncancelledFacts.

(** *** Stepping through an uncancelled run *)

Lemma bind_emit {A} (e : event) (k : M A) (h : list event) :
  (emit e ;;; k) h = k (h ++ [e]).
Proof. reflexivity. Qed.

Lemma bind_idle_add {A} (t : task) (k : M A) (h : list event) :
  (idle_add t ;;; k) h = k (h ++ [EvIdle t]).
Proof. reflexivity. Qed.

Lemma bind_read_never {A} (env : environment) (k : bool -> M A) (h : list event) :
  cancel_at env = None ->
  (c <- read_cancelled env ;; k c) h = k false (h ++ [EvRead false]).
Proof. intros Hnever. unfold bind. by rewrite read_cancelled_never. Qed.

Lemma bind_call_llm `{rt : Runtime} {A} cfg env model (m : message) image_base64
      (k : pyval -> M A) (h : list event) :
  exists v,
    (x <- call_llm cfg env model [m] image_base64 ;; k x) h
    = k v (h ++ [EvPost (buffered_request cfg model (with_image [m] image_base64));
                 EvReturned v])
    /\ (buffered_failure (network env (length (posts h))
                            (buffered_request cfg model (with_image [m] image_base64)))
        -> failure_value v).
Proof.
  destruct (call_llm_history cfg env model m [] image_base64 h) as (v & Hrun & Hfail & _).
  exists v. unfold bind. by rewrite Hrun.
Qed.

(** C3 (as amended). In a multi-stage run that is not cancelled, a failure
    in a stage does not end the run. The failed stage -- whichever it is, and
    whether the transport raised, the status was a client or server error,
    the body was malformed or the stream broke off -- returns the text
    [Error: ...] describing its failure, and that text is handled like any
    stage output: every later stage is still invoked, with the outputs of
    the earlier stages (failure texts included) embedded in its prompt, and
    what the final stage returns (its own failure text, when it fails) is
    displayed as the result. *)
Theorem failed_stage_output_is_passed_on `{rt : Runtime}
    (cfg : config) (env : environment) (op : operation) :
  multi_stage op = true ->
  cancel_at env = None ->
  exists outputs final,
    returned (snd (run cfg env op [])) = outputs ++ [final]
    /\ posts (snd (run cfg env op [])) = stage_requests cfg op outputs
    /\ (exists q, ui_queue (snd (run cfg env op []))
                  = q ++ [Destroy; ShowResult (result_title op) final])
    /\ (forall i request v,
          stage_requests cfg op outputs !! i = Some request ->
          outputs !! i = Some v ->
          buffered_failure (network env i request) ->
          failure_value v)
    /\ (forall last_request,
          last (stage_requests cfg op outputs) = Some last_request ->
          streaming_outcome (network env (length outputs) last_request) final).
Proof.
  intros Hmulti Hnever.
  destruct op as [| |img| |img|img user_query|]; try discriminate Hmulti; clear Hmulti;
    cbv delta [run _ocr_translate_callback _ocr_explain_callback _process_query_image]
        beta iota zeta.
  - rewrite bind_emit, bind_idle_add, bind_read_never by done.
    edestruct (@bind_call_llm rt) as (v1 & -> & Hfail1).
    rewrite bind_read_never, bind_idle_add by done.
    edestruct (final_stage_shown cfg env Hnever) as (final & evs & -> & Hev & Hraise).
    destruct (loop_events_silent env evs Hev) as [Hp Hr].
    exists [v1], final. simpl.
    rewrite !returned_app, !posts_app, !ui_queue_app, Hp, Hr. simpl.
    split; [done|]. split; [done|]. split; [by eexists (_ :: _ :: _)|].
    split.
    + intros [|i] ? ? Hreq Hout; [|by destruct i].
      injection Hreq as <-. injection Hout as <-. exact Hfail1.
    + intros ? [= <-]. exact Hraise.
  - rewrite bind_emit, bind_idle_add, bind_read_never by done.
    edestruct (@bind_call_llm rt) as (v1 & -> & Hfail1).
    rewrite bind_read_never, bind_idle_add by done.
    edestruct (final_stage_shown cfg env Hnever) as (final & evs & -> & Hev & Hraise).
    destruct (loop_events_silent env evs Hev) as [Hp Hr].
    exists [v1], final. simpl.
    rewrite !returned_app, !posts_app, !ui_queue_app, Hp, Hr. simpl.
    split; [done|]. split; [done|]. split; [by eexists (_ :: _ :: _)|].
    split.
    + intros [|i] ? ? Hreq Hout; [|by destruct i].
      injection Hreq as <-. injection Hout as <-. exact Hfail1.
    + intros ? [= <-]. exact Hraise.
  - rewrite bind_emit, bind_idle_add, bind_read_never by done.
    edestruct (@bind_call_llm rt) as (v1 & -> & Hfail1).
    rewrite bind_read_never, bind_idle_add by done.
    edestruct (@bind_call_llm rt) as (v2 & -> & Hfail2).
    rewrite bind_read_never, bind_idle_add by done.
    edestruct (final_stage_shown cfg env Hnever) as (final & evs & -> & Hev & Hraise).
    destruct (loop_events_silent env evs Hev) as [Hp Hr].
    exists [v1; v2], final. simpl.
    rewrite !returned_app, !posts_app, !ui_queue_app, Hp, Hr. simpl.
    split; [done|]. split; [done|]. split; [by eexists (_ :: _ :: _ :: _)|].
    split.
    + intros [|[|i]] ? ? Hreq Hout; [| |by destruct i].
      * injection Hreq as <-. injection Hout as <-. exact Hfail1.
      * injection Hreq as <-. injection Hout as <-. exact Hfail2.
    + intros ? [= <-]. exact Hraise.
Qed.

(** The text of a failure is embedded in the next prompt as it is. *)
Lemma failure_text_in_prompt `{rt : Runtime} (cfg : config) (description : string) :
  ocr_translate_prompt cfg (PStr ("Error: " +:+ description))
  = "Translate the following text to " +:+ default_language cfg
    +:+ ". Respond in Markdown format. Only provide the translation:"
    +:+ NL +:+ NL +:+ "Error: " +:+ description.
Proof. unfold ocr_translate_prompt. by rewrite format_str. Qed.

Lemma ocr_timeout_is_passed_on :
  exists outputs final,
    returned (snd (@run example_runtime example_config ocr_times_out
                     (OcrTranslate "iVBORw0KGgo=") [])) = outputs ++ [final]
    /\ posts (snd (@run example_runtime example_config ocr_times_out
                     (OcrTranslate "iVBORw0KGgo=") []))
       = @stage_requests example_runtime example_config (OcrTranslate "iVBORw0KGgo=") outputs
    /\ (exists q, ui_queue (snd (@run example_runtime example_config ocr_times_out
                                   (OcrTranslate "iVBORw0KGgo=") []))
                  = q ++ [Destroy; ShowResult "OCR + Translation" final])
    /\ (forall i request v,
          @stage_requests example_runtime example_config
            (OcrTranslate "iVBORw0KGgo=") outputs !! i = Some request ->
          outputs !! i = Some v ->
          buffered_failure (network ocr_times_out i request) ->
          @failure_value example_runtime v)
    /\ (forall last_request,
          last (@stage_requests example_runtime example_config
                  (OcrTranslate "iVBORw0KGgo=") outputs) = Some last_request ->
          @streaming_outcome example_runtime
            (network ocr_times_out (length outputs) last_request) final).
Proof.
  exact (@failed_stage_output_is_passed_on example_runtime example_config ocr_times_out
           (OcrTranslate "iVBORw0KGgo=") eq_refl eq_refl).
Defined.

(** C3, as stated, fails. When the OCR stage times out the translation
    stage is invoked all the same, with the text of the failure as the text
    to translate, and its answer is shown; when the translation stage times
    out the text of its failure is shown as the result. *)
Lemma failed_stage_does_not_end_the_run :
  let h1 := snd (@run example_runtime example_config ocr_times_out
                   (OcrTranslate "iVBORw0KGgo=") []) in
  let h2 := snd (@run example_runtime example_config translation_times_out
                   (OcrTranslate "iVBORw0KGgo=") []) in
  returned h1 = [PStr "Error: Read timed out."; PStr "ab"]
  /\ posts h1
     = [ buffered_request example_config (ocr_model example_config)
           (with_image [user_message ocr_translate_ocr_prompt] (Some "iVBORw0KGgo="));
         streaming_request example_config (text_model example_config)
           [user_message ("Translate the following text to English. Respond in Markdown format. Only provide the translation:"
                          +:+ NL +:+ NL +:+ "Error: Read timed out.")] ]
  /\ ui_queue h1
     = [ UpdateStatus "Extracting text from image...";
         UpdateStatus "Translating text...";
         UpdateStatus "Receiving response... (2 chars)";
         Destroy;
         ShowResult "OCR + Translation" (PStr "ab") ]
  /\ ui_queue h2
     = [ UpdateStatus "Extracting text from image...";
         UpdateStatus "Translating text...";
         Destroy;
         ShowResult "OCR + Translation" (PStr "Error: Connection timeout") ].
Proof. vm_compute. repeat split. Qed.

(** ** The hotkey loop *)

Lemma dispatch_bound_action callback_object hm (e : xevent) (h : list event) :
  dispatch callback_object hm e h
  = (Ok tt, h ++ match bound_action callback_object hm e with
                 | Some name => [EvIdle (Callback name)]
                 | None => []
                 end).
Proof.
  unfold dispatch, bound_action.
  destruct (type e =? X.KeyPress)%Z; [|by rewrite app_nil_r].
  destruct (hotkey_map hm !! (detail e, Z.land (state e) modifier_mask)) as [name|];
    [|by rewrite app_nil_r].
  destruct (negb (String.eqb name "") && callback_object name); [done | by rewrite app_nil_r].
Qed.

(** The loop posts the actions of the events it is given, one after the
    other. *)
Lemma event_loop_queue callback_object hm (events : list xevent) (h : list event) :
  _event_loop callback_object hm events h
  = (Ok tt, h ++ (EvIdle ∘ Callback <$> omap (bound_action callback_object hm) events)).
Proof.
  revert h. induction events as [|e events IH]; intros h; simpl.
  - by rewrite app_nil_r.
  - unfold bind. rewrite dispatch_bound_action, IH.
    destruct (bound_action callback_object hm e); simpl; by rewrite <- ?app_assoc, ?app_nil_r.
Qed.

Lemma ui_queue_callbacks (names : list string) :
  ui_queue (EvIdle ∘ Callback <$> names) = Callback <$> names.
Proof.
  unfold ui_queue. induction names as [|n names IH]; [done|].
  simpl. f_equal. exact IH.
Qed.

(** C5. The loop hands the actions of the detected chord events to the
    presentation thread's queue in detection order, one per event: the queue
    is the list of the actions of the events, in the order of the events. In
    particular when a chord event is detected before another one, its action
    is in the queue before the other's. *)
Theorem actions_are_queued_in_detection_order
    (callback_object : string -> bool) (hm : manager) (events : list xevent) :
  ui_queue (snd (_event_loop callback_object hm events []))
  = Callback <$> omap (bound_action callback_object hm) events
  /\ forall before c1 between c2 after a1 a2,
       events = before ++ c1 :: between ++ c2 :: after ->
       bound_action callback_object hm c1 = Some a1 ->
       bound_action callback_object hm c2 = Some a2 ->
       ui_queue (snd (_event_loop callback_object hm events []))
       = (Callback <$> omap (bound_action callback_object hm) before)
         ++ Callback a1
         :: (Callback <$> omap (bound_action callback_object hm) between)
         ++ Callback a2
         :: (Callback <$> omap (bound_action callback_object hm) after).
Proof.
  rewrite event_loop_queue. simpl. rewrite ui_queue_callbacks. split; [done|].
  intros before c1 between c2 after a1 a2 -> H1 H2.
  rewrite omap_app. simpl. rewrite H1, omap_app. simpl. rewrite H2.
  by rewrite fmap_app, fmap_cons, fmap_app, fmap_cons.
Qed.

(** C8 (as amended). The loop has no notion of a held key: every key-press
    event of a registered chord produces one action invocation, and a
    key-release event produces none. A physical press and release during
    which the event source emits [repeats] repeat events therefore produces
    [1 + repeats] invocations -- exactly one when no repeat event is
    emitted. *)
Theorem one_invocation_per_key_press
    (callback_object : string -> bool) (hm : manager)
    (keycode state : Z) (repeats : nat) (name : string) :
  hotkey_map hm !! (keycode, Z.land state modifier_mask) = Some name ->
  name <> "" ->
  callback_object name = true ->
  ui_queue (snd (_event_loop callback_object hm (key_stroke keycode state repeats) []))
  = replicate (S repeats) (Callback name).
Proof.
  intros Hmap Hname Hobj.
  rewrite event_loop_queue. simpl. rewrite ui_queue_callbacks.
  assert (Hpress : bound_action callback_object hm
                     {| type := X.KeyPress; detail := keycode; state := state |} = Some name).
  { unfold bound_action. simpl. rewrite Hmap, Hobj. by rewrite eqb_empty_false. }
  assert (Hrelease : bound_action callback_object hm
                       {| type := X.KeyRelease; detail := keycode; state := state |} = None)
    by done.
  assert (Hrepeats : omap (bound_action callback_object hm)
                       (concat (replicate repeats
                          [ {| type := X.KeyRelease; detail := keycode; state := state |};
                            {| type := X.KeyPress; detail := keycode; state := state |} ]))
                     = replicate repeats name).
  { induction repeats as [|n IH]; [done|].
    cbn [replicate concat app omap list_omap]. by rewrite Hrelease, Hpress, IH. }
  unfold key_stroke. cbn [omap list_omap]. rewrite Hpress, omap_app, Hrepeats.
  cbn [omap list_omap]. rewrite Hrelease, app_nil_r.
  by rewrite <- fmap_replicate.
Qed.

Lemma single_press_single_invocation :
  ui_queue (snd (_event_loop LLMAssistant registered (key_stroke 10 5 0) []))
  = [Callback "translate_text"].
Proof.
  apply (one_invocation_per_key_press LLMAssistant registered 10 5 0 "translate_text").
  - vm_compute. reflexivity.
  - discriminate.
  - vm_compute. reflexivity.
Defined.

(** C8, as stated, fails: Ctrl+Shift+1 held for two auto-repeats invokes
    the action three times. *)
Lemma held_key_invokes_again :
  ui_queue (snd (_event_loop LLMAssistant registered (key_stroke 10 5 2) []))
  = [Callback "translate_text"; Callback "translate_text"; Callback "translate_text"].
Proof. vm_compute. reflexivity. Qed.

(** Two chords pressed one after the other are queued in that order. *)
Lemma two_chords_in_order :
  ui_queue (snd (_event_loop LLMAssistant registered
                   (key_stroke 12 5 0 ++ key_stroke 10 5 0) []))
  = [Callback "ocr_translate"; Callback "translate_text"].
Proof. vm_compute. reflexivity. Qed.

(** ** Registration *)

Lemma forallb_Forall_true {A} (f : A -> bool) (l : list A) :
  forallb f l = true <-> Forall (fun x => f x = true) l.
Proof.
  induction l as [|x l IH]; simpl.
  - split; [constructor | done].
  - rewrite andb_true_iff, Forall_cons, IH. done.
Qed.

Lemma register_binding_printable keysym_to_keycode stdout_encodes
      (b : binding) (hm : manager) :
  printable stdout_encodes b ->
  register_binding keysym_to_keycode stdout_encodes b hm
  = (Ok tt, {| grabs := grabs hm ++ [binding_pair keysym_to_keycode b];
               hotkey_map := <[binding_pair keysym_to_keycode b := b.2]> (hotkey_map hm) |}).
Proof.
  destruct b as [[modifiers keysym] name]. unfold printable. cbn [fst snd].
  intros [Hp Henc].
  unfold register_binding, print_registered, chr_defined, binding_pair.
  replace (XK.XK_1 + (keysym - XK.XK_1))%Z with keysym by lia.
  destruct (Z.leb_spec 0 keysym); [|lia]. destruct (Z.leb_spec keysym 1114111); [|lia].
  cbn [andb]. apply forallb_Forall_true in Henc. by rewrite Henc.
Qed.

(** A binding whose message cannot be printed ends the registration, after
    its grab was requested. *)
Lemma register_binding_unprintable keysym_to_keycode stdout_encodes
      (b : binding) (hm : manager) :
  ~ printable stdout_encodes b ->
  exists e,
    fst (register_binding keysym_to_keycode stdout_encodes b hm) = Raise e
    /\ grabs (snd (register_binding keysym_to_keycode stdout_encodes b hm))
       = grabs hm ++ [binding_pair keysym_to_keycode b].
Proof.
  destruct b as [[modifiers keysym] name]. unfold printable. cbn [fst snd]. intros Hp.
  unfold register_binding, print_registered, chr_defined, binding_pair.
  replace (XK.XK_1 + (keysym - XK.XK_1))%Z with keysym by lia.
  destruct (Z.leb_spec 0 keysym); cbn [andb]; [|by eexists].
  destruct (Z.leb_spec keysym 1114111); cbn [andb]; [|by eexists].
  destruct (forallb stdout_encodes (registration_message keysym name)) eqn:Henc;
    [|by eexists].
  destruct Hp. split; [lia|]. by apply forallb_Forall_true.
Qed.

(** C7 (as amended). Registration makes no check for duplicates and
    rejects nothing: for every table of bindings (with printable keysyms) it
    completes normally, requests one grab per binding -- two for a pair that
    two bindings share -- and binds each pair to the action of the last
    binding of that pair, so that the registered map still holds one action
    per modifier-and-key pair. A keysym is printable when the registration
    message that carries its character can be written to the standard
    output: it is a code point, and one the encoding of the output has (for
    UTF-8, not a surrogate). *)
Theorem registration_keeps_the_last_binding
    (keysym_to_keycode : Z -> Z) (stdout_encodes : Z -> bool)
    (bindings : list binding) (hm : manager) :
  Forall (printable stdout_encodes) bindings ->
  exists hm',
    setup_hotkeys keysym_to_keycode stdout_encodes bindings hm = (Ok tt, hm')
    /\ grabs hm' = grabs hm ++ (binding_pair keysym_to_keycode <$> bindings)
    /\ forall p, hotkey_map hm' !! p
                 = match bound_to keysym_to_keycode bindings p with
                   | Some name => Some name
                   | None => hotkey_map hm !! p
                   end.
Proof.
  intros Hp. revert hm. induction Hp as [|b rest Hb _ IH]; intros hm.
  - exists hm. simpl. by rewrite app_nil_r.
  - simpl. rewrite register_binding_printable by done.
    destruct (IH {| grabs := grabs hm ++ [binding_pair keysym_to_keycode b];
                    hotkey_map := <[binding_pair keysym_to_keycode b := b.2]>
                                    (hotkey_map hm) |})
      as (hm' & -> & Hgrabs & Hmap).
    exists hm'. split; [done|]. split.
    + rewrite Hgrabs. simpl. by rewrite <- app_assoc.
    + intros p. rewrite Hmap. simpl.
      destruct (bound_to keysym_to_keycode rest p); [done|].
      destruct (decide (binding_pair keysym_to_keycode b = p)) as [->|Hne].
      * by rewrite lookup_insert_eq.
      * by rewrite lookup_insert_ne.
Qed.

Lemma duplicate_bindings_are_registered :
  exists hm',
    setup_hotkeys example_keycode utf8_encodes duplicate_bindings new_manager = (Ok tt, hm')
    /\ grabs hm' = grabs new_manager ++ (binding_pair example_keycode <$> duplicate_bindings)
    /\ forall p, hotkey_map hm' !! p
                 = match bound_to example_keycode duplicate_bindings p with
                   | Some name => Some name
                   | None => hotkey_map new_manager !! p
                   end.
Proof.
  apply (registration_keeps_the_last_binding example_keycode utf8_encodes
           duplicate_bindings new_manager).
  unfold duplicate_bindings.
  repeat (apply List.Forall_cons;
          [split; [unfold XK.XK_1; simpl; lia | vm_compute; repeat constructor]|]).
  apply List.Forall_nil.
Defined.

(** C7, as stated, fails: the registration of a table with a duplicate pair
    completes normally, after requesting the grab of the pair twice; the
    second binding silently replaces the first. *)
Lemma duplicate_binding_is_not_rejected :
  fst (setup_hotkeys example_keycode utf8_encodes duplicate_bindings new_manager) = Ok tt
  /\ grabs (snd (setup_hotkeys example_keycode utf8_encodes duplicate_bindings new_manager))
     = [(10, 5); (10, 5)]%Z
  /\ hotkey_map (snd (setup_hotkeys example_keycode utf8_encodes duplicate_bindings
                        new_manager))
       !! (10, 5)%Z = Some "explain_text".
Proof. vm_compute. repeat split. Qed.

(** A keysym that is a surrogate is a code point, yet UTF-8 cannot encode
    it: the registration ends on the message of that binding, with its grab
    requested and the bindings after it not registered. *)
Lemma surrogate_keysym_ends_registration :
  fst (setup_hotkeys example_keycode utf8_encodes
         [ (Z.lor X.ControlMask X.ShiftMask, 55296%Z, "translate_text");
           (Z.lor X.ControlMask X.ShiftMask, XK.XK_2, "explain_text") ] new_manager)
  = Raise UnicodeEncodeError
  /\ grabs (snd (setup_hotkeys example_keycode utf8_encodes
                   [ (Z.lor X.ControlMask X.ShiftMask, 55296%Z, "translate_text");
                     (Z.lor X.ControlMask X.ShiftMask, XK.XK_2, "explain_text") ]
                   new_manager))
     = [(55257, 5)]%Z.
Proof. vm_compute. by split. Qed.

(** The built-in table binds seven different keys. *)
Lemma hotkeys_table_has_no_duplicate :
  NoDup ((fun b : binding => (b.1.2, b.1.1)) <$> HOTKEYS).
Proof. apply (bool_decide_unpack _). vm_compute. reflexivity. Qed.

(** ** Clipboard triggers *)

Lemma clipboard_trigger_wrong_content (cb : clipboard) (open : string -> M unit) :
  snd (get_clipboard_text cb) <> "text" ->
  clipboard_trigger cb open []
  = (Ok tt, [EvNotify (wrong_content_notification (snd (get_clipboard_text cb)))]).
Proof.
  unfold clipboard_trigger, get_clipboard_text, wrong_content_notification.
  destruct (wait_for_text cb); [done|]. intros _.
  by destruct (wait_is_image_available cb), (wait_is_uris_available cb).
Qed.

(** C9. When translate, explain or query-text is triggered and the content
    kind of the clipboard is not text (an image, a file, or nothing), the
    trigger notifies the user of the wrong content and stops there: whatever
    the user would have answered, no window is opened, no pipeline run is
    created and no request is posted -- the notification is the only event. *)
Theorem wrong_clipboard_content_aborts `{rt : Runtime}
    (cfg : config) (env : environment) (cb : clipboard) (user : user_choice) :
  snd (get_clipboard_text cb) <> "text" ->
  let notification := EvNotify (wrong_content_notification (snd (get_clipboard_text cb))) in
  translate_text cfg env cb user [] = (Ok tt, [notification])
  /\ explain_text cfg env cb user [] = (Ok tt, [notification])
  /\ query_text cfg env cb user [] = (Ok tt, [notification])
  /\ posts [notification] = []
  /\ (forall w, ~ In (EvWindow w) [notification]).
Proof.
  intros Hkind notification.
  unfold translate_text, explain_text, query_text.
  rewrite !clipboard_trigger_wrong_content by done.
  repeat split. intros w [H|[]]. discriminate H.
Qed.

Lemma image_in_clipboard_aborts :
  let notification := EvNotify "Clipboard contains an image, not text" in
  let env := {| cancel_at := None; network := fun _ _ => PostRaises (ConnectionError "down") |} in
  @translate_text example_runtime example_config env image_clipboard (Submit "hello") []
  = (Ok tt, [notification])
  /\ @explain_text example_runtime example_config env image_clipboard (Submit "hello") []
     = (Ok tt, [notification])
  /\ @query_text example_runtime example_config env image_clipboard (Submit "hello") []
     = (Ok tt, [notification])
  /\ posts [notification] = []
  /\ (forall w, ~ In (EvWindow w) [notification]).
Proof.
  apply (@wrong_clipboard_content_aborts example_runtime example_config
           {| cancel_at := None; network := fun _ _ => PostRaises (ConnectionError "down") |}
           image_clipboard (Submit "hello")).
  discriminate.
Defined.

(** * Further properties of the code *)

(** ** Screen selection *)

Lemma py_min_fin (a : ScreenSelector.bound) (z : Z) :
  a <> ScreenSelector.NegInf ->
  exists m, ScreenSelector.py_min a (ScreenSelector.Fin z) = ScreenSelector.Fin m
            /\ (m <= z)%Z
            /\ (m = z \/ a = ScreenSelector.Fin m)
            /\ (forall x, a = ScreenSelector.Fin x -> (m <= x)%Z).
Proof.
  intros Ha. unfold ScreenSelector.py_min, ScreenSelector.bound_lt.
  destruct a as [|x|]; [done| |].
  - destruct (Z.ltb_spec z x).
    + exists z. repeat split; [lia | by left |]. intros ? [= <-]. lia.
    + exists x. repeat split; [lia | by right |]. intros ? [= <-]. lia.
  - exists z. repeat split; [lia | by left | done].
Qed.

Lemma py_max_fin (a : ScreenSelector.bound) (z : Z) :
  a <> ScreenSelector.PosInf ->
  exists m, ScreenSelector.py_max a (ScreenSelector.Fin z) = ScreenSelector.Fin m
            /\ (z <= m)%Z
            /\ (m = z \/ a = ScreenSelector.Fin m)
            /\ (forall x, a = ScreenSelector.Fin x -> (x <= m)%Z).
Proof.
  intros Ha. unfold ScreenSelector.py_max, ScreenSelector.bound_lt.
  destruct a as [|x|]; [| |done].
  - exists z. repeat split; [lia | by left | done].
  - destruct (Z.ltb_spec x z).
    + exists z. repeat split; [lia | by left |]. intros ? [= <-]. lia.
    + exists x. repeat split; [lia | by right |]. intros ? [= <-]. lia.
Qed.

(** What the loop over the monitors has computed after a non-empty list:
    the four extreme coordinates, each reached by a monitor. *)
Lemma extend_all (monitors : list ScreenSelector.geometry) :
  monitors <> [] ->
  exists x0 y0 x1 y1,
    fold_left ScreenSelector.extend monitors
      (ScreenSelector.PosInf, ScreenSelector.PosInf, ScreenSelector.NegInf, ScreenSelector.NegInf)
    = (ScreenSelector.Fin x0, ScreenSelector.Fin y0, ScreenSelector.Fin x1, ScreenSelector.Fin y1)
    /\ (forall g, In g monitors ->
          (x0 <= ScreenSelector.geo_x g)%Z /\ (y0 <= ScreenSelector.geo_y g)%Z
          /\ (ScreenSelector.geo_x g + ScreenSelector.geo_width g <= x1)%Z
          /\ (ScreenSelector.geo_y g + ScreenSelector.geo_height g <= y1)%Z)
    /\ (exists g, In g monitors /\ ScreenSelector.geo_x g = x0)
    /\ (exists g, In g monitors /\ ScreenSelector.geo_y g = y0)
    /\ (exists g, In g monitors
                  /\ (ScreenSelector.geo_x g + ScreenSelector.geo_width g)%Z = x1)
    /\ (exists g, In g monitors
                  /\ (ScreenSelector.geo_y g + ScreenSelector.geo_height g)%Z = y1).
Proof.
  induction monitors as [|g rest IH] using rev_ind; [done|]. intros _.
  rewrite fold_left_app. simpl.
  destruct rest as [|g0 rest'].
  - simpl. exists (ScreenSelector.geo_x g), (ScreenSelector.geo_y g),
      (ScreenSelector.geo_x g + ScreenSelector.geo_width g)%Z,
      (ScreenSelector.geo_y g + ScreenSelector.geo_height g)%Z.
    split; [done|]. split.
    + intros ? [<-|[]]. lia.
    + repeat split; exists g; (split; [by left | done]).
  - destruct (IH ltac:(done)) as (x0 & y0 & x1 & y1 & -> & Hcover & Hx0 & Hy0 & Hx1 & Hy1).
    unfold ScreenSelector.extend.
    destruct (py_min_fin (ScreenSelector.Fin x0) (ScreenSelector.geo_x g) ltac:(done))
      as (a & -> & Ha1 & Ha2 & Ha3).
    destruct (py_min_fin (ScreenSelector.Fin y0) (ScreenSelector.geo_y g) ltac:(done))
      as (b & -> & Hb1 & Hb2 & Hb3).
    destruct (py_max_fin (ScreenSelector.Fin x1)
                (ScreenSelector.geo_x g + ScreenSelector.geo_width g) ltac:(done))
      as (c & -> & Hc1 & Hc2 & Hc3).
    destruct (py_max_fin (ScreenSelector.Fin y1)
                (ScreenSelector.geo_y g + ScreenSelector.geo_height g) ltac:(done))
      as (d & -> & Hd1 & Hd2 & Hd3).
    specialize (Ha3 _ eq_refl). specialize (Hb3 _ eq_refl).
    specialize (Hc3 _ eq_refl). specialize (Hd3 _ eq_refl).
    exists a, b, c, d. split; [done|]. split.
    { intros g' Hin. apply in_app_or in Hin as [Hin|[<-|[]]]; [|lia].
      specialize (Hcover g' Hin). lia. }
    assert (Hlast : In g ((g0 :: rest') ++ [g])) by (apply in_or_app; right; by left).
    assert (Hold : forall g', In g' (g0 :: rest') -> In g' ((g0 :: rest') ++ [g]))
      by (intros; apply in_or_app; by left).
    repeat split.
    + destruct Ha2 as [->|[= <-]]; [by exists g|]. destruct Hx0 as (g' & ? & ?). exists g'. auto.
    + destruct Hb2 as [->|[= <-]]; [by exists g|]. destruct Hy0 as (g' & ? & ?). exists g'. auto.
    + destruct Hc2 as [->|[= <-]]; [by exists g|]. destruct Hx1 as (g' & ? & ?). exists g'. auto.
    + destruct Hd2 as [->|[= <-]]; [by exists g|]. destruct Hy1 as (g' & ? & ?). exists g'. auto.
Qed.

(** X1. With at least one monitor, the geometry the selection window takes
    is the bounding box of the monitors: it contains every monitor, and each
    of its four sides is the side of some monitor. With no monitor the
    computation fails, on the conversion of an infinity to an integer. *)
Theorem total_geometry_is_the_bounding_box (monitors : list ScreenSelector.geometry) :
  match ScreenSelector._calculate_total_geometry monitors with
  | None => monitors = []
  | Some (x, y, width, height) =>
      monitors <> []
      /\ (forall g, In g monitors ->
            (x <= ScreenSelector.geo_x g)%Z /\ (y <= ScreenSelector.geo_y g)%Z
            /\ (ScreenSelector.geo_x g + ScreenSelector.geo_width g <= x + width)%Z
            /\ (ScreenSelector.geo_y g + ScreenSelector.geo_height g <= y + height)%Z)
      /\ (exists g, In g monitors /\ ScreenSelector.geo_x g = x)
      /\ (exists g, In g monitors /\ ScreenSelector.geo_y g = y)
      /\ (exists g, In g monitors
                    /\ (ScreenSelector.geo_x g + ScreenSelector.geo_width g = x + width)%Z)
      /\ (exists g, In g monitors
                    /\ (ScreenSelector.geo_y g + ScreenSelector.geo_height g = y + height)%Z)
  end.
Proof.
  destruct monitors as [|g rest]; [done|].
  destruct (extend_all (g :: rest) ltac:(done))
    as (x0 & y0 & x1 & y1 & Hfold & Hcover & Hx0 & Hy0 & Hx1 & Hy1).
  unfold ScreenSelector._calculate_total_geometry. rewrite Hfold.
  split; [done|]. split.
  { intros g' Hin. specialize (Hcover g' Hin). lia. }
  repeat split; try done.
  - destruct Hx1 as (g' & ? & ?). exists g'. split; [done | lia].
  - destruct Hy1 as (g' & ? & ?). exists g'. split; [done | lia].
Qed.

Lemma dragged_start {coordinate : Type} (px py : coordinate)
      (motions : list (coordinate * coordinate)) :
  ScreenSelector.start_x coordinate (dragged px py motions) = Some px
  /\ ScreenSelector.start_y coordinate (dragged px py motions) = Some py.
Proof.
  unfold dragged. induction motions as [|m motions IH] using rev_ind; [done|].
  rewrite fold_left_app. cbn [fold_left]. destruct IH as [Hx Hy].
  set (s := fold_left _ motions _) in *.
  unfold ScreenSelector.on_motion. rewrite Hx. by simpl.
Qed.

(** X2. A selection is decided by the point of the button press and the
    point of the release alone: the pointer motions in between do not count,
    and dragging from the second point to the first selects the same. When
    the callback is called, the box handed to the screen grab has the two
    points as opposite corners and is more than 10 pixels wide and high;
    when it is not called, the box would be 10 pixels or less in one
    direction. *)
Theorem selection_spans_the_dragged_corners
    (coordinate : Type) (int : coordinate -> Z) (window_x window_y : Z)
    (px py rx ry : coordinate) (motions motions' : list (coordinate * coordinate)) :
  let ax := (window_x + int px)%Z in
  let ay := (window_y + int py)%Z in
  let bx := (window_x + int rx)%Z in
  let by' := (window_y + int ry)%Z in
  exists outcome,
    ScreenSelector.on_button_release coordinate int window_x window_y rx ry
      (dragged px py motions) = Ok outcome
    /\ ScreenSelector.on_button_release coordinate int window_x window_y px py
         (dragged rx ry motions') = Ok outcome
    /\ match outcome with
       | Some r =>
           ScreenSelector.bbox r = (Z.min ax bx, Z.min ay by', Z.max ax bx, Z.max ay by')
           /\ (10 < Z.max ax bx - Z.min ax bx)%Z
           /\ (10 < Z.max ay by' - Z.min ay by')%Z
       | None =>
           (Z.max ax bx - Z.min ax bx <= 10)%Z \/ (Z.max ay by' - Z.min ay by' <= 10)%Z
       end.
Proof.
  intros ax ay bx by'.
  destruct (dragged_start px py motions) as [Hx Hy].
  destruct (dragged_start rx ry motions') as [Hx' Hy'].
  unfold ScreenSelector.on_button_release. rewrite Hx, Hy, Hx', Hy'.
  fold ax ay bx by'.
  replace (Z.abs (ax - bx)) with (Z.abs (bx - ax)) by lia.
  replace (Z.abs (ay - by')) with (Z.abs (by' - ay)) by lia.
  rewrite (Z.min_comm bx ax), (Z.min_comm by' ay).
  eexists. split; [reflexivity|]. split; [reflexivity|].
  destruct (Z.ltb_spec 10 (Z.abs (bx - ax))); simpl.
  - destruct (Z.ltb_spec 10 (Z.abs (by' - ay))); simpl.
    + split; [unfold ScreenSelector.bbox; repeat f_equal; lia | lia].
    + right. lia.
  - left. lia.
Qed.

(** A release that no press came before finds no start point and raises. *)
Lemma release_without_press_raises
    (coordinate : Type) (int : coordinate -> Z) (window_x window_y : Z) (x y : coordinate) :
  ScreenSelector.on_button_release coordinate int window_x window_y x y
    (ScreenSelector.initial coordinate) = Raise (TypeError "int" PNone).
Proof. reflexivity. Qed.

(** ** Stored configuration *)

Ltac setting_cases k :=
  destruct (decide (k = "api_url")) as [->|];
  [|destruct (decide (k = "api_key")) as [->|];
  [|destruct (decide (k = "default_language")) as [->|];
  [|destruct (decide (k = "text_model")) as [->|];
  [|destruct (decide (k = "premium_text_model")) as [->|];
  [|destruct (decide (k = "vision_model")) as [->|];
  [|destruct (decide (k = "ocr_model")) as [->|];
  [|destruct (decide (k = "use_premium")) as [->|]]]]]]]].

Lemma other_key_not_setting (k : string) :
  k <> "api_url" -> k <> "api_key" -> k <> "default_language" -> k <> "text_model" ->
  k <> "premium_text_model" -> k <> "vision_model" -> k <> "ocr_model" -> k <> "use_premium" ->
  bool_decide (k ∈ Config.settings) = false /\ Config.defaults !! k = None.
Proof.
  intros. split.
  - apply bool_decide_eq_false. unfold Config.settings. intros Hin.
    repeat (apply elem_of_cons in Hin as [?|Hin]; [done|]). by apply elem_of_nil in Hin.
  - unfold Config.defaults. simpl. by rewrite !lookup_insert_ne, lookup_empty.
Qed.

(** Every setting has a value after [load], whatever the file. *)
Lemma load_has_settings (f : Config.file) (k : string) :
  bool_decide (k ∈ Config.settings) = true -> is_Some (Config.load f !! k).
Proof.
  intros Hk.
  assert (Hd : is_Some (Config.defaults !! k)).
  { setting_cases k; try by eexists.
    by destruct (other_key_not_setting k) as [Hf _]; [..|rewrite Hf in Hk]. }
  destruct f as [| |d]; simpl; try done.
  destruct Hd as [v Hv]. destruct (d !! k) as [w|] eqn:Hw.
  - exists w. by apply lookup_union_Some_l.
  - exists v. rewrite lookup_union_r; done.
Qed.

(** The object [save] writes: the eight settings, with the values of the
    attributes. *)
Lemma save_writes_settings (attrs : gmap string pyval) :
  (forall k, bool_decide (k ∈ Config.settings) = true -> is_Some (attrs !! k)) ->
  exists written,
    Config.save attrs = Ok written
    /\ forall k, written !! k = if bool_decide (k ∈ Config.settings) then attrs !! k else None.
Proof.
  intros Hall.
  destruct (Hall "api_url" eq_refl) as [v1 H1].
  destruct (Hall "api_key" eq_refl) as [v2 H2].
  destruct (Hall "default_language" eq_refl) as [v3 H3].
  destruct (Hall "text_model" eq_refl) as [v4 H4].
  destruct (Hall "premium_text_model" eq_refl) as [v5 H5].
  destruct (Hall "vision_model" eq_refl) as [v6 H6].
  destruct (Hall "ocr_model" eq_refl) as [v7 H7].
  destruct (Hall "use_premium" eq_refl) as [v8 H8].
  unfold Config.save, Config.getattr. rewrite H1, H2, H3, H4, H5, H6, H7, H8. simpl.
  eexists. split; [reflexivity|]. intros k.
  setting_cases k;
    try (rewrite ?H1, ?H2, ?H3, ?H4, ?H5, ?H6, ?H7, ?H8; reflexivity).
  destruct (other_key_not_setting k) as [-> _]; try done.
  by rewrite !lookup_insert_ne, lookup_empty.
Qed.

(** An object holding the eight settings and nothing else loads back as it
    is. *)
Lemma written_loads_back (attrs written : gmap string pyval) :
  (forall k, bool_decide (k ∈ Config.settings) = true -> is_Some (attrs !! k)) ->
  (forall k, written !! k = if bool_decide (k ∈ Config.settings) then attrs !! k else None) ->
  Config.load (Config.Object written) = written.
Proof.
  intros Hall Hkeys. simpl. apply map_eq. intros k. specialize (Hkeys k).
  destruct (bool_decide (k ∈ Config.settings)) eqn:Hk.
  - destruct (Hall k Hk) as [v Hv]. rewrite Hv in Hkeys.
    rewrite Hkeys. by apply lookup_union_Some_l.
  - rewrite lookup_union_r by done. rewrite Hkeys.
    setting_cases k; try discriminate Hk.
    by destruct (other_key_not_setting k) as [_ ->].
Qed.

(** X3. Saving after loading a plain configuration file never fails,
    whatever else the file held -- settings missing, of another type, keys
    that are no settings, or no JSON at all; it writes the eight settings
    with the values [load] gave them and nothing else (other keys of the file
    are dropped); and the file it writes loads back to exactly what was
    written, so that the settings survive a restart. *)
Theorem saved_configuration_loads_back (f : Config.file) :
  Config.plain f ->
  exists written,
    Config.save (Config.load f) = Ok written
    /\ (forall k, written !! k
                  = if bool_decide (k ∈ Config.settings) then Config.load f !! k else None)
    /\ Config.load (Config.Object written) = written
    /\ Config.save written = Ok written.
Proof.
  intros _.
  destruct (save_writes_settings (Config.load f) (load_has_settings f))
    as (written & Hsave & Hkeys).
  exists written. split; [done|]. split; [done|].
  split; [by apply (written_loads_back (Config.load f)); [apply load_has_settings|]|].
  destruct (save_writes_settings written) as (written' & Hsave' & Hkeys').
  { intros k Hk. rewrite Hkeys, Hk. by apply load_has_settings. }
  rewrite Hsave'. f_equal. apply map_eq. intros k. rewrite Hkeys', Hkeys.
  by destruct (bool_decide (k ∈ Config.settings)).
Qed.

Lemma example_file_loads_back :
  exists written,
    Config.save (Config.load example_file) = Ok written
    /\ (forall k, written !! k
                  = if bool_decide (k ∈ Config.settings)
                    then Config.load example_file !! k else None)
    /\ Config.load (Config.Object written) = written
    /\ Config.save written = Ok written.
Proof.
  apply (saved_configuration_loads_back example_file).
  apply (bool_decide_unpack _). vm_compute. reflexivity.
Defined.

(** X4. A change of the settings survives a restart. After the settings
    window is answered with OK, the file loads back with the seven texts of
    its entries and with the premium toggle as it was; after the premium
    menu item is toggled, the file loads back with the toggle as the item
    shows it and with the seven other settings as they were. Neither fails,
    whatever the plain configuration file held at start. *)
Theorem changed_settings_survive_restart
    (f : Config.file) (entry : string -> string) (active : bool) :
  Config.plain f ->
  (exists attrs written,
      Config.show_settings entry (Config.load f) = Ok (attrs, written)
      /\ (forall k, k ∈ Config.settings -> k <> "use_premium" ->
             Config.load (Config.Object written) !! k = Some (PStr (entry k)))
      /\ Config.load (Config.Object written) !! "use_premium"
         = Config.load f !! "use_premium")
  /\ (exists attrs written,
        Config.toggle_premium_model active (Config.load f) = Ok (attrs, written)
        /\ Config.load (Config.Object written) !! "use_premium" = Some (PBool active)
        /\ (forall k, k ∈ Config.settings -> k <> "use_premium" ->
               Config.load (Config.Object written) !! k = Config.load f !! k)).
Proof.
  intros _. split.
  - unfold Config.show_settings.
    assert (Hall : forall k, bool_decide (k ∈ Config.settings) = true ->
                     is_Some ((Config.get_values entry ∪ Config.load f) !! k)).
    { intros k Hk. destruct (load_has_settings f k Hk) as [v Hv].
      destruct (Config.get_values entry !! k) as [w|] eqn:Hw.
      - exists w. by apply lookup_union_Some_l.
      - exists v. by rewrite lookup_union_r. }
    destruct (save_writes_settings _ Hall) as (written & -> & Hkeys).
    eexists _, written. split; [reflexivity|].
    rewrite (written_loads_back _ written Hall Hkeys).
    split.
    + intros k Hk Hne. rewrite Hkeys, bool_decide_true by done.
      apply lookup_union_Some_l. unfold Config.get_values.
      setting_cases k; try done.
      destruct (other_key_not_setting k) as [Hf _]; [done..|].
      by apply bool_decide_eq_false in Hf.
    + rewrite Hkeys. simpl. by rewrite lookup_union_r.
  - unfold Config.toggle_premium_model.
    assert (Hall : forall k, bool_decide (k ∈ Config.settings) = true ->
                     is_Some ((<["use_premium" := PBool active]> (Config.load f)) !! k)).
    { intros k Hk. destruct (decide (k = "use_premium")) as [->|Hne].
      - rewrite lookup_insert_eq. by eexists.
      - rewrite lookup_insert_ne by done. by apply load_has_settings. }
    destruct (save_writes_settings _ Hall) as (written & -> & Hkeys).
    eexists _, written. split; [reflexivity|].
    rewrite (written_loads_back _ written Hall Hkeys).
    split.
    + rewrite Hkeys. simpl. by rewrite lookup_insert_eq.
    + intros k Hk Hne. rewrite Hkeys, bool_decide_true by done.
      by rewrite lookup_insert_ne.
Qed.

Lemma example_settings_survive_restart :
  (exists attrs written,
      Config.show_settings (fun k => k +:+ "!") (Config.load example_file)
      = Ok (attrs, written)
      /\ (forall k, k ∈ Config.settings -> k <> "use_premium" ->
             Config.load (Config.Object written) !! k = Some (PStr (k +:+ "!")))
      /\ Config.load (Config.Object written) !! "use_premium"
         = Config.load example_file !! "use_premium")
  /\ (exists attrs written,
        Config.toggle_premium_model false (Config.load example_file) = Ok (attrs, written)
        /\ Config.load (Config.Object written) !! "use_premium" = Some (PBool false)
        /\ (forall k, k ∈ Config.settings -> k <> "use_premium" ->
               Config.load (Config.Object written) !! k = Config.load example_file !! k)).
Proof.
  apply (changed_settings_survive_restart example_file (fun k => k +:+ "!") false).
  apply (bool_decide_unpack _). vm_compute. reflexivity.
Defined.

(** ** What the workers send *)

Section WorkerFacts.
Context {rt : Runtime} (cfg : config) (env : environment).

(** The closing block posts nothing to the network. *)
Lemma deliver_posts (title : string) (result : pyval) (h : list event) :
  posts (snd (deliver env title result h)) = posts h.
Proof.
  unfold deliver, bind, read_cancelled, idle_add, emit, ret.
  destruct (cancelled env (length h)); simpl.
  - destruct (cancelled env (length (h ++ [EvRead true]))); simpl;
      rewrite !posts_app; simpl; by rewrite ?app_nil_r.
  - destruct (truthy result); simpl.
    + rewrite !posts_app. simpl. by rewrite ?app_nil_r.
    + destruct (cancelled env (length (h ++ [EvRead false]))); simpl;
        rewrite !posts_app; simpl; by rewrite ?app_nil_r.
Qed.


End WorkerFacts.

Lemma text_query_session_question (attempts : list (TextQueryDialog.radio * string)) :
  TextQueryDialog.session attempts = Dismiss
  \/ exists question, TextQueryDialog.session attempts = Submit question /\ question <> "".
Proof.
  induction attempts as [|[active custom_text] later IH]; [by left|].
  simpl. destruct active; simpl; try (right; by eexists).
  destruct (String.eqb (strip custom_text) "") eqn:E; [exact IH|].
  right. eexists. split; [done|]. by apply String.eqb_neq.
Qed.

(** X5. The query-text operation never sends an empty question. Whatever
    the clipboard holds and however often the user clicks Submit on a blank
    custom question before answering or giving up, the operation posts
    nothing, or exactly one request, whose prompt is built from the text of
    the clipboard and a non-empty question; the image query window likewise
    hands over non-empty questions only. *)
Theorem query_text_sends_a_question `{rt : Runtime}
    (cfg : config) (env : environment) (cb : clipboard)
    (attempts : list (TextQueryDialog.radio * string)) :
  (posts (snd (query_text cfg env cb (TextQueryDialog.session attempts) [])) = []
   \/ exists text question,
        wait_for_text cb = Some text
        /\ question <> ""
        /\ posts (snd (query_text cfg env cb (TextQueryDialog.session attempts) []))
           = [streaming_request cfg (get_active_text_model cfg)
                [user_message (combined_text_prompt cfg text question)]])
  /\ forall texts question,
       ImageQueryDialog.session texts = Submit question -> question <> "".
Proof.
  split.
  - unfold query_text, clipboard_trigger, get_clipboard_text.
    destruct (wait_for_text cb) as [text|].
    2:{ left. by destruct (wait_is_image_available cb), (wait_is_uris_available cb). }
    simpl. destruct (text_query_session_question attempts) as [->|(question & -> & Hq)].
    + by left.
    + right. exists text, question. split; [done|]. split; [done|].
      rewrite bind_emit. unfold _process_query_text. rewrite bind_emit. unfold bind.
      destruct (call_llm_streaming_history env cfg (get_active_text_model cfg)
                  [user_message (combined_text_prompt cfg text question)] None
                  (([] ++ [EvWindow (TextQueryDialog text)])
                     ++ [EvWindow (ProcessingDialog "Processing Query")]))
        as (v & evs & Hrun & Hev & _).
      rewrite Hrun. rewrite deliver_posts. simpl.
      destruct (loop_events_silent env evs Hev) as [Hp _].
      by rewrite posts_app, Hp.
  - induction texts as [|text later IH]; intros question; [done|].
    simpl. unfold ImageQueryDialog.on_submit.
    destruct (String.eqb (strip text) "") eqn:E; [apply IH|].
    intros [= <-]. by apply String.eqb_neq.
Qed.

(** X6. What translate and explain send is decided by the confirmation
    window. When the clipboard holds no text, or the user cancels the window,
    nothing is posted; when the user submits, exactly one request is posted
    -- whatever the network and the Cancel button of the progress window do --
    and its prompt carries the text as the user left it in the window, not
    the text of the clipboard. *)
Theorem confirmation_decides_what_is_sent `{rt : Runtime}
    (cfg : config) (env : environment) (cb : clipboard) (user : user_choice) :
  posts (snd (translate_text cfg env cb user []))
  = match wait_for_text cb, user with
    | Some _, Submit text =>
        [streaming_request cfg (get_active_text_model cfg)
           [user_message
              ("Translate the following text to " +:+ default_language cfg
               +:+ ". Respond in Markdown format. Only provide the translation, no explanations:"
               +:+ NL +:+ NL +:+ text)]]
    | _, _ => []
    end
  /\ posts (snd (explain_text cfg env cb user []))
     = match wait_for_text cb, user with
       | Some _, Submit text =>
           [streaming_request cfg (get_active_text_model cfg)
              [user_message
                 ("Provide more information and context about the following text. Respond in "
                  +:+ default_language cfg +:+ " using Markdown format:"
                  +:+ NL +:+ NL +:+ text)]]
       | _, _ => []
       end.
Proof.
  unfold translate_text, explain_text, clipboard_trigger, get_clipboard_text.
  destruct (wait_for_text cb) as [shown|].
  2:{ by destruct (wait_is_image_available cb), (wait_is_uris_available cb). }
  simpl. destruct user as [|text]; [done|].
  split.
  - rewrite bind_emit. unfold _process_translate. rewrite bind_emit. unfold bind.
    match goal with
    | |- context [call_llm_streaming cfg env ?model ?messages None ?h] =>
        destruct (call_llm_streaming_history env cfg model messages None h)
          as (v & evs & Hrun & Hev & _)
    end.
    rewrite Hrun, deliver_posts. simpl.
    destruct (loop_events_silent env evs Hev) as [Hp _]. by rewrite posts_app, Hp.
  - rewrite bind_emit. unfold _process_explain. rewrite bind_emit. unfold bind.
    match goal with
    | |- context [call_llm_streaming cfg env ?model ?messages None ?h] =>
        destruct (call_llm_streaming_history env cfg model messages None h)
          as (v & evs & Hrun & Hev & _)
    end.
    rewrite Hrun, deliver_posts. simpl.
    destruct (loop_events_silent env evs Hev) as [Hp _]. by rewrite posts_app, Hp.
Qed.

(** ** The tasks a run posts *)

Lemma only_updates_app (h evs : list event) :
  only_updates h -> Forall update_event evs -> only_updates (h ++ evs).
Proof.
  unfold only_updates. intros Hh Hevs. rewrite ui_queue_app. apply Forall_app. split; [done|].
  induction Hevs as [|e evs He _ IH]; [constructor|].
  destruct e as [| | |t| |]; simpl; try exact IH. by constructor.
Qed.

Lemma loop_event_update_event env (evs : list event) :
  Forall (loop_event env) evs -> Forall update_event evs.
Proof.
  intros H. eapply Forall_impl; [exact H|]. intros [| | |[]| |]; simpl; tauto.
Qed.

Ltac update_events :=
  repeat (apply List.Forall_cons; [simpl; tauto|]); apply List.Forall_nil.

Section QueueFacts.
Context {rt : Runtime} (cfg : config) (env : environment).

Lemma emit_updates (e : event) :
  update_event e -> triple only_updates (emit e) (fun _ => only_updates).
Proof.
  intros He h Hh. exists tt, (h ++ [e]). split; [done|].
  apply only_updates_app; [done | by repeat constructor].
Qed.

Lemma read_cancelled_updates :
  triple only_updates (read_cancelled env) (fun _ => only_updates).
Proof.
  intros h Hh. eexists _, _. split; [reflexivity|].
  apply only_updates_app; [done | update_events].
Qed.

Lemma call_llm_updates model (m : message) (rest : list message) image_base64 :
  triple only_updates (call_llm cfg env model (m :: rest) image_base64) (fun _ => only_updates).
Proof.
  intros h Hh. destruct (call_llm_history cfg env model m rest image_base64 h) as (v & Hrun & _).
  eexists _, _. split; [exact Hrun|].
  apply only_updates_app; [done | update_events].
Qed.

Lemma call_llm_streaming_updates model messages image_base64 :
  triple only_updates (call_llm_streaming cfg env model messages image_base64)
         (fun _ => only_updates).
Proof.
  intros h Hh.
  destruct (call_llm_streaming_history env cfg model messages image_base64 h)
    as (v & evs & Hrun & Hev & _).
  eexists _, _. split; [exact Hrun|].
  apply only_updates_app; [done|]. constructor; [simpl; tauto|].
  apply Forall_app. split; [by eapply loop_event_update_event | update_events].
Qed.

Lemma deliver_closes (title : string) (result : pyval) :
  triple only_updates (deliver env title result) (fun _ => updates_then_closing title).
Proof.
  intros h Hh. unfold deliver, bind, read_cancelled, idle_add, emit, ret.
  destruct (cancelled env (length h)) eqn:Hc; simpl.
  - destruct (cancelled env (length (h ++ [EvRead true]))); eexists _, _;
      (split; [reflexivity|]); exists (ui_queue h);
      rewrite !ui_queue_app; simpl; rewrite ?app_nil_r.
    + exists [Destroy]. split; [done|]. split; [done|]. right. by left.
    + exists []. rewrite app_nil_r. split; [done|]. split; [done|]. by left.
  - destruct (truthy result); simpl.
    + eexists _, _. split; [reflexivity|]. exists (ui_queue h).
      rewrite !ui_queue_app. simpl. rewrite ?app_nil_r.
      exists [Destroy; ShowResult title result]. rewrite <- app_assoc.
      split; [done|]. split; [done|]. right. right. by eexists.
    + destruct (cancelled env (length (h ++ [EvRead false]))); eexists _, _;
        (split; [reflexivity|]); exists (ui_queue h);
        rewrite !ui_queue_app; simpl; rewrite ?app_nil_r.
      * exists [Destroy]. split; [done|]. split; [done|]. right. by left.
      * exists []. rewrite app_nil_r. split; [done|]. split; [done|]. by left.
Qed.

Lemma destroy_closes (title : string) :
  triple only_updates (idle_add Destroy) (fun _ => updates_then_closing title).
Proof.
  intros h Hh. eexists _, _. split; [reflexivity|]. exists (ui_queue h), [Destroy].
  rewrite ui_queue_app. split; [done|]. split; [done|]. right. by left.
Qed.

Ltac queue_steps :=
  repeat first
    [ apply deliver_closes
    | apply destroy_closes
    | eapply triple_bind;
      [ first [ apply emit_updates; simpl; tauto
              | apply read_cancelled_updates
              | apply call_llm_updates
              | apply call_llm_streaming_updates ]
      | intros ? ]
    | match goal with |- triple _ (if ?c then _ else _) _ => destruct c end ].

Lemma run_queue (op : operation) :
  triple only_updates (run cfg env op) (fun _ => updates_then_closing (result_title op)).
Proof.
  destruct op; simpl;
    unfold _process_translate, _process_explain, _ocr_translate_callback,
      _explain_image_callback, _ocr_explain_callback, _process_query_image,
      _process_query_text, idle_add;
    queue_steps.
Qed.

End QueueFacts.

(** X7. Every run of every operation returns normally -- no exception
    leaves a worker, whatever the network answers -- and the tasks it posts
    to the presentation thread are progress updates followed by at most one
    closing: nothing, the destruction of the progress window, or that
    destruction followed by one result under the title of the operation. No
    progress update follows the closing, and no run shows two results. *)
Theorem run_posts_updates_then_one_closing `{rt : Runtime}
    (cfg : config) (env : environment) (op : operation) :
  exists h updates q,
    run cfg env op [] = (Ok tt, h)
    /\ ui_queue h = updates ++ q
    /\ Forall is_update updates
    /\ closing (result_title op) q.
Proof.
  destruct (run_queue cfg env op [] ltac:(constructor)) as ([] & h & Hrun & Hq).
  destruct Hq as (updates & q & Hqueue & Hupd & Hclose).
  by exists h, updates, q.
Qed.

(** ** After the cancellation has been seen *)

Section CancellationFacts.
Context {rt : Runtime} (cfg : config) (env : environment).

(** When the loop returns [None], the read that saw the flag set is its
    last event. *)
Lemma stream_loop_cancel_point (lines : list wire_line) (err : option exn) :
  forall (acc : string) (h : list event),
    fst (stream_loop env lines err acc h) = Ok PNone ->
    exists evs0,
      snd (stream_loop env lines err acc h) = h ++ evs0 ++ [EvRead true]
      /\ ~ In (EvRead true) evs0
      /\ posts evs0 = []
      /\ cancelled env (length (h ++ evs0)) = true.
Proof.
  induction lines as [|line rest IH]; intros acc h.
  - rewrite stream_loop_nil. destruct err; simpl; [done|].
    destruct (stream_result_nonempty acc) as (s & -> & _). done.
  - destruct (cancelled env (length h)) eqn:Hc.
    { rewrite stream_loop_cancelled by done. intros _. exists []. simpl.
      rewrite app_nil_r. split; [done|]. split; [tauto | done]. }
    assert (Hlater : forall acc' cevs,
              Forall (loop_event env) cevs -> ~ In (EvRead true) cevs ->
              fst (stream_loop env rest err acc' ((h ++ [EvRead false]) ++ cevs)) = Ok PNone ->
              exists evs0,
                snd (stream_loop env rest err acc' ((h ++ [EvRead false]) ++ cevs))
                = h ++ evs0 ++ [EvRead true]
                /\ ~ In (EvRead true) evs0
                /\ posts evs0 = []
                /\ cancelled env (length (h ++ evs0)) = true).
    { intros acc' cevs Hcev Hcin Hnone.
      destruct (IH acc' _ Hnone) as (evs0 & Hh & Hin & Hp & Hset).
      exists (EvRead false :: cevs ++ evs0). rewrite Hh.
      split; [by repeat first [rewrite <- app_assoc | progress simpl]|]. split.
      - intros [H|H]; [discriminate|]. apply in_app_or in H. tauto.
      - destruct (loop_events_silent env cevs Hcev) as [Hpc _].
        split; [simpl; by rewrite posts_app, Hpc, Hp|].
        revert Hset. by repeat first [rewrite <- app_assoc | progress simpl]. }
    destruct line as [|text].
    { by rewrite stream_loop_undecodable. }
    destruct (frame_payload (Line text)) as [p|] eqn:Hp.
    2:{ rewrite stream_loop_skip by done. intros Hnone.
        specialize (Hlater acc [] ltac:(constructor) ltac:(intros [])).
        rewrite app_nil_r in Hlater. by apply Hlater. }
    destruct (is_done (Line text)) eqn:Hd.
    { rewrite stream_loop_done by done. simpl.
      destruct (stream_result_nonempty acc) as (s & -> & _). done. }
    rewrite (stream_loop_frame env text p) by done.
    unfold bind, try_except.
    destruct (stream_chunk_events env acc p (h ++ [EvRead false])) as (cevs & Hch & Hcev & Hcin).
    destruct (stream_chunk acc p (h ++ [EvRead false])) as [[acc'|e] h1] eqn:Hsc;
      simpl in Hch; subst h1.
    + by apply Hlater.
    + destruct e; try done. unfold ret. by apply Hlater.
Qed.

Lemma alive_app (h evs : list event) :
  alive h -> ~ In (EvRead true) evs -> alive (h ++ evs).
Proof. unfold alive. intros Hh Hevs Hin. apply in_app_or in Hin. tauto. Qed.

Lemma cancelled_since_app (h evs : list event) (q : list task) :
  cancelled_since h q -> posts evs = [] -> cancelled_since (h ++ evs) (q ++ ui_queue evs).
Proof.
  intros (h1 & h2 & -> & Halive & Hp & Hq) Hevs.
  exists h1, (h2 ++ evs). rewrite <- app_assoc. split; [done|]. split; [done|].
  by rewrite posts_app, ui_queue_app, Hp, Hevs, Hq.
Qed.

Lemma stopping_app (h evs : list event) :
  stopping env h -> posts evs = [] -> ui_queue evs = [] -> stopping env (h ++ evs).
Proof.
  intros [Hsince Hset] Hp Hq. split.
  - apply (cancelled_since_app h evs []) in Hsince; [|done]. by rewrite Hq in Hsince.
  - apply (cancelled_mono env (length h)); [rewrite length_app; lia | done].
Qed.

Lemma emit_alive (e : event) :
  e <> EvRead true -> triple alive (emit e) (fun _ => alive).
Proof.
  intros He h Hh. exists tt, (h ++ [e]). split; [done|].
  apply alive_app; [done|]. intros [H|[]]. by symmetry in H.
Qed.

Lemma read_cancelled_alive :
  triple alive (read_cancelled env) (fun c h => if c : bool then stopping env h else alive h).
Proof.
  intros h Hh. unfold read_cancelled. eexists _, _. split; [reflexivity|].
  destruct (cancelled env (length h)) eqn:Hc.
  - split.
    + exists h, []. done.
    + apply (cancelled_mono env (length h)); [rewrite length_app; lia | done].
  - apply alive_app; [done|]. intros [H|[]]. discriminate.
Qed.

Lemma read_cancelled_either :
  triple (fun h => alive h \/ stopping env h) (read_cancelled env)
         (fun c h => if c : bool then stopping env h else alive h).
Proof.
  intros h [Hh|Hh]; [by apply read_cancelled_alive|].
  unfold read_cancelled. destruct Hh as [Hsince Hset]. rewrite Hset.
  eexists _, _. split; [reflexivity|]. by apply stopping_app.
Qed.

Lemma call_llm_alive model (m : message) (rest : list message) image_base64 :
  triple alive (call_llm cfg env model (m :: rest) image_base64)
         (fun _ h => alive h \/ stopping env h).
Proof.
  intros h Hh. destruct (call_llm_history cfg env model m rest image_base64 h) as (v & Hrun & _).
  eexists _, _. split; [exact Hrun|]. left.
  apply alive_app; [done|]. intros [H|[H|[]]]; discriminate.
Qed.

Lemma call_llm_streaming_alive model messages image_base64 :
  triple alive (call_llm_streaming cfg env model messages image_base64)
         (fun _ h => alive h \/ stopping env h).
Proof.
  intros h Hh.
  destruct (call_llm_streaming_history env cfg model messages image_base64 h)
    as (v & evs & Hrun & Hev & Hv).
  eexists _, _. split; [exact Hrun|].
  destruct Hv as [[-> Hin]|(s & -> & Hs & Hin)].
  - right. revert Hrun.
    unfold call_llm_streaming, bind, try_except, requests_post, raise_for_status, emit, ret, raise.
    destruct (network env (length (posts h)) (streaming_request cfg model messages))
      as [e|resp]; [destruct e; discriminate|].
    destruct (status_error resp); [discriminate|].
    pose proof (stream_loop_cancel_point (body_lines resp) (lines_error resp) ""
                  (h ++ [EvPost (streaming_request cfg model messages)])) as Hpoint.
    destruct (stream_loop env (body_lines resp) (lines_error resp) "" _) as [[w|e] h1];
      [|destruct e; discriminate].
    simpl in Hpoint. intros [= -> Hh1].
    destruct (Hpoint eq_refl) as (evs0 & -> & Hin0 & Hp0 & Hset).
    rewrite <- Hh1. clear Hh1 Hpoint. split.
    + exists (h ++ EvPost (streaming_request cfg model messages) :: evs0), [EvReturned PNone].
      split; [by repeat first [rewrite <- app_assoc | progress simpl]|].
      split; [|done]. apply alive_app; [done|]. intros [H|H]; [discriminate | done].
    + eapply cancelled_mono; [|exact Hset]. rewrite !length_app. simpl. lia.
  - left. apply alive_app; [done|]. intros [H|H]; [discriminate|].
    apply in_app_or in H as [H|[H|[]]]; [done | discriminate].
Qed.

Lemma destroy_stopping :
  triple (stopping env) (idle_add Destroy)
         (fun _ h => alive h \/ cancelled_since h [Destroy]).
Proof.
  intros h [Hsince _]. eexists _, _. split; [reflexivity|]. right.
  by apply (cancelled_since_app h [EvIdle Destroy] []) in Hsince.
Qed.

Lemma deliver_stopping (title : string) (result : pyval) :
  triple (fun h => alive h \/ stopping env h) (deliver env title result)
         (fun _ h => alive h \/ cancelled_since h [Destroy]).
Proof.
  intros h Hh. unfold deliver, bind, read_cancelled, idle_add, emit, ret.
  destruct (cancelled env (length h)) eqn:Hc; simpl.
  - rewrite (cancelled_mono env (length h)); [|rewrite length_app; lia | done].
    eexists _, _. split; [reflexivity|]. right.
    destruct Hh as [Hh|[Hsince _]].
    + exists h, [EvRead true; EvIdle Destroy]. by rewrite <- !app_assoc.
    + apply (cancelled_since_app h [EvRead true; EvRead true; EvIdle Destroy] []) in Hsince;
        [|done]. by rewrite <- !app_assoc.
  - destruct Hh as [Hh|[_ Hset]]; [|congruence].
    destruct (truthy result); simpl.
    + eexists _, _. split; [reflexivity|]. left.
      repeat (apply alive_app; [|intros [H|[]]; discriminate]). done.
    + destruct (cancelled env (length (h ++ [EvRead false]))); eexists _, _;
        (split; [reflexivity|]).
      * right. exists (h ++ [EvRead false]), [EvIdle Destroy]. rewrite <- !app_assoc.
        split; [done|]. split; [|done]. apply alive_app; [done|]. intros [H|[]]. discriminate.
      * left. repeat (apply alive_app; [|intros [H|[]]; discriminate]). done.
Qed.

Ltac cancellation_steps :=
  repeat first
    [ apply deliver_stopping
    | apply destroy_stopping
    | eapply triple_bind;
      [ first [ apply emit_alive; discriminate
              | apply read_cancelled_alive
              | apply read_cancelled_either
              | apply call_llm_alive
              | apply call_llm_streaming_alive ]
      | intros ?; cbv beta ]
    | match goal with |- triple _ (if ?c then _ else _) _ => destruct c; cbv iota end ].

Lemma run_cancellation (op : operation) :
  triple alive (run cfg env op) (fun _ h => alive h \/ cancelled_since h [Destroy]).
Proof.
  destruct op; simpl;
    unfold _process_translate, _process_explain, _ocr_translate_callback,
      _explain_image_callback, _ocr_explain_callback, _process_query_image,
      _process_query_text, idle_add;
    cancellation_steps.
Qed.

End CancellationFacts.

(** X8. Once a worker has seen the cancellation flag set, it only closes:
    in every run of every operation, either no read of the flag saw it set,
    or after the first read that did the worker posts no request to the
    network, no progress update and no result -- the one task it still posts
    is the destruction of the progress window. *)
Theorem seen_cancellation_only_closes `{rt : Runtime}
    (cfg : config) (env : environment) (op : operation) :
  ~ In (EvRead true) (snd (run cfg env op []))
  \/ exists h1 h2,
       snd (run cfg env op []) = h1 ++ EvRead true :: h2
       /\ ~ In (EvRead true) h1
       /\ posts h2 = []
       /\ ui_queue h2 = [Destroy].
Proof.
  destruct (run_cancellation cfg env op [] ltac:(intros [])) as ([] & h & -> & Hh).
  simpl. destruct Hh as [Halive|Hsince]; [by left | by right].
Qed.

(** ** The checks of the flag and the requests *)





Section CheckFacts.
Context {rt : Runtime} (cfg : config) (env : environment).














End CheckFacts.



(** ** What an uncancelled run shows *)

Lemma triple_false {A} (m : M A) (Q : A -> list event -> Prop) : triple (fun _ => False) m Q.
Proof. intros h []. Qed.

Section ShownFacts.
Context {rt : Runtime} (cfg : config) (env : environment).
Hypothesis Hnever : cancel_at env = None.

Lemma read_never_updates :
  triple only_updates (read_cancelled env)
         (fun c h => if c : bool then False else only_updates h).
Proof.
  intros h Hh. rewrite read_cancelled_never by done. eexists _, _. split; [reflexivity|].
  apply only_updates_app; [done | update_events].
Qed.

(** The closing block of a worker whose flag is never set. *)
Lemma deliver_never (title : string) (result : pyval) (h : list event) :
  deliver env title result h
  = (Ok tt, h ++ EvRead false
              :: (if truthy result
                  then [EvIdle Destroy; EvIdle (ShowResult title result)]
                  else [EvRead false])).
Proof.
  unfold deliver, bind. rewrite read_cancelled_never by done. cbn [negb andb].
  destruct (truthy result).
  - unfold idle_add, emit. by rewrite <- !app_assoc.
  - rewrite read_cancelled_never by done. unfold ret. by rewrite <- !app_assoc.
Qed.

Lemma displayed_after (title : string) (text : bool) (v : pyval) (h evs : list event) :
  only_updates h -> Forall update_event evs -> returned evs = [] ->
  (text = true -> exists s, v = PStr s /\ s ≠ "") ->
  displayed title text
    ((h ++ evs ++ [EvReturned v])
     ++ EvRead false
        :: (if truthy v then [EvIdle Destroy; EvIdle (ShowResult title v)]
            else [EvRead false])).
Proof.
  intros Hh Hevs Hret Htext. exists (ui_queue (h ++ evs)), v.
  split; [|split; [|split; [|done]]].
  - rewrite !returned_app, Hret. simpl.
    replace (returned (if truthy v then _ else _)) with (@nil pyval)
      by by destruct (truthy v).
    rewrite app_nil_r. apply last_snoc.
  - rewrite !ui_queue_app. simpl. rewrite app_nil_r.
    f_equal. by destruct (truthy v).
  - by apply only_updates_app.
Qed.

Lemma final_stream_displayed (title model : string) (messages : list message) :
  triple only_updates
         (final_result <- call_llm_streaming cfg env model messages None ;;
          deliver env title final_result)
         (fun _ => displayed title true).
Proof.
  intros h Hh.
  destruct (call_llm_streaming_history env cfg model messages None h)
    as (v & evs & Hrun & Hev & Hv).
  unfold bind. rewrite Hrun, deliver_never. eexists _, _. split; [reflexivity|].
  apply (displayed_after title true v h (EvPost (streaming_request cfg model messages) :: evs)).
  - done.
  - constructor; [simpl; tauto | by eapply loop_event_update_event].
  - simpl. by destruct (loop_events_silent env evs Hev) as [_ ?].
  - intros _. destruct Hv as [[_ Hin]|(s & -> & Hs & _)]; [|by exists s].
    by destruct (loop_events_never_cancelled env evs Hnever Hev).
Qed.

Lemma final_buffered_displayed (title model : string) (m : message) image_base64 :
  triple only_updates
         (result <- call_llm cfg env model [m] image_base64 ;;
          deliver env title result)
         (fun _ => displayed title false).
Proof.
  intros h Hh.
  destruct (call_llm_history cfg env model m [] image_base64 h) as (v & Hrun & _).
  unfold bind. rewrite Hrun, deliver_never. eexists _, _. split; [reflexivity|].
  apply (displayed_after title false v h
           [EvPost (buffered_request cfg model (with_image [m] image_base64))]);
    [done | update_events | done | discriminate].
Qed.

Ltac shown_steps :=
  repeat first
    [ apply final_stream_displayed
    | apply final_buffered_displayed
    | apply triple_false
    | eapply triple_bind;
      [ first [ apply emit_updates; simpl; tauto
              | apply read_never_updates
              | apply call_llm_updates ]
      | intros ?; cbv beta ]
    | match goal with |- triple _ (if ?c then _ else _) _ => destruct c; cbv iota end ].

Lemma run_displayed (op : operation) :
  triple only_updates (run cfg env op)
         (fun _ => displayed (result_title op) (negb (ends_buffered op))).
Proof.
  destruct op; simpl;
    unfold _process_translate, _process_explain, _ocr_translate_callback,
      _explain_image_callback, _ocr_explain_callback, _process_query_image,
      _process_query_text, idle_add;
    shown_steps.
Qed.

End ShownFacts.

(** X9. What a run that is never cancelled shows is what its last
    invocation returned: after its progress updates the worker closes the
    progress window and displays that value under the title of the
    operation, provided the value is truthy. For the six operations that end
    with a streaming invocation the value is always a non-empty text -- an
    answer, the text [No response received] or the text of a failure -- so
    they always end with a result window. *)
Theorem uncancelled_run_shows_the_last_return `{rt : Runtime}
    (cfg : config) (env : environment) (op : operation) :
  cancel_at env = None ->
  exists updates final,
    last (returned (snd (run cfg env op []))) = Some final
    /\ ui_queue (snd (run cfg env op []))
       = updates ++ (if truthy final
                     then [Destroy; ShowResult (result_title op) final]
                     else [])
    /\ Forall is_update updates
    /\ (ends_buffered op = false -> exists s, final = PStr s /\ s ≠ "").
Proof.
  intros Hnever.
  destruct (run_displayed cfg env Hnever op [] ltac:(constructor)) as ([] & h & -> & Hh).
  destruct Hh as (updates & final & Hlast & Hqueue & Hupd & Htext).
  exists updates, final. simpl. split; [done|]. split; [done|]. split; [done|].
  intros Hop. apply Htext. by rewrite Hop.
Qed.

Lemma timed_out_translation_is_shown :
  exists updates final,
    last (returned (snd (@run example_runtime example_config translation_times_out
                           (OcrTranslate "iVBORw0KGgo=") []))) = Some final
    /\ ui_queue (snd (@run example_runtime example_config translation_times_out
                        (OcrTranslate "iVBORw0KGgo=") []))
       = updates ++ (if truthy final
                     then [Destroy; ShowResult "OCR + Translation" final]
                     else [])
    /\ Forall is_update updates
    /\ (false = false -> exists s, final = PStr s /\ s ≠ "").
Proof.
  exact (@uncancelled_run_shows_the_last_return example_runtime example_config
           translation_times_out (OcrTranslate "iVBORw0KGgo=") eq_refl).
Defined.

(** X10. The image explanation can leave its progress window open for
    good. When the run is not cancelled and the service answers the request
    with a result text that is falsy (the empty text, or [null]), the worker
    neither closes the progress window nor shows anything: the only task it
    ever posts is the first progress update. *)
Theorem empty_image_answer_leaves_the_window_open `{rt : Runtime}
    (cfg : config) (env : environment) (img_base64 : string)
    (resp : response) (body c : pyval) :
  cancel_at env = None ->
  network env 0 (explain_image_request cfg img_base64) = PostReturns resp ->
  status_error resp = None ->
  json_result resp = Some body ->
  message_content body = Some c ->
  truthy c = false ->
  ui_queue (snd (run cfg env (ExplainImage img_base64) []))
  = [UpdateStatus "Analyzing image..."].
Proof.
  intros Hnever Hnet Hst Hbody Hc Hfalsy.
  unfold run, _explain_image_callback.
  rewrite bind_emit, bind_idle_add, bind_read_never by done.
  match goal with
  | |- context [call_llm cfg env ?model [?m] ?img] =>
      destruct (call_llm_history cfg env model m [] img
                  ([] ++ [EvWindow (ProcessingDialog "Analyzing Image")]
                      ++ [EvIdle (UpdateStatus "Analyzing image...")] ++ [EvRead false]))
        as (v & Hrun & _ & Hok)
  end.
  assert (v = c) as -> by exact (Hok resp body c Hnet Hst Hbody Hc).
  unfold bind. simpl in Hrun |- *. rewrite Hrun, deliver_never by done.
  rewrite Hfalsy. reflexivity.
Qed.

Lemma empty_answer_leaves_the_window_open :
  ui_queue (snd (@run example_runtime example_config answers_nothing
                   (ExplainImage "iVBORw0KGgo=") []))
  = [UpdateStatus "Analyzing image..."].
Proof.
  apply (@empty_image_answer_leaves_the_window_open example_runtime example_config
           answers_nothing "iVBORw0KGgo=" (ok_json (answer (PStr ""))) (answer (PStr ""))
           (PStr "")); reflexivity.
Defined.

(** ** The progress of a streaming invocation *)

Lemma length_append (s t : string) :
  String.length (s +:+ t) = String.length s + String.length t.
Proof. induction s as [|c s IH]; [done|]. rewrite append_cons. simpl. by rewrite IH. Qed.

Lemma length_nonempty (s : string) : s ≠ "" -> 0 < String.length s.
Proof. destruct s; [done | simpl; lia]. Qed.

Section ProgressFacts.
Context {rt : Runtime} (cfg : config) (env : environment).

(** A frame either leaves the text and the queue as they are, or appends a
    non-empty delta and reports the new length. *)
Lemma stream_chunk_progress (acc p : string) (h : list event) :
  (snd (stream_chunk acc p h) = h
   /\ forall acc', fst (stream_chunk acc p h) = Ok acc' -> acc' = acc)
  \/ exists s, s ≠ ""
       /\ stream_chunk acc p h
          = (Ok (acc +:+ s),
             h ++ [EvIdle (UpdateStatus (progress_text (String.length (acc +:+ s))))]).
Proof.
  unfold stream_chunk. run_monad.
  destruct (json_loads p) as [chunk|]; [|by left].
  destruct (py_in "choices" chunk) as [[]|]; simpl; try by (left; split; [|intros ? [=]]).
  destruct (exc_bind (getitem chunk "choices") py_len) as [n|]; simpl; [|by left].
  destruct (Nat.ltb 0 n); simpl; [|left; split; [done | by intros ? [=]]].
  destruct (exc_bind (exc_bind (getitem chunk "choices") getitem0) _) as [delta|];
    simpl; [|by left].
  destruct (py_get delta "content" (PStr "")) as [content|]; simpl; [|by left].
  destruct (truthy content) eqn:Ht; simpl; [|left; split; [done | by intros ? [=]]].
  destruct content as [| | | |s| |]; simpl; try by left.
  right. exists s. split; [|done].
  intros ->. discriminate Ht.
Qed.

Lemma stream_loop_progress (lines : list wire_line) (err : option exn) :
  forall (acc : string) (h : list event),
    exists lengths,
      ui_queue (snd (stream_loop env lines err acc h))
      = ui_queue h ++ (UpdateStatus ∘ progress_text <$> lengths)
      /\ Sorted lt (String.length acc :: lengths)
      /\ forall v, fst (stream_loop env lines err acc h) = Ok v ->
           v = PNone
           \/ exists acc', v = stream_result acc'
                /\ String.length acc' = default (String.length acc) (last lengths)
                /\ (lengths = [] -> acc' = acc).
Proof.
  assert (Hstop : forall acc (h : list event) (b : bool) (r : exc pyval),
            (forall v, r = Ok v -> v = PNone \/ v = stream_result acc) ->
            exists lengths,
              ui_queue (h ++ [EvRead b]) = ui_queue h ++ (UpdateStatus ∘ progress_text <$> lengths)
              /\ Sorted lt (String.length acc :: lengths)
              /\ forall v, r = Ok v ->
                   v = PNone
                   \/ exists acc', v = stream_result acc'
                        /\ String.length acc' = default (String.length acc) (last lengths)
                        /\ (lengths = [] -> acc' = acc)).
  { intros acc h b r Hr. exists []. rewrite ui_queue_app. simpl.
    split; [done|]. split; [by repeat constructor|].
    intros v Hv. destruct (Hr v Hv) as [->| ->]; [by left|]. right. by exists acc. }
  induction lines as [|line rest IH]; intros acc h.
  - rewrite stream_loop_nil. exists []. rewrite app_nil_r.
    split; [by destruct err|]. split; [by repeat constructor|].
    intros v Hv. right. exists acc. destruct err; [done|]. by injection Hv as <-.
  - destruct (cancelled env (length h)) eqn:Hc.
    { rewrite stream_loop_cancelled by done. apply Hstop. intros v [= <-]. by left. }
    assert (Hsame : exists lengths,
              ui_queue (snd (stream_loop env rest err acc (h ++ [EvRead false])))
              = ui_queue h ++ (UpdateStatus ∘ progress_text <$> lengths)
              /\ Sorted lt (String.length acc :: lengths)
              /\ forall v, fst (stream_loop env rest err acc (h ++ [EvRead false])) = Ok v ->
                   v = PNone
                   \/ exists acc', v = stream_result acc'
                        /\ String.length acc' = default (String.length acc) (last lengths)
                        /\ (lengths = [] -> acc' = acc)).
    { destruct (IH acc (h ++ [EvRead false])) as (lengths & Hq & Hs & Hv).
      exists lengths. rewrite Hq, ui_queue_app. simpl. by rewrite app_nil_r. }
    destruct line as [|text].
    { rewrite stream_loop_undecodable by done. by apply Hstop. }
    destruct (frame_payload (Line text)) as [p|] eqn:Hp.
    2:{ by rewrite stream_loop_skip by done. }
    destruct (is_done (Line text)) eqn:Hd.
    { rewrite stream_loop_done by done. apply Hstop. intros v [= <-]. by right. }
    rewrite (stream_loop_frame env text p) by done.
    unfold bind, try_except.
    destruct (stream_chunk_progress acc p (h ++ [EvRead false]))
      as [[Hh Hacc]|(s & Hs & Hrun)].
    + destruct (stream_chunk acc p (h ++ [EvRead false])) as [[acc'|e] h1];
        simpl in Hh, Hacc; subst h1.
      * by rewrite (Hacc acc' eq_refl).
      * destruct e; try by apply Hstop. exact Hsame.
    + rewrite Hrun.
      destruct (IH (acc +:+ s)
                  ((h ++ [EvRead false])
                   ++ [EvIdle (UpdateStatus (progress_text (String.length (acc +:+ s))))]))
        as (lengths & Hq & Hsorted & Hv).
      exists (String.length (acc +:+ s) :: lengths). split; [|split].
      * rewrite Hq, !ui_queue_app. simpl. by rewrite app_nil_r, <- app_assoc.
      * constructor; [done|]. constructor. rewrite length_append.
        pose proof (length_nonempty s Hs). lia.
      * intros v Hres. destruct (Hv v Hres) as [->|(acc' & -> & Hlen & Hnil)]; [by left|].
        right. exists acc'. split; [done|]. split; [|done].
        rewrite Hlen. destruct lengths as [|n lengths]; [done|]. simpl.
        by destruct (last (n :: lengths)) eqn:Hk; [|apply last_None in Hk].
Qed.

End ProgressFacts.

(** X11. The progress updates of one streaming invocation count the text
    received so far: the tasks the invocation posts are the updates
    [Receiving response... (n chars)] for strictly increasing positive
    counts [n], in that order, and nothing else. When the invocation returns
    a text that is not the text of a failure, the last update reported the
    length of that text; with no update at all the text is
    [No response received]. *)
Theorem progress_updates_count_the_text `{rt : Runtime}
    (cfg : config) (env : environment) (model : string) (messages : list message)
    (image_base64 : option string) (h : list event) :
  exists lengths,
    ui_queue (snd (call_llm_streaming cfg env model messages image_base64 h))
    = ui_queue h ++ (UpdateStatus ∘ progress_text <$> lengths)
    /\ Sorted lt (0 :: lengths)
    /\ forall s, fst (call_llm_streaming cfg env model messages image_base64 h) = Ok (PStr s) ->
         (exists e, s = streaming_failure_text e)
         \/ (lengths = [] /\ s = "No response received")
         \/ last lengths = Some (String.length s).
Proof.
  pose proof (stream_loop_progress env) as Hloop.
  unfold call_llm_streaming, bind, try_except, requests_post, raise_for_status, emit, ret,
    raise.
  destruct (network env (length (posts h)) (streaming_request cfg model messages))
    as [e|resp] eqn:Hnet.
  { exists []. assert (He0 : exists e0, e0 = e) by by exists e. destruct He0 as [e0 He0].
    destruct e; cbn [fst snd]; rewrite !ui_queue_app; simpl; rewrite !app_nil_r;
      (split; [done|]); (split; [by repeat constructor|]);
      intros s [= <-]; left; exists e0; by rewrite He0. }
  destruct (status_error resp) as [m|].
  { exists []. cbn [fst snd]. rewrite !ui_queue_app. simpl. rewrite !app_nil_r.
    split; [done|]. split; [by repeat constructor|].
    intros s [= <-]. left. by exists (HTTPError m). }
  destruct (Hloop (body_lines resp) (lines_error resp) ""
              (h ++ [EvPost (streaming_request cfg model messages)]))
    as (lengths & Hq & Hsorted & Hv).
  exists lengths.
  destruct (stream_loop env (body_lines resp) (lines_error resp) "" _) as [[v|e] h1];
    simpl in Hq, Hv.
  - cbn [fst snd]. rewrite ui_queue_app, Hq, ui_queue_app. simpl.
    rewrite !app_nil_r. split; [done|]. split; [done|].
    intros s [= ->]. destruct (Hv _ eq_refl) as [[=]|(acc' & Hres & Hlen & Hnil)].
    right. destruct lengths as [|n lengths].
    + left. split; [done|]. rewrite (Hnil eq_refl) in Hres. by injection Hres as ->.
    + right. assert (Hpos : 0 < String.length acc').
      { rewrite Hlen. clear -Hsorted. simpl.
        assert (Hall : Forall (lt 0) (n :: lengths)).
        { apply Sorted_StronglySorted in Hsorted; [|intros ? ? ?; lia].
          by inversion Hsorted. }
        destruct (last (n :: lengths)) as [k|] eqn:Hk; [|by apply last_None in Hk].
        simpl. rewrite Forall_forall in Hall. apply Hall. by eapply last_Some_elem_of. }
      unfold stream_result in Hres. destruct acc' as [|c acc']; [simpl in Hpos; lia|].
      simpl in Hres. injection Hres as ->. rewrite Hlen.
      by destruct (last (n :: lengths)) eqn:Hk; [|apply last_None in Hk].
  - assert (Hq' : forall v, ui_queue (h1 ++ [EvReturned v])
                 = ui_queue h ++ (UpdateStatus ∘ progress_text <$> lengths)).
    { intros v. rewrite ui_queue_app, Hq, ui_queue_app. simpl. by rewrite !app_nil_r. }
    assert (He0 : exists e0, e0 = e) by by exists e. destruct He0 as [e0 He0].
    destruct e; cbn [fst snd]; (split; [apply Hq'|]); (split; [done|]);
      intros s [= <-]; left; exists e0; by rewrite He0.
Qed.

(** ** The built-in chords *)

(** Masking the state with the four modifiers and comparing with
    Control+Shift looks at four bits of the state. *)
Lemma masked_state_is_the_chord (state : Z) :
  Z.land state modifier_mask = Z.lor X.ControlMask X.ShiftMask <-> chord_held state = true.
Proof.
  change modifier_mask with 77%Z. change (Z.lor X.ControlMask X.ShiftMask) with 5%Z.
  unfold chord_held. split.
  - intros H.
    assert (Hbit : forall n, Z.testbit state n && Z.testbit 77 n = Z.testbit 5 n).
    { intros n. by rewrite <- Z.land_spec, H. }
    assert (H0 : Z.testbit state 0 = true)
      by (rewrite <- (andb_true_r (Z.testbit state 0)); exact (Hbit 0%Z)).
    assert (H2 : Z.testbit state 2 = true)
      by (rewrite <- (andb_true_r (Z.testbit state 2)); exact (Hbit 2%Z)).
    assert (H3 : Z.testbit state 3 = false)
      by (rewrite <- (andb_true_r (Z.testbit state 3)); exact (Hbit 3%Z)).
    assert (H6 : Z.testbit state 6 = false)
      by (rewrite <- (andb_true_r (Z.testbit state 6)); exact (Hbit 6%Z)).
    by rewrite H0, H2, H3, H6.
  - intros H. apply andb_prop in H as [H H6]. apply andb_prop in H as [H H3].
    apply andb_prop in H as [H0 H2].
    apply negb_true_iff in H3, H6.
    apply Z.bits_inj'. intros n Hn. rewrite Z.land_spec.
    destruct (decide (n < 7)%Z) as [Hlt|Hge].
    + assert (Hcases : (n = 0 \/ n = 1 \/ n = 2 \/ n = 3 \/ n = 4 \/ n = 5 \/ n = 6)%Z) by lia.
      destruct Hcases as [->|[->|[->|[->|[->|[->| ->]]]]]];
        rewrite ?H0, ?H2, ?H3, ?H6;
        match goal with
        | |- _ && Z.testbit 77 ?k = _ =>
            let b := eval vm_compute in (Z.testbit 77 k) in
            change (Z.testbit 77 k) with b
        end;
        rewrite ?andb_true_r, ?andb_false_r; reflexivity.
    + rewrite (Z.bits_above_log2 77 n), (Z.bits_above_log2 5 n), ?andb_false_r;
        [done | lia | | lia |].
      * change (Z.log2 5) with 2%Z. lia.
      * change (Z.log2 77) with 6%Z. lia.
Qed.

Lemma distinct_keycodes (keysym_to_keycode : Z -> Z) (k1 k2 : Z) :
  NoDup (keysym_to_keycode <$> hotkey_keysyms) ->
  k1 ∈ hotkey_keysyms -> k2 ∈ hotkey_keysyms -> k1 <> k2 ->
  keysym_to_keycode k1 <> keysym_to_keycode k2.
Proof.
  intros Hnodup H1 H2 Hne Heq.
  apply list_elem_of_lookup in H1 as [i Hi]. apply list_elem_of_lookup in H2 as [j Hj].
  assert (i = j).
  { eapply NoDup_lookup; [exact Hnodup | |]; rewrite list_lookup_fmap.
    - by rewrite Hi.
    - rewrite Hj. simpl. by rewrite Heq. }
  subst j. congruence.
Qed.

(** The messages of the built-in table are ASCII. *)
Lemma builtin_table_printable (stdout_encodes : Z -> bool) :
  (forall i, (0 <= i < 128)%Z -> stdout_encodes i = true) ->
  Forall (printable stdout_encodes) HOTKEYS.
Proof.
  intros Hascii. unfold HOTKEYS.
  repeat (apply List.Forall_cons;
          [split;
           [unfold XK.XK_1, XK.XK_2, XK.XK_3, XK.XK_4, XK.XK_5, XK.XK_6, XK.XK_7; simpl; lia
           |apply (Forall_impl (fun i => (0 <= i < 128)%Z));
            [apply (bool_decide_unpack _); vm_compute; reflexivity | exact Hascii]]|]).
  apply List.Forall_nil.
Qed.

(** The registration of the built-in table: seven grabs for Control+Shift,
    and the map from the seven pairs to the methods. *)
Lemma builtin_setup (keysym_to_keycode : Z -> Z) (stdout_encodes : Z -> bool) :
  (forall i, (0 <= i < 128)%Z -> stdout_encodes i = true) ->
  setup_hotkeys keysym_to_keycode stdout_encodes HOTKEYS new_manager
  = (Ok tt,
     {| grabs := binding_pair keysym_to_keycode <$> HOTKEYS;
        hotkey_map := foldl (fun m b => <[binding_pair keysym_to_keycode b := b.2]> m)
                            ∅ HOTKEYS |}).
Proof.
  intros Hascii. pose proof (builtin_table_printable stdout_encodes Hascii) as Hp.
  unfold HOTKEYS in *.
  repeat match type of Hp with
         | Forall _ (_ :: _) =>
             let Hb := fresh "Hb" in
             apply Forall_cons in Hp as [Hb Hp];
             cbn [setup_hotkeys];
             rewrite (register_binding_printable _ _ _ _ Hb)
         end.
  reflexivity.
Qed.

(** The map of the manager after the registration of the built-in table. *)
Lemma builtin_hotkey_map (keysym_to_keycode : Z -> Z) (stdout_encodes : Z -> bool)
      (modifiers keysym : Z) (name : string) (m : Z) :
  (forall i, (0 <= i < 128)%Z -> stdout_encodes i = true) ->
  NoDup (keysym_to_keycode <$> hotkey_keysyms) ->
  (modifiers, keysym, name) ∈ HOTKEYS ->
  hotkey_map (snd (setup_hotkeys keysym_to_keycode stdout_encodes HOTKEYS new_manager))
    !! (keysym_to_keycode keysym, m)
  = if decide (m = Z.lor X.ControlMask X.ShiftMask) then Some name else None.
Proof.
  intros Hascii Hnodup Hin. rewrite builtin_setup by done.
  assert (Hne : forall k1 k2 : Z, k1 ∈ hotkey_keysyms -> k2 ∈ hotkey_keysyms -> k1 <> k2 ->
                  forall m1 m2 : Z,
                    (keysym_to_keycode k1, m1) <> (keysym_to_keycode k2, m2)).
  { intros k1 k2 H1 H2 Hk m1 m2 [= Heq _].
    by apply (distinct_keycodes keysym_to_keycode k1 k2). }
  assert (Hmod : forall (k : Z) (m1 m2 : Z), m1 <> m2 ->
                   (keysym_to_keycode k, m1) <> (keysym_to_keycode k, m2)).
  { intros k m1 m2 Hm [= Heq]. done. }
  cbn. change (Z.lor X.ControlMask X.ShiftMask) with 5%Z.
  unfold HOTKEYS in Hin. change (Z.lor X.ControlMask X.ShiftMask) with 5%Z in Hin.
  unfold XK.XK_1, XK.XK_2, XK.XK_3, XK.XK_4, XK.XK_5, XK.XK_6, XK.XK_7 in *.
  destruct (decide (m = 5%Z)) as [->|Hm];
    repeat (apply elem_of_cons in Hin as [[= -> -> ->]|Hin]);
    try (by apply elem_of_nil in Hin);
    repeat first
      [ rewrite lookup_insert_eq
      | rewrite lookup_insert_ne
          by first [ apply Hne; [by apply (bool_decide_unpack _)
                                | by apply (bool_decide_unpack _) | lia]
                   | apply Hmod; lia ]
      | rewrite lookup_empty ];
    reflexivity.
Qed.

(** What the loop does with the press of one of the seven keys: it looks
    at four bits of the state. *)
Lemma dispatch_builtin_key (keysym_to_keycode : Z -> Z) (stdout_encodes : Z -> bool)
    (modifiers keysym : Z) (name : string) (key_state : Z) (h : list event) :
  (forall i, (0 <= i < 128)%Z -> stdout_encodes i = true) ->
  NoDup (keysym_to_keycode <$> hotkey_keysyms) ->
  (modifiers, keysym, name) ∈ HOTKEYS ->
  dispatch LLMAssistant
           (snd (setup_hotkeys keysym_to_keycode stdout_encodes HOTKEYS new_manager))
           {| type := X.KeyPress; detail := keysym_to_keycode keysym; state := key_state |} h
  = (Ok tt, h ++ if chord_held key_state then [EvIdle (Callback name)] else []).
Proof.
  intros Hascii Hnodup Hin.
  unfold dispatch. cbn [type detail state].
  rewrite (builtin_hotkey_map keysym_to_keycode stdout_encodes modifiers keysym name) by done.
  change (X.KeyPress =? X.KeyPress)%Z with true. cbv iota.
  destruct (decide (Z.land key_state modifier_mask = Z.lor X.ControlMask X.ShiftMask))
    as [Hchord|Hchord].
  - apply masked_state_is_the_chord in Hchord as ->.
    assert (Hname : negb (String.eqb name "") && LLMAssistant name = true).
    { unfold HOTKEYS in Hin.
      repeat (apply elem_of_cons in Hin as [[= _ _ ->]|Hin]); try done.
      by apply elem_of_nil in Hin. }
    by rewrite Hname.
  - destruct (chord_held key_state) eqn:Hheld.
    + by apply masked_state_is_the_chord in Hheld.
    + unfold ret. by rewrite app_nil_r.
Qed.

(** A state whose modifier bits are Control and Shift alone has the four
    bits as the loop wants them. *)
Lemma grab_modifiers_are_the_chord (key_state : Z) :
  Z.land key_state 255 = Z.lor X.ControlMask X.ShiftMask -> chord_held key_state = true.
Proof.
  intros H. apply masked_state_is_the_chord.
  change modifier_mask with (Z.land 255 77). rewrite Z.land_assoc, H. reflexivity.
Qed.

(** X12. The registration of the built-in table completes, and every key
    press that the X server delivers for one of its grabs invokes the method
    bound to the key: under any keyboard mapping that gives the seven keys
    different keycodes, a key-press event whose key is that of a requested
    grab and whose modifier bits are exactly the grab's -- Control and Shift,
    whatever pointer buttons are held -- makes the loop post the method of
    that binding, once. (A press with Caps Lock, Num Lock or another modifier
    down matches no grab and is not delivered.) *)
Theorem delivered_chord_invokes_its_method
    (keysym_to_keycode : Z -> Z) (stdout_encodes : Z -> bool)
    (e : xevent) (h : list event) :
  NoDup (keysym_to_keycode <$> hotkey_keysyms) ->
  (forall i, (0 <= i < 128)%Z -> stdout_encodes i = true) ->
  type e = X.KeyPress ->
  (exists g,
      g ∈ grabs (snd (setup_hotkeys keysym_to_keycode stdout_encodes HOTKEYS new_manager))
      /\ matches_grab e g) ->
  fst (setup_hotkeys keysym_to_keycode stdout_encodes HOTKEYS new_manager) = Ok tt
  /\ exists modifiers keysym name,
       (modifiers, keysym, name) ∈ HOTKEYS
       /\ detail e = keysym_to_keycode keysym
       /\ dispatch LLMAssistant
             (snd (setup_hotkeys keysym_to_keycode stdout_encodes HOTKEYS new_manager)) e h
          = (Ok tt, h ++ [EvIdle (Callback name)]).
Proof.
  intros Hnodup Hascii Htype (g & Hg & Hdetail & Hstate).
  split; [by rewrite builtin_setup|].
  rewrite builtin_setup in Hg by done. cbn [snd grabs] in Hg.
  apply list_elem_of_fmap in Hg as ([[modifiers keysym] name] & -> & Hin).
  exists modifiers, keysym, name. split; [done|]. split; [done|].
  destruct e as [ty key key_state]. simpl in Htype, Hdetail, Hstate. subst ty key.
  rewrite (dispatch_builtin_key keysym_to_keycode stdout_encodes modifiers keysym name)
    by done.
  rewrite grab_modifiers_are_the_chord; [done|].
  rewrite Hstate. unfold HOTKEYS in Hin.
  repeat (apply elem_of_cons in Hin as [[= -> _ _]|Hin]); try done.
  by apply elem_of_nil in Hin.
Qed.

Lemma chord_with_pointer_button_held :
  fst (setup_hotkeys example_keycode utf8_encodes HOTKEYS new_manager) = Ok tt
  /\ exists modifiers keysym name,
       (modifiers, keysym, name) ∈ HOTKEYS
       /\ 12%Z = example_keycode keysym
       /\ dispatch LLMAssistant
             (snd (setup_hotkeys example_keycode utf8_encodes HOTKEYS new_manager))
             {| type := X.KeyPress; detail := 12; state := 261 |} []
          = (Ok tt, [] ++ [EvIdle (Callback name)]).
Proof.
  apply (delivered_chord_invokes_its_method example_keycode utf8_encodes
           {| type := X.KeyPress; detail := 12; state := 261 |} []).
  - apply (bool_decide_unpack _). vm_compute. reflexivity.
  - intros i Hi. unfold utf8_encodes.
    destruct (Z.leb_spec 55296 i); [lia | reflexivity].
  - reflexivity.
  - exists (12, 5)%Z. split; [|by split].
    apply (bool_decide_unpack _). vm_compute. reflexivity.
Defined.
